(** * Superbecks point of sale: owner dashboard, cashier page and
    password-reset route, embedded in Rocq.

    The development follows the TypeScript sources:
    - [src/app/owner/page.tsx] (the owner dashboard with the void-and-replace
      editor, the CSV export and [phDateRangeToUtcIso]),
    - the cashier page ([placeOrder]),
    - the admin route ([POST] of the password reset).

    JavaScript values are modelled as the code uses them: calendar and
    millisecond arithmetic in [Z] (with [None] for [NaN]), money amounts as
    IEEE binary64 numbers (Rocq's primitive floats), quantities as the
    integers among them (sums are rounded as the numbers round them),
    identifiers and messages as strings, user-typed text as UTF-16 code
    units.  Calls to the hosted backend and to the browser are events of a
    small free monad; a run against an environment records every event with
    its answer.  Where a property is about the amounts the numbers stand
    for, their values are real numbers. *)

From Stdlib Require Import ZArith Lia List String Ascii Bool Floats Reals Lra.
From stdpp Require Import base option list strings gmap.
Import ListNotations.

Local Open Scope string_scope.
Local Open Scope Z_scope.

(** ** Results of JavaScript calls *)

(** A call either returns or throws an [Error] with a message. *)
Inductive outcome (A : Type) : Type :=
| Returned (a : A)
| Threw (message : string).
Arguments Returned {A} a.
Arguments Threw {A} message.

(** ** Decimal digits and the strings the date helpers exchange *)

Module Js.

Definition digitChar (k : Z) : ascii := ascii_of_nat (48 + Z.to_nat k).

Definition digitValue (c : ascii) : option Z :=
  let n := Z.of_nat (nat_of_ascii c) in
  if (48 <=? n) && (n <=? 57) then Some (n - 48) else None.

(** [pad w n]: the last [w] decimal digits of [n], as [padStart(w, "0")]
    gives them for [0 <= n < 10^w]. *)
Fixpoint pad (w : nat) (n : Z) : string :=
  match w with
  | O => EmptyString
  | S w' => pad w' (n / 10) +:+ String (digitChar (n mod 10)) EmptyString
  end.

(** [s.split(c)] for a one-character separator: never empty. *)
Fixpoint split (c : ascii) (s : string) : list string :=
  match s with
  | EmptyString => [EmptyString]
  | String a r =>
      if Ascii.eqb a c then EmptyString :: split c r
      else match split c r with
           | h :: t => String a h :: t
           | [] => [String a EmptyString]
           end
  end.

Fixpoint digitsValue (s : string) (acc : Z) : option Z :=
  match s with
  | EmptyString => Some acc
  | String a r =>
      match digitValue a with
      | Some d => digitsValue r (acc * 10 + d)
      | None => None
      end
  end.

(** [Number(s)] on the strings a date field splits into: the empty string
    is [0], a run of decimal digits is its value, and any string holding
    another character is [NaN] ([None]).  (Signs, white space, fractions,
    exponents and radix prefixes, which [Number] also reads, do not occur
    between the dashes of a date and are not modelled.) *)
Definition Number (s : string) : option Z := digitsValue s 0.

End Js.

(** ** The ECMAScript Date arithmetic used by [phDateRangeToUtcIso] *)

Module Date.

Definition msPerDay : Z := 86400000.
Definition msPerHour : Z := 3600000.
Definition msPerMinute : Z := 60000.
Definition msPerSecond : Z := 1000.

Definition Day (t : Z) : Z := t / msPerDay.
Definition TimeWithinDay (t : Z) : Z := t mod msPerDay.

Definition isLeap (y : Z) : bool :=
  ((y mod 4 =? 0) && negb (y mod 100 =? 0)) || (y mod 400 =? 0).

Definition DaysInYear (y : Z) : Z := if isLeap y then 366 else 365.

Definition DayFromYear (y : Z) : Z :=
  365 * (y - 1970) + (y - 1969) / 4 - (y - 1901) / 100 + (y - 1601) / 400.

(** Day within the year of the first day of month [mn] (0 = January), the
    table behind [MonthFromTime]. *)
Definition monthStart (mn : Z) (leap : bool) : Z :=
  let L := if leap then 1 else 0 in
  if mn =? 0 then 0 else if mn =? 1 then 31 else if mn =? 2 then 59 + L
  else if mn =? 3 then 90 + L else if mn =? 4 then 120 + L
  else if mn =? 5 then 151 + L else if mn =? 6 then 181 + L
  else if mn =? 7 then 212 + L else if mn =? 8 then 243 + L
  else if mn =? 9 then 273 + L else if mn =? 10 then 304 + L
  else 334 + L.

(** [MakeDay(year, month, date)]: months outside 0..11 carry into the
    year, and the date offsets the first day of the month. *)
Definition MakeDay (year month date : Z) : Z :=
  let ym := year + month / 12 in
  let mn := month mod 12 in
  DayFromYear ym + monthStart mn (isLeap ym) + date - 1.

Definition MakeTime (hour min sec ms : Z) : Z :=
  hour * msPerHour + min * msPerMinute + sec * msPerSecond + ms.

Definition MakeDate (day time : Z) : Z := day * msPerDay + time.

(** [TimeClip]: a time value further than 8.64e15 ms from the epoch is
    [NaN]. *)
Definition TimeClip (t : Z) : option Z :=
  if Z.abs t <=? 8640000000000000 then Some t else None.

(** [MakeFullYear]: a year from 0 to 99 means 1900 + year. *)
Definition MakeFullYear (y : Z) : Z :=
  if (0 <=? y) && (y <=? 99) then 1900 + y else y.

(** [Date.UTC(year, month, date, 0, 0, 0)]; [None] is [NaN]. *)
Definition UTC (year month date : option Z) : option Z :=
  match year, month, date with
  | Some y, Some m, Some d =>
      TimeClip (MakeDate (MakeDay (MakeFullYear y) m d) (MakeTime 0 0 0 0))
  | _, _, _ => None
  end.

(** [YearFromTime]: the largest year whose first day is not after the
    day.  The 400-year cycle (146097 days) gives an estimate that is off by
    at most one. *)
Definition YearFromDay (d : Z) : Z :=
  let y := 1970 + (d * 400) / 146097 in
  if DayFromYear (y + 1) <=? d then y + 1
  else if DayFromYear y <=? d then y
  else y - 1.

Definition YearFromTime (t : Z) : Z := YearFromDay (Day t).
Definition DayWithinYear (t : Z) : Z := Day t - DayFromYear (YearFromTime t).
Definition InLeapYear (t : Z) : bool := isLeap (YearFromTime t).

Definition MonthFromTime (t : Z) : Z :=
  let d := DayWithinYear t in
  let L := if InLeapYear t then 1 else 0 in
  if d <? 31 then 0 else if d <? 59 + L then 1 else if d <? 90 + L then 2
  else if d <? 120 + L then 3 else if d <? 151 + L then 4
  else if d <? 181 + L then 5 else if d <? 212 + L then 6
  else if d <? 243 + L then 7 else if d <? 273 + L then 8
  else if d <? 304 + L then 9 else if d <? 334 + L then 10 else 11.

Definition DateFromTime (t : Z) : Z :=
  DayWithinYear t - monthStart (MonthFromTime t) (InLeapYear t) + 1.

Definition HourFromTime (t : Z) : Z := (t / msPerHour) mod 24.
Definition MinFromTime (t : Z) : Z := (t / msPerMinute) mod 60.
Definition SecFromTime (t : Z) : Z := (t / msPerSecond) mod 60.
Definition msFromTime (t : Z) : Z := t mod msPerSecond.

(** The year of an ISO string: four digits from 0 to 9999, otherwise a
    sign and six digits. *)
Definition isoYear (y : Z) : string :=
  if (0 <=? y) && (y <=? 9999) then Js.pad 4 y
  else (if y <? 0 then "-" else "+") +:+ Js.pad 6 (Z.abs y).

(** The ISO string of a finite time value. *)
Definition iso (t : Z) : string :=
  isoYear (YearFromTime t) +:+ "-" +:+ Js.pad 2 (MonthFromTime t + 1) +:+ "-"
  +:+ Js.pad 2 (DateFromTime t) +:+ "T" +:+ Js.pad 2 (HourFromTime t) +:+ ":"
  +:+ Js.pad 2 (MinFromTime t) +:+ ":" +:+ Js.pad 2 (SecFromTime t) +:+ "."
  +:+ Js.pad 3 (msFromTime t) +:+ "Z".

(** [new Date(v).toISOString()]: the constructor clips the value, and an
    invalid date throws a [RangeError]. *)
Definition toISOString (v : option Z) : outcome string :=
  match v ≫= TimeClip with
  | Some t => Returned (iso t)
  | None => Threw "Invalid time value"
  end.

End Date.

(** ** [phDateRangeToUtcIso] (owner page) *)

Record UtcRange := { startUtc : string; endUtc : string }.

(** Arithmetic on numbers that may be [NaN]. *)
Definition nadd (a b : option Z) : option Z := x ← a; y ← b; Some (x + y).
Definition nsub (a b : option Z) : option Z := x ← a; y ← b; Some (x - y).

(** [const [y, m, d] = s.split("-").map(Number)]: a missing element is
    [undefined], which the arithmetic below turns into [NaN]. *)
Definition ymdParts (s : string) : option Z * option Z * option Z :=
  let parts := map Js.Number (Js.split "-" s) in
  (mjoin (parts !! 0%nat), mjoin (parts !! 1%nat), mjoin (parts !! 2%nat)).

Definition phDateRangeToUtcIso (startDate endDateInclusive : string)
  : outcome UtcRange :=
  let offsetMin := 8 * 60 in
  let '(sy, sm, sd) := ymdParts startDate in
  let '(ey, em, ed) := ymdParts endDateInclusive in
  let startPhMs := Date.UTC sy (nsub sm (Some 1)) sd in
  let endPhMsInclusive := Date.UTC ey (nsub em (Some 1)) ed in
  let endPhExclusiveMs := nadd endPhMsInclusive (Some (24 * 60 * 60 * 1000)) in
  let startUtcMs := nsub startPhMs (Some (offsetMin * 60 * 1000)) in
  let endUtcMs := nsub endPhExclusiveMs (Some (offsetMin * 60 * 1000)) in
  match Date.toISOString startUtcMs with
  | Threw m => Threw m
  | Returned s =>
      match Date.toISOString endUtcMs with
      | Threw m => Threw m
      | Returned e => Returned {| startUtc := s; endUtc := e |}
      end
  end.

(** *** The calendar the specification speaks of *)

Record ymd := { year : Z; month : Z; day : Z }.

Definition daysInMonth (y m : Z) : Z :=
  if m =? 2 then (if Date.isLeap y then 29 else 28)
  else if (m =? 4) || (m =? 6) || (m =? 9) || (m =? 11) then 30
  else 31.

Definition validDate (d : ymd) : Prop :=
  1 <= month d <= 12 /\ 1 <= day d <= daysInMonth (year d) (month d).

(** The calendar day after [d], with month and year rollover. *)
Definition nextDay (d : ymd) : ymd :=
  if day d <? daysInMonth (year d) (month d)
  then {| year := year d; month := month d; day := day d + 1 |}
  else if month d <? 12
  then {| year := year d; month := month d + 1; day := 1 |}
  else {| year := year d + 1; month := 1; day := 1 |}.

(** Days from 0000-01-01 to the first day of year [n], by counting years. *)
Fixpoint daysBeforeYear (n : nat) : Z :=
  match n with
  | O => 0
  | S k => daysBeforeYear k + Date.DaysInYear (Z.of_nat k)
  end.

(** Days from the first day of the year to the first day of month [S k]. *)
Fixpoint daysBeforeMonth (y : Z) (k : nat) : Z :=
  match k with
  | O => 0
  | S j => daysBeforeMonth y j + daysInMonth y (Z.of_nat (S j))
  end.

(** The day number of a calendar date of the proleptic Gregorian calendar
    (year 0 and later), counted from 1970-01-01. *)
Definition civilDay (d : ymd) : Z :=
  daysBeforeYear (Z.to_nat (year d)) - daysBeforeYear 1970
  + daysBeforeMonth (year d) (Z.to_nat (month d - 1)) + (day d - 1).

(** The UTC instant (ms since the epoch) of midnight of [d] on a clock eight
    hours ahead of UTC. *)
Definition localMidnightUtc (d : ymd) : Z :=
  civilDay d * Date.msPerDay - 8 * Date.msPerHour.

(** The [YYYY-MM-DD] string of a date. *)
Definition ymdString (d : ymd) : string :=
  Js.pad 4 (year d) +:+ "-" +:+ Js.pad 2 (month d) +:+ "-" +:+ Js.pad 2 (day d).

(** ** JavaScript text and numbers *)

(** Text typed by a user or sent in a JSON body: UTF-16 code units, so that
    [length] and [trim] are JavaScript's. *)
Definition text := list N.

Module Text.

(** WhiteSpace and LineTerminator code points, the ones [trim] strips. *)
Definition isWhiteSpace (c : N) : bool :=
  ((9 <=? c) && (c <=? 13) || (c =? 32) || (c =? 160) || (c =? 5760)
   || (8192 <=? c) && (c <=? 8202) || (c =? 8232) || (c =? 8233)
   || (c =? 8239) || (c =? 8287) || (c =? 12288) || (c =? 65279))%N.

Fixpoint trimStart (s : text) : text :=
  match s with
  | c :: r => if isWhiteSpace c then trimStart r else s
  | [] => []
  end.

Definition trimEnd (s : text) : text := rev (trimStart (rev s)).

Definition trim (s : text) : text := trimEnd (trimStart s).

(** The code units of an ASCII string literal. *)
Fixpoint ofString (s : string) : text :=
  match s with
  | EmptyString => []
  | String a r => N_of_ascii a :: ofString r
  end.

End Text.

(** Truthiness of a string that may be [null] or [undefined]. *)
Definition truthy (s : option string) : option string :=
  match s with
  | Some EmptyString | None => None
  | Some v => Some v
  end.

Definition truthyText (s : option text) : option text :=
  match s with
  | Some [] | None => None
  | Some v => Some v
  end.

(** Money amounts are JavaScript numbers: IEEE binary64. *)
Module Num.

(** The number nearest to an integer (ties to even), as a conversion from
    an integer-valued quantity gives it. *)
Definition ofZ (z : Z) : float := SF2Prim (binary_normalize prec emax z 0 false).

(** The integer nearest to [z] among the numbers (ties to even): integers
    below [2^53] in magnitude are numbers themselves, larger ones keep 53
    significant bits. *)
Definition roundInt (z : Z) : Z :=
  let a := Z.abs z in
  if a <? 2 ^ 53 then z
  else
    let k := Z.log2 a - 52 in
    let q := a / 2 ^ k in
    let r := a mod 2 ^ k in
    let half := 2 ^ (k - 1) in
    let q' := if r <? half then q
              else if half <? r then q + 1
              else if Z.even q then q else q + 1 in
    Z.sgn z * (q' * 2 ^ k).

(** [a + b] on integer-valued numbers: the exact sum, rounded to a
    number.  (From [2^53] on, adding one can leave a quantity as it is.) *)
Definition addInt (a b : Z) : Z := roundInt (a + b).

(** [n || 0] on a number: [0], [-0] and [NaN] are falsy. *)
Definition orZero (x : float) : float :=
  if PrimFloat.is_nan x || PrimFloat.is_zero x then 0%float else x.

(** The magnitude of a finite number as [m * 2^e]. *)
Definition magnitude (x : float) : option (Z * Z) :=
  match Prim2SF x with
  | S754_zero _ => Some (0, 0)
  | S754_finite _ m e => Some (Zpos m, e)
  | _ => None
  end.

Definition isNegative (x : float) : bool := (x <? 0)%float.

(** [toFixed(2)], step "let n be an integer for which n / 100 - x is as
    close to zero as possible; if there are two such n, pick the larger":
    the exact value of [|x| * 100], rounded half up. *)
Definition hundredths (m e : Z) : Z :=
  if 0 <=? e then m * 2 ^ e * 100
  else (2 * (m * 100) + 2 ^ (- e)) / (2 * 2 ^ (- e)).

(** Whether [|x| >= 10^21], where [toFixed] falls back to [ToString]. *)
Definition isLarge (m e : Z) : bool :=
  if 0 <=? e then 10 ^ 21 <=? m * 2 ^ e else false.

(** Decimal digits of a non-negative integer, most significant first
    ([fuel] bounds the number of digits). *)
Fixpoint digits (fuel : nat) (n : Z) (acc : string) : string :=
  match fuel with
  | O => acc
  | S f =>
      let acc' := String (Js.digitChar (n mod 10)) acc in
      if n / 10 =? 0 then acc' else digits f (n / 10) acc'
  end.

Definition decimal (n : Z) : string := digits (S (Z.to_nat (Z.log2 n))) n EmptyString.

(** [String(n)] for an integer-valued number below [10^21]. *)
Definition stringOfZ (z : Z) : string :=
  if z <? 0 then "-" +:+ decimal (- z) else decimal z.

(** The digits of [n] with a point before the last two, padded with
    zeros to at least three digits. *)
Definition fixed2 (n : Z) : string :=
  decimal (n / 100) +:+ "." +:+ Js.pad 2 (n mod 100).

(** The number nearest to [n / 100] (ties to even): the value [Number]
    reads from the string [toFixed(2)] printed. *)
Definition ofHundredths (n : Z) : float :=
  let q := (n * 2 ^ 64) / 100 in
  let sticky := if (n * 2 ^ 64) mod 100 =? 0 then 0 else 1 in
  SF2Prim (binary_normalize prec emax (2 * q + sticky) (-65) false).

Section ToString.

(** [Number::toString] for magnitudes of [10^21] and more (exponent
    notation), which [toFixed] delegates to; it is not modelled and stays
    a parameter. *)
Variable toStringLarge : float -> string.

(** [x.toFixed(2)]. *)
Definition toFixed2 (x : float) : string :=
  match magnitude x with
  | None =>
      if PrimFloat.is_nan x then "NaN"
      else if isNegative x then "-Infinity" else "Infinity"
  | Some (m, e) =>
      if isLarge m e then toStringLarge x
      else (if isNegative x then "-" else EmptyString) +:+ fixed2 (hundredths m e)
  end.

(** [String(q)] for an integer-valued number: decimal digits below
    [10^21], the exponent notation from there on. *)
Definition toStringInt (q : Z) : string :=
  if Z.abs q <? 10 ^ 21 then stringOfZ q else toStringLarge (ofZ q).

End ToString.

(** [Number(x.toFixed(2))]: the number read back from the printed string.
    A [NaN], an infinity or a magnitude of [10^21] and more prints in a
    form that reads back as [x] itself. *)
Definition round2 (x : float) : float :=
  match magnitude x with
  | None => x
  | Some (m, e) =>
      if isLarge m e then x
      else
        let v := ofHundredths (hundredths m e) in
        if isNegative x then (- v)%float else v
  end.

End Num.

(** ** Calls to the backend and to the browser *)

(** What a backend call resolves to: [{ data, error }] with exactly one of
    the two set. *)
Inductive result (A : Type) : Type :=
| Ok (data : A)
| Err (message : string).
Arguments Ok {A} data.
Arguments Err {A} message.

(** [select("id, branch_id, payment_type, total_amount").single()] *)
Record OrderHeader := {
  oh_id : string;
  oh_branch_id : string;
  oh_payment_type : string;
  oh_total_amount : float }.

(** [select("menu_item_id, qty, unit_price, line_total, menu_items(name)")] *)
Record OrderLineRead := {
  ol_menu_item_id : string;
  ol_qty : Z;
  ol_unit_price : float;
  ol_line_total : float;
  ol_menu_items : option string }.

(** The object given to [from("orders").insert]. *)
Record OrderInsert := {
  oi_branch_id : string;
  oi_created_by : option string;
  oi_payment_type : string;
  oi_status : string;
  oi_total_amount : float;
  oi_replaces : option string }.

(** One object of the array given to [from("order_lines").insert]. *)
Record LineInsert := {
  li_order_id : string;
  li_menu_item_id : string;
  li_qty : Z;
  li_unit_price : float;
  li_line_total : float }.

(** The object given to [from("orders").update]: the columns it sets. *)
Record OrderPatch := {
  op_total_amount : option float;
  op_status : option string;
  op_voided_at : option string;
  op_voided_by : option string;
  op_void_reason : option text;
  op_replaced_by : option string }.

Definition noPatch : OrderPatch :=
  {| op_total_amount := None; op_status := None; op_voided_at := None;
     op_voided_by := None; op_void_reason := None; op_replaced_by := None |}.

(** The calls the pages make, each with the type of its answer. *)
Inductive event : Type -> Type :=
| confirm (msg : string) : event bool
| alert (msg : string) : event unit
| nowIso : event string
    (** [new Date().toISOString()] *)
| authGetSession : event (option string)
    (** [supabase.auth.getSession()], read as [session?.user?.id] *)
| authGetUser : event (option string)
    (** [supabase.auth.getUser()], read as [user?.id] *)
| ordersSelectSingle (id : string) : event (result OrderHeader)
| orderLinesSelect (order_id : string) : event (result (option (list OrderLineRead)))
| ordersInsert (row : OrderInsert) : event (result string)
    (** [insert(row).select("id").single()]: the new id *)
| orderLinesInsert (rows : list LineInsert) : event (result unit)
| orderLinesDelete (order_id : string) : event (result unit)
| ordersUpdate (patch : OrderPatch) (id : string) : event (result unit)
| refreshAll : event unit.
    (** the dashboard reload: reads only, and it catches its own errors *)

(** Whether a call asks the backend to change a row. *)
Definition isWrite {X} (e : event X) : bool :=
  match e with
  | ordersInsert _ | orderLinesInsert _ | orderLinesDelete _ | ordersUpdate _ _ => true
  | _ => false
  end.

(** Whether a call goes to the backend at all (reads included). *)
Definition isBackend {X} (e : event X) : bool :=
  match e with
  | confirm _ | alert _ | nowIso => false
  | _ => true
  end.

(** Programs: a tree of calls, each continued by its answer. *)
Inductive prog (A : Type) : Type :=
| Ret (a : A)
| Vis {X : Type} (e : event X) (k : X -> prog A).
Arguments Ret {A} a.
Arguments Vis {A X} e k.

Fixpoint pbind {A B} (p : prog A) (f : A -> prog B) : prog B :=
  match p with
  | Ret a => f a
  | Vis e k => Vis e (fun x => pbind (k x) f)
  end.

(** One call of a run, with the answer it got. *)
Inductive entry : Type :=
| Entry {X : Type} (e : event X) (x : X).

Definition entryIsWrite (en : entry) : bool :=
  match en with Entry e _ => isWrite e end.

Definition entryIsBackend (en : entry) : bool :=
  match en with Entry e _ => isBackend e end.

Definition entryAlert (en : entry) : option string :=
  match en with
  | Entry (alert m) _ => Some m
  | _ => None
  end.

Definition entryConfirm (en : entry) : option bool :=
  match en with
  | Entry (confirm _) b => Some b
  | _ => None
  end.

Definition isErr {A} (r : result A) : bool :=
  match r with
  | Err _ => true
  | Ok _ => false
  end.

(** Whether the entry is a backend call that answered with an error. *)
Definition entryFailed (en : entry) : bool :=
  match en with
  | Entry e x =>
      match e in event X return X -> bool with
      | ordersSelectSingle _ => isErr
      | orderLinesSelect _ => isErr
      | ordersInsert _ => isErr
      | orderLinesInsert _ => isErr
      | orderLinesDelete _ => isErr
      | ordersUpdate _ _ => isErr
      | _ => fun _ => false
      end x
  end.

(** The writes of a run, the messages it showed, and the answers the user
    gave to its confirmation dialogs. *)
Definition writes (tr : list entry) : list entry := filter entryIsWrite tr.
Definition alerts (tr : list entry) : list string := omap entryAlert tr.
Definition confirms (tr : list entry) : list bool := omap entryConfirm tr.

(** The backend calls of a run that failed. *)
Definition failures (tr : list entry) : list entry := filter entryFailed tr.

(** An environment answers every call and moves to its next state. *)
Definition handler (W : Type) := forall X, event X -> W -> X * W.

Fixpoint run {A W} (h : handler W) (p : prog A) (w : W) : A * W * list entry :=
  match p with
  | Ret a => (a, w, [])
  | Vis e k =>
      let '(x, w1) := h _ e w in
      let '(a, w2, tr) := run h (k x) w1 in
      (a, w2, Entry e x :: tr)
  end.

(** *** Handlers of a page: a store of React state, calls, and [throw] *)

Section Act.

Context {S : Type}.

(** A step reads and updates the store [S] and either returns or
    throws. *)
Definition act (A : Type) := S -> prog (outcome A * S).

Definition ret {A} (a : A) : act A := fun st => Ret (Returned a, st).

Definition throw {A} (m : string) : act A := fun st => Ret (Threw m, st).

Definition bind {A B} (c : act A) (f : A -> act B) : act B :=
  fun st =>
    pbind (c st) (fun r =>
      match r with
      | (Returned a, st1) => f a st1
      | (Threw m, st1) => Ret (Threw m, st1)
      end).

Definition call {X} (e : event X) : act X :=
  fun st => Vis e (fun x => Ret (Returned x, st)).

(** A state setter: the update is applied to the store. *)
Definition set (f : S -> S) : act unit := fun st => Ret (Returned tt, f st).

(** [const { data, error } = await q; if (error) throw new Error(error.message)] *)
Definition orThrow {A} (r : result A) : act A :=
  match r with
  | Ok d => ret d
  | Err m => throw m
  end.

(** [try { body } catch (err) { onError(err.message) } finally { fin }] *)
Definition tryCatchFinally (body : act unit) (onError : string -> act unit)
    (fin : act unit) : act unit :=
  fun st =>
    pbind (body st) (fun r =>
      match r with
      | (Returned _, st1) => fin st1
      | (Threw m, st1) => bind (onError m) (fun _ => fin) st1
      end).

End Act.

Declare Scope act_scope.
Delimit Scope act_scope with act.
Notation "x <~ c ;; k" := (bind c (fun x => k))
  (at level 20, c at level 99, k at level 200, only parsing) : act_scope.
Notation "c ;; k" := (bind c (fun _ => k))
  (at level 100, k at level 200, right associativity, only parsing) : act_scope.

(** ** The owner dashboard ([src/app/owner/page.tsx]) *)

Module Owner.

Record Branch := { b_id : string; b_name : string }.

Record MenuEntry := { m_id : string; m_name : string; m_price : float }.

Record ReplaceLine := {
  id : string;
  menu_item_id : string;
  name : string;
  unit_price : float;
  qty : Z }.

(** The React state the replacement editor reads and sets. *)
Record State := {
  replaceMode : bool;
  replaceOldId : option string;
  replaceNewId : option string;
  voidReason : text;
  replaceSaving : bool;
  replaceLines : list ReplaceLine;
  replaceBranchLabel : string;
  menuAll : list MenuEntry;
  branches : list Branch }.

Definition setReplaceMode (v : bool) (s : State) : State :=
  {| replaceMode := v; replaceOldId := replaceOldId s;
     replaceNewId := replaceNewId s; voidReason := voidReason s;
     replaceSaving := replaceSaving s; replaceLines := replaceLines s;
     replaceBranchLabel := replaceBranchLabel s; menuAll := menuAll s;
     branches := branches s |}.

Definition setReplaceOldId (v : option string) (s : State) : State :=
  {| replaceMode := replaceMode s; replaceOldId := v;
     replaceNewId := replaceNewId s; voidReason := voidReason s;
     replaceSaving := replaceSaving s; replaceLines := replaceLines s;
     replaceBranchLabel := replaceBranchLabel s; menuAll := menuAll s;
     branches := branches s |}.

Definition setReplaceNewId (v : option string) (s : State) : State :=
  {| replaceMode := replaceMode s; replaceOldId := replaceOldId s;
     replaceNewId := v; voidReason := voidReason s;
     replaceSaving := replaceSaving s; replaceLines := replaceLines s;
     replaceBranchLabel := replaceBranchLabel s; menuAll := menuAll s;
     branches := branches s |}.

Definition setVoidReason (v : text) (s : State) : State :=
  {| replaceMode := replaceMode s; replaceOldId := replaceOldId s;
     replaceNewId := replaceNewId s; voidReason := v;
     replaceSaving := replaceSaving s; replaceLines := replaceLines s;
     replaceBranchLabel := replaceBranchLabel s; menuAll := menuAll s;
     branches := branches s |}.

Definition setReplaceSaving (v : bool) (s : State) : State :=
  {| replaceMode := replaceMode s; replaceOldId := replaceOldId s;
     replaceNewId := replaceNewId s; voidReason := voidReason s;
     replaceSaving := v; replaceLines := replaceLines s;
     replaceBranchLabel := replaceBranchLabel s; menuAll := menuAll s;
     branches := branches s |}.

(** [setReplaceLines] takes the new list or a function of the previous
    one; both are an update of the stored list. *)
Definition setReplaceLines (f : list ReplaceLine -> list ReplaceLine)
    (s : State) : State :=
  {| replaceMode := replaceMode s; replaceOldId := replaceOldId s;
     replaceNewId := replaceNewId s; voidReason := voidReason s;
     replaceSaving := replaceSaving s; replaceLines := f (replaceLines s);
     replaceBranchLabel := replaceBranchLabel s; menuAll := menuAll s;
     branches := branches s |}.

Definition setReplaceBranchLabel (v : string) (s : State) : State :=
  {| replaceMode := replaceMode s; replaceOldId := replaceOldId s;
     replaceNewId := replaceNewId s; voidReason := voidReason s;
     replaceSaving := replaceSaving s; replaceLines := replaceLines s;
     replaceBranchLabel := v; menuAll := menuAll s;
     branches := branches s |}.

(** [branchNameById]: a [Map] filled by [set] in the order of the list. *)
Definition branchNameById (bs : list Branch) : gmap string string :=
  foldl (fun m b => <[b_id b := b_name b]> m) ∅ bs.

Local Open Scope act_scope.

(** *** [startVoidAndReplace] *)

(** An old line copied onto the new order ([newLinesDb]). *)
Definition copyLine (newOrderId : string) (l : OrderLineRead) : LineInsert :=
  {| li_order_id := newOrderId;
     li_menu_item_id := ol_menu_item_id l;
     li_qty := ol_qty l;
     li_unit_price := ol_unit_price l;
     li_line_total := ol_line_total l |}.

(** An old line loaded into the editor ([editorLines]). *)
Definition editorLine (l : OrderLineRead) : ReplaceLine :=
  {| id := ol_menu_item_id l;
     menu_item_id := ol_menu_item_id l;
     name := default "Unknown" (ol_menu_items l);
     unit_price := ol_unit_price l;
     qty := ol_qty l |}.

Definition startVoidAndReplace (s : State) (oldOrderId : string) : act (S := State) unit :=
  ok <~ call (confirm "Start VOID + REPLACE for this order?") ;;
  if negb ok then ret tt else
  set (setReplaceSaving true) ;;
  tryCatchFinally
    (r1 <~ call (ordersSelectSingle oldOrderId) ;;
     old <~ orThrow r1 ;;
     r2 <~ call (orderLinesSelect oldOrderId) ;;
     lines <~ orThrow r2 ;;
     r3 <~ call (ordersInsert
                   {| oi_branch_id := oh_branch_id old;
                      oi_created_by := None;
                      oi_payment_type := oh_payment_type old;
                      oi_status := "DRAFT";
                      oi_total_amount := oh_total_amount old;
                      oi_replaces := Some oldOrderId |}) ;;
     newOrderId <~ orThrow r3 ;;
     let newLinesDb := map (copyLine newOrderId) (default [] lines) in
     (if (0 <? length newLinesDb)%nat
      then r4 <~ call (orderLinesInsert newLinesDb) ;; orThrow r4
      else ret tt) ;;
     let editorLines := map editorLine (default [] lines) in
     set (setReplaceMode true) ;;
     set (setReplaceOldId (Some oldOrderId)) ;;
     set (setReplaceNewId (Some newOrderId)) ;;
     set (setReplaceLines (fun _ => editorLines)) ;;
     set (setVoidReason []) ;;
     set (setReplaceBranchLabel
            (default (oh_branch_id old)
               (branchNameById (branches s) !! oh_branch_id old))))
    (fun m => call (alert m))
    (set (setReplaceSaving false)).

(** *** The editing operations: the updates given to [setReplaceLines] *)

Definition incLine (menuItemId : string) (l : ReplaceLine) : ReplaceLine :=
  if String.eqb (menu_item_id l) menuItemId
  then {| id := id l; menu_item_id := menu_item_id l; name := name l;
          unit_price := unit_price l; qty := Num.addInt (qty l) 1 |}
  else l.

Definition repInc (menuItemId : string) (prev : list ReplaceLine) : list ReplaceLine :=
  map (incLine menuItemId) prev.

Definition repDec (menuItemId : string) (prev : list ReplaceLine) : list ReplaceLine :=
  map (fun l =>
         if String.eqb (menu_item_id l) menuItemId
         then {| id := id l; menu_item_id := menu_item_id l; name := name l;
                 unit_price := unit_price l;
                 qty := Z.max 1 (Num.addInt (qty l) (-1)) |}
         else l) prev.

Definition repRemove (menuItemId : string) (prev : list ReplaceLine) : list ReplaceLine :=
  filter (fun l => menu_item_id l ≠ menuItemId) prev.

(** [repAdd] looks the item up in [menuAll] first and does nothing when it
    is not there. *)
Definition repAdd (menu : list MenuEntry) (menuItemId : string)
    (prev : list ReplaceLine) : list ReplaceLine :=
  match find (fun m => String.eqb (m_id m) menuItemId) menu with
  | None => prev
  | Some it =>
      match find (fun l => String.eqb (menu_item_id l) menuItemId) prev with
      | Some _ => map (incLine menuItemId) prev
      | None =>
          prev ++ [{| id := m_id it; menu_item_id := m_id it; name := m_name it;
                      unit_price := m_price it; qty := 1 |}]
      end
  end.

(** [replaceTotal], recomputed on every render. *)
Definition replaceTotal (s : State) : float :=
  fold_left (fun sum l => (sum + unit_price l * Num.ofZ (qty l))%float)
    (replaceLines s) 0%float.

(** *** [saveReplacementDraft] *)

Definition draftPayload (newId : string) (ls : list ReplaceLine) : list LineInsert :=
  map (fun l => {| li_order_id := newId;
                   li_menu_item_id := menu_item_id l;
                   li_qty := qty l;
                   li_unit_price := unit_price l;
                   li_line_total := (unit_price l * Num.ofZ (qty l))%float |}) ls.

Definition saveReplacementDraft (s : State) : act (S := State) unit :=
  match truthy (replaceNewId s) with
  | None => ret tt
  | Some newId =>
      set (setReplaceSaving true) ;;
      tryCatchFinally
        (e1 <~ call (orderLinesDelete newId) ;;
         orThrow e1 ;;
         let payload := draftPayload newId (replaceLines s) in
         (if (0 <? length payload)%nat
          then e2 <~ call (orderLinesInsert payload) ;; orThrow e2
          else ret tt) ;;
         e3 <~ call (ordersUpdate
                       {| op_total_amount := Some (replaceTotal s);
                          op_status := None; op_voided_at := None;
                          op_voided_by := None; op_void_reason := None;
                          op_replaced_by := None |} newId) ;;
         orThrow e3 ;;
         call (alert "✅ Draft saved."))
        (fun m => call (alert m))
        (set (setReplaceSaving false))
  end.

(** *** [finalizeReplacement] *)

Definition paidPatch : OrderPatch :=
  {| op_total_amount := None; op_status := Some "PAID"; op_voided_at := None;
     op_voided_by := None; op_void_reason := None; op_replaced_by := None |}.

Definition voidPatch (now ownerId : string) (reason : text) (newId : string) : OrderPatch :=
  {| op_total_amount := None; op_status := Some "VOIDED";
     op_voided_at := Some now; op_voided_by := Some ownerId;
     op_void_reason := Some reason; op_replaced_by := Some newId |}.

Definition finalizeReplacement (s : State) : act (S := State) unit :=
  match truthy (replaceOldId s), truthy (replaceNewId s) with
  | Some oldId, Some newId =>
      if (length (Text.trim (voidReason s)) <? 3)%nat
      then call (alert "Please enter a void reason (at least 3 characters).")
      else if (length (replaceLines s) =? 0)%nat
      then call (alert "Replacement cannot be empty. Add at least 1 item.")
      else
        ok <~ call (confirm "Finalize replacement? This will VOID the old order and mark the new one as PAID.") ;;
        if negb ok then ret tt else
        set (setReplaceSaving true) ;;
        tryCatchFinally
          (sess <~ call authGetSession ;;
           match truthy sess with
           | None => throw "Login required"
           | Some ownerId =>
               saveReplacementDraft s ;;
               e1 <~ call (ordersUpdate paidPatch newId) ;;
               orThrow e1 ;;
               now <~ call nowIso ;;
               e2 <~ call (ordersUpdate
                             (voidPatch now ownerId (Text.trim (voidReason s)) newId)
                             oldId) ;;
               orThrow e2 ;;
               call (alert "✅ Replacement finalized.") ;;
               set (setReplaceMode false) ;;
               set (setReplaceOldId None) ;;
               set (setReplaceNewId None) ;;
               set (setReplaceLines (fun _ => [])) ;;
               set (setVoidReason []) ;;
               call refreshAll
           end)
          (fun m => call (alert m))
          (set (setReplaceSaving false))
  | _, _ => ret tt
  end.

(** *** [cancelReplacement] *)


End Owner.

(** ** The dashboard's reports and the CSV export (owner page) *)

Module Dashboard.

Record Order := {
  id : string;
  branch_id : string;
  created_at : string;
  payment_type : string;
  total_amount : float;
  status : option string }.

Record Line := {
  order_id : string;
  menu_item_id : string;
  qty : Z;
  line_total : float;
  menu_items : option string }.

Definition quoteChar : ascii := "034"%char.
Definition newlineChar : ascii := "010"%char.

Fixpoint includes (c : ascii) (s : string) : bool :=
  match s with
  | EmptyString => false
  | String a r => Ascii.eqb a c || includes c r
  end.

(** The [replace] of [escapeCsv]: every quote character is doubled. *)
Fixpoint doubleQuotes (s : string) : string :=
  match s with
  | EmptyString => EmptyString
  | String a r =>
      if Ascii.eqb a quoteChar
      then String quoteChar (String quoteChar (doubleQuotes r))
      else String a (doubleQuotes r)
  end.

(** [escapeCsv], on the string its argument converts to. *)
Definition escapeCsv (s : string) : string :=
  if includes quoteChar s || includes "," s || includes newlineChar s
  then String quoteChar (doubleQuotes s +:+ String quoteChar EmptyString)
  else s.

(** [linesByOrder]: each line is pushed on the array of its order. *)
Definition linesByOrder (lines : list Line) : gmap string (list Line) :=
  foldl (fun m l => <[order_id l := (default [] (m !! order_id l) ++ [l])%list]> m) ∅ lines.

Definition header : list string :=
  ["order_created_at"; "branch"; "payment_type"; "order_total";
   "item_name"; "qty"; "line_total"].

(** The comparator of the two [sort] calls on orders: newest first. *)
Definition newestFirst (a b : Order) : Z :=
  if String.ltb (created_at a) (created_at b) then 1 else -1.

Section CsvExport.

(** [Array.prototype.sort] with a comparator: the result on a
    comparator that is not a consistent order (this one never answers 0)
    is left to the engine, so the sort is a parameter. *)
Variable sort : (Order -> Order -> Z) -> list Order -> list Order.

Variable toStringLarge : float -> string.

Definition money (x : float) : string :=
  Num.toFixed2 toStringLarge (Num.orZero x).

(** [fmtMoney]: the peso sign and two decimals. *)
Definition fmtMoney (n : float) : string := "₱" +:+ money n.

(** The five fields every data row starts with. *)
Definition orderFields (names : gmap string string) (o : Order) : list string :=
  [escapeCsv (id o); escapeCsv (created_at o);
   escapeCsv (default (branch_id o) (names !! branch_id o));
   escapeCsv (payment_type o); escapeCsv (money (total_amount o))].

Definition lineFields (l : Line) : list string :=
  [escapeCsv (default "Unknown" (menu_items l));
   escapeCsv (Num.toStringInt toStringLarge (qty l));
   escapeCsv (money (line_total l))].

(** The value a header name announces, for a row of order [o] and
    line [l] ([None]: the placeholder row of an order without lines). *)
Definition describedValue (names : gmap string string) (o : Order)
    (l : option Line) (column : string) : string :=
  if String.eqb column "order_created_at" then escapeCsv (created_at o)
  else if String.eqb column "branch"
  then escapeCsv (default (branch_id o) (names !! branch_id o))
  else if String.eqb column "payment_type" then escapeCsv (payment_type o)
  else if String.eqb column "order_total" then escapeCsv (money (total_amount o))
  else match l with
       | None => EmptyString
       | Some l =>
           if String.eqb column "item_name"
           then escapeCsv (default "Unknown" (menu_items l))
           else if String.eqb column "qty"
           then escapeCsv (Num.toStringInt toStringLarge (qty l))
           else escapeCsv (money (line_total l))
       end.

(** The fields of the rows one order contributes. *)
Definition orderRows (names : gmap string string)
    (byOrder : gmap string (list Line)) (o : Order) : list (list string) :=
  let ol := default [] (byOrder !! id o) in
  if (length ol =? 0)%nat
  then [(orderFields names o ++ [EmptyString; EmptyString; EmptyString])%list]
  else map (fun l => (orderFields names o ++ lineFields l)%list) ol.

(** The fields of the data rows, in the order they are pushed. *)
Definition dataRows (bs : list Owner.Branch) (orders : list Order)
    (lines : list Line) : list (list string) :=
  concat (map (orderRows (Owner.branchNameById bs) (linesByOrder lines))
              (sort newestFirst orders)).

Definition csvRows (bs : list Owner.Branch) (orders : list Order)
    (lines : list Line) : list string :=
  String.concat "," header
  :: map (String.concat ",") (dataRows bs orders lines).


End CsvExport.

End Dashboard.

(** ** The cashier page *)

Module Cashier.

Record MenuItem := {
  m_id : string;
  m_name : string;
  m_category : option string;
  m_price : float }.

Record CartLine := {
  id : string;
  name : string;
  price : float;
  qty : Z }.

Record State := {
  cart : list CartLine;
  payment : string;
  saving : bool;
  branchId : option string }.

Definition setCart (f : list CartLine -> list CartLine) (s : State) : State :=
  {| cart := f (cart s); payment := payment s; saving := saving s;
     branchId := branchId s |}.

Definition setSaving (v : bool) (s : State) : State :=
  {| cart := cart s; payment := payment s; saving := v;
     branchId := branchId s |}.

(** [total]: the sum of [price * qty] over the cart. *)
Definition total (c : list CartLine) : float :=
  fold_left (fun sum l => (sum + price l * Num.ofZ (qty l))%float) c 0%float.

Definition withQty (l : CartLine) (q : Z) : CartLine :=
  {| id := id l; name := name l; price := price l; qty := q |}.

(** [addToCart]: [findIndex], then replace at the index or append. *)
Definition addToCart (item : MenuItem) (prev : list CartLine) : list CartLine :=
  match list_find (fun l => id l = m_id item) prev with
  | Some (idx, l) => <[idx := withQty l (Num.addInt (qty l) 1)]> prev
  | None => prev ++ [{| id := m_id item; name := m_name item;
                        price := m_price item; qty := 1 |}]
  end.

Definition inc (i : string) (prev : list CartLine) : list CartLine :=
  map (fun l => if String.eqb (id l) i then withQty l (Num.addInt (qty l) 1) else l) prev.

Definition dec (i : string) (prev : list CartLine) : list CartLine :=
  filter (fun l => 0 < qty l)
    (map (fun l => if String.eqb (id l) i then withQty l (Num.addInt (qty l) (-1)) else l)
       prev).

Definition clear (prev : list CartLine) : list CartLine := [].

Definition orderLines (orderId : string) (c : list CartLine) : list LineInsert :=
  map (fun l => {| li_order_id := orderId;
                   li_menu_item_id := id l;
                   li_qty := qty l;
                   li_unit_price := Num.round2 (price l);
                   li_line_total := Num.round2 (price l * Num.ofZ (qty l)) |}) c.

Definition orderRow (s : State) (b userId : string) : OrderInsert :=
  {| oi_branch_id := b;
     oi_created_by := Some userId;
     oi_payment_type := payment s;
     oi_status := "NEW";
     oi_total_amount := Num.round2 (total (cart s));
     oi_replaces := None |}.

(** [e?.message || e.toString()] on an [Error]. *)
Definition errorText (m : string) : string :=
  if String.eqb m EmptyString then "Error" else m.

Local Open Scope act_scope.

Definition placeOrder (s : State) : act (S := State) unit :=
  if (length (cart s) =? 0)%nat then ret tt else
  match truthy (branchId s) with
  | None => call (alert "No branch assigned to this cashier.")
  | Some b =>
      set (setSaving true) ;;
      tryCatchFinally
        (user <~ call authGetUser ;;
         match user with
         | None => throw "Login required"
         | Some userId =>
             r <~ call (ordersInsert (orderRow s b userId)) ;;
             orderId <~ orThrow r ;;
             r2 <~ call (orderLinesInsert (orderLines orderId (cart s))) ;;
             orThrow r2 ;;
             call (alert "Order saved ✅") ;;
             set (setCart clear)
         end)
        (fun m => call (alert ("Failed to save order: " +:+ errorText m)))
        (set (setSaving false))
  end.

End Cashier.

(** ** The password-reset route ([POST /api/admin/reset-password]) *)

Module Route.

Definition lowerChar (c : ascii) : ascii :=
  let n := nat_of_ascii c in
  if ((65 <=? n) && (n <=? 90))%nat then ascii_of_nat (n + 32) else c.

(** [toLowerCase] on a header value, for its ASCII letters (no other
    character lowers to a letter of the word compared below). *)
Fixpoint toLowerCase (s : string) : string :=
  match s with
  | EmptyString => EmptyString
  | String a r => String (lowerChar a) (toLowerCase r)
  end.

(** [s.slice(n)] *)
Fixpoint slice (n : nat) (s : string) : string :=
  match n, s with
  | O, _ => s
  | S k, String _ r => slice k r
  | S _, EmptyString => EmptyString
  end.

(** White space among the code units of a header value. *)
Definition isWhiteSpace (c : ascii) : bool :=
  let n := nat_of_ascii c in
  ((9 <=? n) && (n <=? 13) || (n =? 32) || (n =? 160))%nat.

Fixpoint trimStart (s : string) : string :=
  match s with
  | String a r => if isWhiteSpace a then trimStart r else s
  | EmptyString => EmptyString
  end.

Definition trim (s : string) : string :=
  String.rev (trimStart (String.rev (trimStart s))).

Definition getBearer (authorization : option string) : option string :=
  let h := default EmptyString (truthy authorization) in
  if String.prefix "bearer " (toLowerCase h) then Some (trim (slice 7 h))
  else None.

(** A value [req.json()] can resolve to. *)
#[warnings="-register-all"] Inductive Json : Type :=
| JNull
| JBool (b : bool)
| JNumber (x : float)
| JString (s : text)
| JArray (items : list Json)
| JObject (fields : list (text * Json)).

(** An own property of a parsed object: of two fields with one key, the
    later one counts. *)
Fixpoint fieldOf (k : text) (fields : list (text * Json)) : option Json :=
  match fields with
  | [] => None
  | (k', v) :: r =>
      match fieldOf k r with
      | Some w => Some w
      | None => if bool_decide (k' = k) then Some v else None
      end
  end.

(** [body?.key] for the keys read below; [None] is [undefined].  Only an
    object has such a property: [null] is cut short by [?.], and strings,
    numbers, booleans and arrays have no property of these names. *)
Definition property (k : string) (body : Json) : option Json :=
  match body with
  | JObject fields => fieldOf (Text.ofString k) fields
  | _ => None
  end.

(** [!v] is false. *)
Definition truthyJson (v : option Json) : bool :=
  match v with
  | None | Some JNull => false
  | Some (JBool b) => b
  | Some (JNumber x) => negb (PrimFloat.is_nan x || PrimFloat.is_zero x)
  | Some (JString s) => negb (bool_decide (s = []))
  | Some (JArray _) | Some (JObject _) => true
  end.

(** [v === s] for a string literal. *)
Definition isString (s : string) (v : Json) : bool :=
  match v with
  | JString t => bool_decide (t = Text.ofString s)
  | _ => false
  end.

Record Request := {
  authorization : option string;
  json : outcome Json }.

Record Env := {
  NEXT_PUBLIC_SUPABASE_URL : option string;
  NEXT_PUBLIC_SUPABASE_ANON_KEY : option string }.

(** The services the handler awaits, each called at most once with the
    arguments shown.  [getUser]: the user id behind a token ([Ok None]: no
    user).  [profileRole]: the [role] of the caller's profile row
    ([Ok None]: no row).  [cashierUserId]: the [value] of the
    [cashier_user_id] setting.  [updateUserById]: the error of the
    password update, if any; the password is passed on as it was parsed. *)
Record Services := {
  getUser : string -> string -> string -> result (option string);
  profileRole : string -> result (option string);
  cashierUserId : result (option string);
  updateUserById : string -> Json -> option string }.

Inductive ResponseBody : Type :=
| ErrorBody (error : string)
| OkBody.

Record Response := { status : Z; body : ResponseBody }.

Definition fail (st : Z) (m : string) : Response :=
  {| status := st; body := ErrorBody m |}.

(** The last step: the password update on the resolved target. *)
Definition update (sv : Services) (targetUserId : string) (pw : Json) : Response :=
  match updateUserById sv targetUserId pw with
  | Some m => fail 400 m
  | None => {| status := 200; body := OkBody |}
  end.

Section BodyRules.

(** [ToNumber] on a string, an array or an object (the number its string
    form denotes); the grammar of numeric strings is not modelled and this
    stays a parameter. *)
Variable toNumberOfText : Json -> float.

Definition toNumber (v : Json) : float :=
  match v with
  | JNull => 0%float
  | JBool b => if b then 1%float else 0%float
  | JNumber x => x
  | _ => toNumberOfText v
  end.

(** [v.length < 8]: a string and an array have a length; a number and a
    boolean have none, and [undefined < 8] is false; an object has the
    [length] its JSON text gave it, if any. *)
Definition lengthBelow8 (v : Json) : bool :=
  match v with
  | JString s => (length s <? 8)%nat
  | JArray items => (length items <? 8)%nat
  | JObject fields =>
      match fieldOf (Text.ofString "length") fields with
      | Some w => (toNumber w <? 8)%float
      | None => false
      end
  | JNull | JBool _ | JNumber _ => false
  end.

Definition POST (req : Request) (env : Env) (sv : Services) : Response :=
  match truthy (getBearer (authorization req)) with
  | None => fail 401 "Missing auth token"
  | Some token =>
  match truthy (NEXT_PUBLIC_SUPABASE_URL env), truthy (NEXT_PUBLIC_SUPABASE_ANON_KEY env) with
  | Some url, Some anon =>
  match getUser sv url anon token with
  | Err _ | Ok None => fail 401 "Invalid session"
  | Ok (Some callerId) =>
  match profileRole sv callerId with
  | Err m => fail 500 m
  | Ok prof =>
  if negb (bool_decide (prof = Some "owner")) then fail 403 "Forbidden" else
  match json req with
  | Threw m => fail 500 m
  | Returned b =>
  let mode := property "mode" b in
  let newPassword := property "newPassword" b in
  match mode, newPassword with
  | Some md, Some pw =>
      if negb (truthyJson mode) || negb (truthyJson newPassword)
      then fail 400 "Missing mode or newPassword"
      else if lengthBelow8 pw
      then fail 400 "Password must be at least 8 characters"
      else if isString "cashier" md
      then match cashierUserId sv with
           | Err m => fail 500 m
           | Ok v =>
               match truthy v with
               | None => fail 500 "cashier_user_id not set in app_settings"
               | Some target => update sv target pw
               end
           end
      else update sv callerId pw
  | _, _ => fail 400 "Missing mode or newPassword"
  end end end end
  | _, _ => fail 500 "Missing public env vars"
  end end.

End BodyRules.

End Route.

(** ** A reference backend: two tables and scheduled failures *)

Module Backend.

Record OrderRow := {
  id : string;
  branch_id : string;
  created_by : option string;
  payment_type : string;
  status : option string;
  total_amount : float;
  replaces : option string;
  replaced_by : option string;
  voided_at : option string;
  voided_by : option string;
  void_reason : option text }.

Record LineRow := {
  order_id : string;
  menu_item_id : string;
  qty : Z;
  unit_price : float;
  line_total : float }.

Record Db := {
  orders : list OrderRow;
  order_lines : list LineRow;
  menu_names : gmap string string }.

(** The world of a run: the database, the failures scheduled for the next
    backend calls ([Some m]: the call fails with message [m] and changes
    nothing), the signed-in user, the clock and the answer to [confirm]. *)
Record World := {
  db : Db;
  faults : list (option string);
  session : option string;
  clock : string;
  accepts : bool }.

Definition withDb (w : World) (d : Db) : World :=
  {| db := d; faults := faults w; session := session w; clock := clock w;
     accepts := accepts w |}.

Definition popFault (w : World) : option string * World :=
  match faults w with
  | [] => (None, w)
  | f :: fs =>
      (f, {| db := db w; faults := fs; session := session w;
             clock := clock w; accepts := accepts w |})
  end.

Definition insertOrder (newId : string) (r : OrderInsert) (d : Db) : Db :=
  {| orders := orders d ++
       [{| id := newId; branch_id := oi_branch_id r;
           created_by := oi_created_by r; payment_type := oi_payment_type r;
           status := Some (oi_status r); total_amount := oi_total_amount r;
           replaces := oi_replaces r; replaced_by := None;
           voided_at := None; voided_by := None; void_reason := None |}];
     order_lines := order_lines d; menu_names := menu_names d |}.

Definition lineRow (l : LineInsert) : LineRow :=
  {| order_id := li_order_id l; menu_item_id := li_menu_item_id l;
     qty := li_qty l; unit_price := li_unit_price l;
     line_total := li_line_total l |}.

Definition insertLines (rows : list LineInsert) (d : Db) : Db :=
  {| orders := orders d; order_lines := order_lines d ++ map lineRow rows;
     menu_names := menu_names d |}.

Definition deleteLines (orderId : string) (d : Db) : Db :=
  {| orders := orders d;
     order_lines := filter (fun l => order_id l ≠ orderId) (order_lines d);
     menu_names := menu_names d |}.

(** A patch sets the columns it names. *)
Definition applyPatch (p : OrderPatch) (o : OrderRow) : OrderRow :=
  {| id := id o; branch_id := branch_id o; created_by := created_by o;
     payment_type := payment_type o;
     status := match op_status p with Some v => Some v | None => status o end;
     total_amount := default (total_amount o) (op_total_amount p);
     replaces := replaces o;
     replaced_by := match op_replaced_by p with Some v => Some v | None => replaced_by o end;
     voided_at := match op_voided_at p with Some v => Some v | None => voided_at o end;
     voided_by := match op_voided_by p with Some v => Some v | None => voided_by o end;
     void_reason := match op_void_reason p with Some v => Some v | None => void_reason o end |}.

Definition updateOrder (p : OrderPatch) (orderId : string) (d : Db) : Db :=
  {| orders := map (fun o => if String.eqb (id o) orderId then applyPatch p o else o) (orders d);
     order_lines := order_lines d; menu_names := menu_names d |}.

Definition linesOf (orderId : string) (d : Db) : list LineRow :=
  filter (fun l => order_id l = orderId) (order_lines d).

Definition readLine (d : Db) (l : LineRow) : OrderLineRead :=
  {| ol_menu_item_id := menu_item_id l; ol_qty := qty l;
     ol_unit_price := unit_price l; ol_line_total := line_total l;
     ol_menu_items := menu_names d !! menu_item_id l |}.

Definition readHeader (o : OrderRow) : OrderHeader :=
  {| oh_id := id o; oh_branch_id := branch_id o;
     oh_payment_type := payment_type o; oh_total_amount := total_amount o |}.

(** [single()]: exactly one row, or an error. *)
Definition selectSingle (orderId : string) (d : Db) : result OrderHeader :=
  match filter (fun o => id o = orderId) (orders d) with
  | [o] => Ok (readHeader o)
  | _ => Err "JSON object requested, multiple (or no) rows returned"
  end.

Definition totalOf (orderId : string) (d : Db) : list float :=
  map total_amount (filter (fun o => id o = orderId) (orders d)).

Section Handler.

(** The id the database gives a new order. *)
Variable genId : Db -> string.

(** A backend call: the scheduled failure, or the effect on the
    tables. *)
Definition perform {X} (w : World) (onFail : string -> X) (ok : X) (d : Db) : X * World :=
  match popFault w with
  | (Some m, w1) => (onFail m, w1)
  | (None, w1) => (ok, withDb w1 d)
  end.

Definition answer : handler World :=
  fun X (e : event X) (w : World) =>
    match e in event X return X * World with
    | confirm _ => (accepts w, w)
    | alert _ => (tt, w)
    | nowIso => (clock w, w)
    | authGetSession => (session w, w)
    | authGetUser => (session w, w)
    | refreshAll => (tt, w)
    | ordersSelectSingle i =>
        perform w Err (selectSingle i (db w)) (db w)
    | orderLinesSelect i =>
        perform w Err (Ok (Some (map (readLine (db w)) (linesOf i (db w))))) (db w)
    | ordersInsert r =>
        perform w Err (Ok (genId (db w))) (insertOrder (genId (db w)) r (db w))
    | orderLinesInsert rows =>
        perform w Err (Ok tt) (insertLines rows (db w))
    | orderLinesDelete i =>
        perform w Err (Ok tt) (deleteLines i (db w))
    | ordersUpdate p i =>
        perform w Err (Ok tt) (updateOrder p i (db w))
    end.

End Handler.

End Backend.


(** ** Notions the properties are stated with *)

(** A string without a dash. *)
Fixpoint noDash (s : string) : Prop :=
match s with
| EmptyString => True
| String a r => Ascii.eqb a "-" = false /\ noDash r
end.

(** Every line of the editor has a quantity of at least one. *)
Definition qtyPositive (ls : list Owner.ReplaceLine) : Prop :=
Forall (fun l => 1 <= Owner.qty l) ls.

(** The sum of the [line_total] of inserted lines, added up in order as
    [reduce] does. *)
Definition sumLineTotals (rows : list LineInsert) : float :=
fold_left (fun acc r => (acc + li_line_total r)%float) rows 0%float.

(** The tables after the three writes of a draft save: the lines of the
    order deleted, the payload inserted, the total updated. *)
Definition savedDb (newId : string) (ls : list Owner.ReplaceLine) (total : float)
  (d : Backend.Db) : Backend.Db :=
Backend.updateOrder
  {| op_total_amount := Some total; op_status := None; op_voided_at := None;
     op_voided_by := None; op_void_reason := None; op_replaced_by := None |}
  newId
  (Backend.insertLines (Owner.draftPayload newId ls) (Backend.deleteLines newId d)).

(** *** Sample data *)

Definition sampleGenId (d : Backend.Db) : string := "N1".

Definition sampleOrder (i : string) (st : string) (rep : option string)
  : Backend.OrderRow :=
{| Backend.id := i; Backend.branch_id := "B1"; Backend.created_by := Some "cashier-1";
   Backend.payment_type := "CASH"; Backend.status := Some st;
   Backend.total_amount := 60%float; Backend.replaces := rep;
   Backend.replaced_by := None; Backend.voided_at := None;
   Backend.voided_by := None; Backend.void_reason := None |}.

Definition sampleLine (o : string) : Backend.LineRow :=
{| Backend.order_id := o; Backend.menu_item_id := "X"; Backend.qty := 2;
   Backend.unit_price := 30%float; Backend.line_total := 60%float |}.

(** One paid order [O1] with a line of two [X] at 30. *)
Definition paidDb : Backend.Db :=
{| Backend.orders := [sampleOrder "O1" "NEW" None];
   Backend.order_lines := [sampleLine "O1"];
   Backend.menu_names := {["X" := "Item X"]} |}.

(** The same with the draft [N1] that replaces [O1], its line copied. *)
Definition draftDb : Backend.Db :=
{| Backend.orders := [sampleOrder "O1" "NEW" None; sampleOrder "N1" "DRAFT" (Some "O1")];
   Backend.order_lines := [sampleLine "O1"; sampleLine "N1"];
   Backend.menu_names := {["X" := "Item X"]} |}.

Definition sampleWorld (d : Backend.Db) (fs : list (option string)) : Backend.World :=
{| Backend.db := d; Backend.faults := fs; Backend.session := Some "owner-1";
   Backend.clock := "2024-03-01T04:00:00.000Z"; Backend.accepts := true |}.

(** The dashboard before any replacement is started. *)
Definition idleState : Owner.State :=
{| Owner.replaceMode := false; Owner.replaceOldId := None;
   Owner.replaceNewId := None; Owner.voidReason := [];
   Owner.replaceSaving := false; Owner.replaceLines := [];
   Owner.replaceBranchLabel := EmptyString; Owner.menuAll := [];
   Owner.branches := [] |}.

(** The editor on the draft [N1] of [O1]: the line [X] removed, one [Y]
    at 45 added, and a void reason typed. *)
Definition editingState (reason : string) : Owner.State :=
{| Owner.replaceMode := true; Owner.replaceOldId := Some "O1";
   Owner.replaceNewId := Some "N1"; Owner.voidReason := Text.ofString reason;
   Owner.replaceSaving := false;
   Owner.replaceLines :=
     [{| Owner.id := "Y"; Owner.menu_item_id := "Y"; Owner.name := "Item Y";
         Owner.unit_price := 45%float; Owner.qty := 1 |}];
   Owner.replaceBranchLabel := "B1"; Owner.menuAll := [];
   Owner.branches := [] |}.

(** A menu that lists [Y] at 45 and [Z] at 30. *)
Definition sampleMenu : list Owner.MenuEntry :=
[{| Owner.m_id := "Y"; Owner.m_name := "Item Y"; Owner.m_price := 45%float |};
 {| Owner.m_id := "Z"; Owner.m_name := "Item Z"; Owner.m_price := 30%float |}].

Definition emptyCartState : Cashier.State :=
{| Cashier.cart := []; Cashier.payment := "CASH"; Cashier.saving := false;
   Cashier.branchId := Some "B1" |}.

(** Two items at an eighth of a peso each. *)
Definition eighthsCart : Cashier.State :=
{| Cashier.cart := [ {| Cashier.id := "A"; Cashier.name := "Item A";
                        Cashier.price := 0.125%float; Cashier.qty := 1 |};
                     {| Cashier.id := "B"; Cashier.name := "Item B";
                        Cashier.price := 0.125%float; Cashier.qty := 1 |} ];
   Cashier.payment := "CASH"; Cashier.saving := false;
   Cashier.branchId := Some "B1" |}.

(** The scenario of the specification: A at 50 twice, B at 20 once. *)
Definition scenarioCart : Cashier.State :=
{| Cashier.cart := [ {| Cashier.id := "A"; Cashier.name := "Item A";
                        Cashier.price := 50%float; Cashier.qty := 2 |};
                     {| Cashier.id := "B"; Cashier.name := "Item B";
                        Cashier.price := 20%float; Cashier.qty := 1 |} ];
   Cashier.payment := "CASH"; Cashier.saving := false;
   Cashier.branchId := Some "B1" |}.

Definition sampleCsvOrder : Dashboard.Order :=
{| Dashboard.id := "O1"; Dashboard.branch_id := "B1";
   Dashboard.created_at := "2024-03-01T04:00:00+00:00";
   Dashboard.payment_type := "CASH"; Dashboard.total_amount := 60%float;
   Dashboard.status := Some "NEW" |}.

Definition sampleCsvLine : Dashboard.Line :=
{| Dashboard.order_id := "O1"; Dashboard.menu_item_id := "X"; Dashboard.qty := 2;
   Dashboard.line_total := 60%float; Dashboard.menu_items := Some "Item X" |}.

Definition sampleBranches : list Owner.Branch :=
[{| Owner.b_id := "B1"; Owner.b_name := "Main" |}].

(** A sort that leaves the array as it is: what every sort does to an array
    of one element. *)
Definition keepOrder (cmp : Dashboard.Order -> Dashboard.Order -> Z)
  (l : list Dashboard.Order) : list Dashboard.Order := l.

(** A stand-in for the exponent notation of very large amounts. *)
Definition noLargeAmounts (x : float) : string := "1e+21".


(** ** More of the pages: date presets, reports, and notions for their
    properties *)

(** *** The date presets of the dashboard (owner page) *)

Module Presets.

(** [s.padStart(n, "0")] *)
Definition padStart (n : nat) (s : string) : string :=
String.concat EmptyString (replicate (n - String.length s) "0") +:+ s.

(** [getUTCDay]: 0 is Sunday. *)
Definition WeekDay (t : Z) : Z := (Date.Day t + 4) mod 7.

(** The [YYYY-MM-DD] template on the UTC fields of a date object; an invalid
    date prints [NaN] for each. *)
Definition utcYMD (v : option Z) : string :=
match v ≫= Date.TimeClip with
| Some t =>
    Num.stringOfZ (Date.YearFromTime t) +:+ "-"
    +:+ padStart 2 (Num.stringOfZ (Date.MonthFromTime t + 1)) +:+ "-"
    +:+ padStart 2 (Num.stringOfZ (Date.DateFromTime t))
| None => "NaN-NaN-NaN"
end.

(** The instant the presets treat as Philippine wall-clock time, from
    [now.getTime()] and [now.getTimezoneOffset()] (minutes). *)
Definition phClock (now tzOffset : Z) : Z :=
let nowUtcMs := now + tzOffset * 60000 in
nowUtcMs + 8 * 60 * 60000.

Definition phTodayYMD (now tzOffset : Z) : string :=
utcYMD (Some (phClock now tzOffset)).

Definition phStartOfWeekYMD (now tzOffset : Z) : string :=
match Date.TimeClip (phClock now tzOffset) with
| Some ph =>
    let day := WeekDay ph in
    let mondayOffset := if day =? 0 then -6 else 1 - day in
    utcYMD (Date.UTC (Some (Date.YearFromTime ph)) (Some (Date.MonthFromTime ph))
              (Some (Date.DateFromTime ph + mondayOffset)))
| None => "NaN-NaN-NaN"
end.

(** [const [y, m] = today.split("-")]: a missing part prints as
    [undefined]. *)
Definition phStartOfMonthYMD (now tzOffset : Z) : string :=
let parts := Js.split "-" (phTodayYMD now tzOffset) in
default "undefined" (parts !! 0%nat) +:+ "-"
+:+ default "undefined" (parts !! 1%nat) +:+ "-01".

End Presets.

(** *** The reports of the dashboard (owner page) *)

Module Reports.

(** [Number(x || 0)] *)
Definition amount (x : float) : float := Num.orZero x.

Definition totalSales (orders : list Dashboard.Order) : float :=
fold_left (fun s o => (s + amount (Dashboard.total_amount o))%float) orders 0%float.

(** [paymentSplit]: the pair [(cash, gcash)]. *)
Definition paymentSplit (orders : list Dashboard.Order) : float * float :=
fold_left
  (fun acc o =>
     if String.eqb (Dashboard.payment_type o) "CASH"
     then ((fst acc + amount (Dashboard.total_amount o))%float, snd acc)
     else if String.eqb (Dashboard.payment_type o) "GCASH"
     then (fst acc, (snd acc + amount (Dashboard.total_amount o))%float)
     else acc)
  orders (0%float, 0%float).

(** A [Map] keeps its keys in insertion order: [set] on a key that is
    present replaces the value in place, on a new key it appends. *)
Fixpoint mapSet {V} (k : string) (v : V) (m : list (string * V)) : list (string * V) :=
match m with
| [] => [(k, v)]
| (k', v') :: r => if String.eqb k' k then (k, v) :: r else (k', v') :: mapSet k v r
end.

Fixpoint mapGet {V} (k : string) (m : list (string * V)) : option V :=
match m with
| [] => None
| (k', v') :: r => if String.eqb k' k then Some v' else mapGet k r
end.

(** The [Map] of [salesByBranch] before it is turned into sorted rows:
    per branch, the total and the number of its orders. *)
Definition branchStats (orders : list Dashboard.Order) : list (string * (float * Z)) :=
fold_left
  (fun m o =>
     let cur := default (0%float, 0) (mapGet (Dashboard.branch_id o) m) in
     mapSet (Dashboard.branch_id o)
       ((fst cur + amount (Dashboard.total_amount o))%float, snd cur + 1) m)
  orders [].

Record BranchRow := {
  br_branch_id : string;
  br_total : float;
  br_count : Z;
  br_name : string }.

Section Sorted.

(** [Array.prototype.sort] on the rows, a parameter as for the export. *)
Variable sort : (BranchRow -> BranchRow -> float) -> list BranchRow -> list BranchRow.

Definition salesByBranch (bs : list Owner.Branch) (orders : list Dashboard.Order)
  : list BranchRow :=
sort (fun a b => (br_total b - br_total a)%float)
  (map (fun e => {| br_branch_id := fst e; br_total := fst (snd e);
                    br_count := snd (snd e);
                    br_name := default (fst e) (Owner.branchNameById bs !! fst e) |})
       (branchStats orders)).

End Sorted.

(** One row of [topItems]. *)
Record ItemRow := {
  it_name : string;
  it_qty : Z;
  it_amount : float }.

(** The [Map] of [topItems] before it is turned into sorted rows: per menu
    item, the name its first line carries, and the quantity and the amount
    of its lines. *)
Definition itemStats (lines : list Dashboard.Line) : list (string * ItemRow) :=
fold_left
  (fun m l =>
     let name := default "Unknown" (Dashboard.menu_items l) in
     let key := Dashboard.menu_item_id l in
     let cur := default {| it_name := name; it_qty := 0; it_amount := 0%float |}
                  (mapGet key m) in
     mapSet key
       {| it_name := it_name cur;
          it_qty := Num.addInt (it_qty cur) (Dashboard.qty l);
          it_amount := (it_amount cur + amount (Dashboard.line_total l))%float |} m)
  lines [].

Section SortedItems.

Variable sort : (ItemRow -> ItemRow -> float) -> list ItemRow -> list ItemRow.

(** [topItems]: the ten rows the sort puts first. *)
Definition topItems (lines : list Dashboard.Line) : list ItemRow :=
take 10 (sort (fun a b => (it_amount b - it_amount a)%float) (map snd (itemStats lines))).

End SortedItems.

(** The quantity and the amount of some lines, added up in their order. *)
Definition linesQty (ls : list Dashboard.Line) : Z :=
fold_left (fun s l => Num.addInt s (Dashboard.qty l)) ls 0.

Definition linesAmount (ls : list Dashboard.Line) : float :=
fold_left (fun s l => (s + amount (Dashboard.line_total l))%float) ls 0%float.

End Reports.

(** *** Notions for the properties of these and of the runs *)

(** The calls of a run made after its first failed backend call. *)
Fixpoint afterFirstFailure (tr : list entry) : list entry :=
match tr with
| [] => []
| en :: r => if entryFailed en then r else afterFirstFailure r
end.

(** The run made no backend call after a backend call failed. *)
Definition stopsAtFailure (tr : list entry) : Prop :=
filter entryIsBackend (afterFirstFailure tr) = [].

(** An update that sets the status [VOIDED]. *)
Definition entryIsVoidUpdate (en : entry) : bool :=
match en with
| Entry (ordersUpdate p _) _ => bool_decide (op_status p = Some "VOIDED")
| _ => false
end.

(** An update that set the status [PAID] and succeeded. *)
Definition entryIsPaidOk (en : entry) : bool :=
match en with
| Entry e x =>
    match e in event X return X -> bool with
    | ordersUpdate p _ => fun r => bool_decide (op_status p = Some "PAID") && negb (isErr r)
    | _ => fun _ => false
    end x
end.

(** An update that set the status [VOIDED] and succeeded. *)
Definition entryIsVoidOk (en : entry) : bool :=
match en with
| Entry e x =>
    match e in event X return X -> bool with
    | ordersUpdate p _ => fun r => bool_decide (op_status p = Some "VOIDED") && negb (isErr r)
    | _ => fun _ => false
    end x
end.

(** The tables after a finalized replacement: the draft saved, the new
    order paid, the old order voided. *)
Definition finalizedDb (oldId newId : string) (ls : list Owner.ReplaceLine)
  (total : float) (now ownerId : string) (reason : text) (d : Backend.Db) : Backend.Db :=
Backend.updateOrder (Owner.voidPatch now ownerId reason newId) oldId
  (Backend.updateOrder Owner.paidPatch newId (savedDb newId ls total d)).

(** A reader of CSV text (RFC 4180, with the line breaks readers accept):
    outside quotes a comma ends a field and a line feed, a carriage return,
    or the two in a row end a record; a quote opens a quoted field at the
    start of a field only; inside a quoted field a doubled quote is a quote
    and every other character is data.  The end of the text ends the last
    record. *)
Inductive csvState : Type := FieldStart | Unquoted | Quoted | QuoteSeen | AfterCR.

Definition crChar : ascii := "013"%char.

Definition atFieldStart (st : csvState) : bool :=
match st with FieldStart | AfterCR => true | _ => false end.

Definition isQuoted (st : csvState) : bool :=
match st with Quoted => true | _ => false end.

Definition isQuoteSeen (st : csvState) : bool :=
match st with QuoteSeen => true | _ => false end.

Definition isAfterCR (st : csvState) : bool :=
match st with AfterCR => true | _ => false end.

(** [cur] is the field being read and [row] the fields of the record read
    before it. *)
Fixpoint readFrom (st : csvState) (cur : string) (row : list string) (s : string)
  : list (list string) :=
match s with
| EmptyString => [(row ++ [cur])%list]
| String c r =>
    let put := cur +:+ String c EmptyString in
    if isQuoted st
    then if Ascii.eqb c Dashboard.quoteChar then readFrom QuoteSeen cur row r
         else readFrom Quoted put row r
    else if Ascii.eqb c Dashboard.quoteChar && atFieldStart st
    then readFrom Quoted cur row r
    else if Ascii.eqb c Dashboard.quoteChar && isQuoteSeen st
    then readFrom Quoted put row r
    else if Ascii.eqb c ","
    then readFrom FieldStart EmptyString (row ++ [cur])%list r
    else if Ascii.eqb c Dashboard.newlineChar
    then if isAfterCR st then readFrom FieldStart EmptyString [] r
         else (row ++ [cur])%list :: readFrom FieldStart EmptyString [] r
    else if Ascii.eqb c crChar
    then (row ++ [cur])%list :: readFrom AfterCR EmptyString [] r
    else readFrom Unquoted put row r
end.

Definition readCsv (s : string) : list (list string) :=
readFrom FieldStart EmptyString [] s.

(** The reader is between fields or in an unquoted one. *)
Definition outsideQuotes (st : csvState) : bool := negb (isQuoted st) && negb (isAfterCR st).

(** A character that is no quote, comma, line feed or carriage return. *)
Definition plainChar (c : ascii) : bool :=
negb (Ascii.eqb c Dashboard.quoteChar || Ascii.eqb c "," || Ascii.eqb c Dashboard.newlineChar
      || Ascii.eqb c crChar).

(** The text of one row: its fields through [escapeCsv], joined by
    commas. *)
Definition rowText (fs : list string) : string :=
String.concat "," (map Dashboard.escapeCsv fs).

(** The text [exportCsv] makes of rows of values: each value through
    [escapeCsv], the fields of a row joined by commas, the rows by line
    feeds. *)
Definition csvText (rows : list (list string)) : string :=
String.concat (String Dashboard.newlineChar EmptyString)
  (map (fun row => String.concat "," (map Dashboard.escapeCsv row)) rows).

(** A field [escapeCsv] leaves with a carriage return outside quotes: it
    holds one, and no quote, comma or line feed. *)
Definition bareCR (f : string) : bool :=
Dashboard.includes crChar f
&& negb (Dashboard.includes Dashboard.quoteChar f || Dashboard.includes "," f
         || Dashboard.includes Dashboard.newlineChar f).

(** The values of a data row before [escapeCsv]. *)
Definition rowValues (toStringLarge : float -> string) (names : gmap string string)
  (o : Dashboard.Order) (l : option Dashboard.Line) : list string :=
[Dashboard.id o; Dashboard.created_at o;
 default (Dashboard.branch_id o) (names !! Dashboard.branch_id o);
 Dashboard.payment_type o;
 Dashboard.money toStringLarge (Dashboard.total_amount o)]
++ match l with
   | None => [EmptyString; EmptyString; EmptyString]
   | Some l =>
       [default "Unknown" (Dashboard.menu_items l);
        Num.toStringInt toStringLarge (Dashboard.qty l);
        Dashboard.money toStringLarge (Dashboard.line_total l)]
   end.


(** All the characters of a text are white space. *)
Definition allWhiteSpace (s : text) : Prop := Forall (fun c => Text.isWhiteSpace c = true) s.

(** Every cart line has a quantity of at least one, and no two lines share
    an item. *)
Definition cartOk (c : list Cashier.CartLine) : Prop :=
Forall (fun l => 1 <= Cashier.qty l) c /\ NoDup (map Cashier.id c).

(** ** Numbers as reals

    The sums of [placeOrder] are sums of binary64 numbers; the checks of
    its totals compare them with the exact amounts, as real numbers. *)

(** The state of [shr] after [k] one-bit shifts of the mantissa [m]: the
    bits shifted out are [rem], and the round and sticky bits say how [rem]
    compares with half a unit. *)
Definition shrInv (m k : Z) (rs : shr_record) : Prop :=
0 <= shr_m rs
/\ exists rem, m = shr_m rs * 2 ^ k + rem /\ 0 <= rem < 2 ^ k
     /\ shr_r rs = (2 ^ k <=? 2 * rem)
     /\ shr_s rs = negb (rem =? 0) && negb (2 * rem =? 2 ^ k).

Definition pow2 (e : Z) : R := powerRZ 2 e.

(** The value of a mantissa and an exponent. *)
Definition F2R (m e : Z) : R := (IZR m * pow2 e)%R.

(** [x] is a positive normal number (a mantissa of 53 bits) of value
    [v]. *)
Definition Normal (x : float) (v : R) : Prop :=
exists m e, Prim2SF x = S754_finite false m e /\ Zpos (digits2_pos m) = 53
            /\ v = F2R (Zpos m) e.

(** The unit roundoff of binary64. *)
Definition roundoff : R := pow2 (-53).

(** A positive normal number of value [v], at least 1/128. *)
Definition Amount (x : float) (v : R) : Prop := Normal x v /\ (/ 128 <= v)%R.

(** A number that is [+0] or such an amount. *)
Definition Val (x : float) (v : R) : Prop :=
(Prim2SF x = S754_zero false /\ v = 0%R) \/ Amount x v.

(** The amount of [n] hundredths. *)
Definition amountOf (n : Z) : R := (IZR n / 100)%R.

(** [v] is within [k] unit roundoffs of [t], relatively. *)
Definition near (k : R) (v t : R) : Prop :=
(- (k * roundoff * t) <= v - t <= k * roundoff * t)%R.

(** The hundredths of a list of terms. *)
Definition sumOf {A : Type} (n : A -> Z) (l : list A) : Z :=
fold_right (fun a s => n a + s) 0 l.

(** The total of a cart in hundredths, for prices given in hundredths. *)
Definition centsTotal (cents : Cashier.CartLine -> Z) (c : list Cashier.CartLine) : Z :=
sumOf (fun l => cents l * Cashier.qty l) c.

(** Every price of the cart is the number of a whole amount of hundredths
    (what [Number] reads from an amount written with two decimals), and
    every quantity is at least one and below [2^53]. *)
Definition twoDecimalCart (cents : Cashier.CartLine -> Z) (c : list Cashier.CartLine) : Prop :=
Forall (fun l => 0 <= cents l /\ Cashier.price l = Num.ofHundredths (cents l)
                 /\ 1 <= Cashier.qty l < 2 ^ 53) c.

(** Every character of a header value is white space. *)
Fixpoint blank (s : string) : Prop :=
match s with
| EmptyString => True
| String a r => Route.isWhiteSpace a = true /\ blank r
end.

(** A text that neither starts nor ends with white space. *)
Definition trimmed (s : text) : Prop :=
(forall c, head s = Some c -> Text.isWhiteSpace c = false)
/\ (forall c, last s = Some c -> Text.isWhiteSpace c = false).

(** No two lines of the editor are for the same menu item. *)
Definition itemsDistinct (ls : list Owner.ReplaceLine) : Prop :=
NoDup (map Owner.menu_item_id ls).

(** *** More sample data *)

(** The item [A] of the scenario cart, as the menu lists it. *)
Definition sampleMenuItem : Cashier.MenuItem :=
{| Cashier.m_id := "A"; Cashier.m_name := "Item A"; Cashier.m_category := None;
   Cashier.m_price := 50%float |}.

(** A sort of the report rows that leaves them as they are. *)
Definition keepRows (cmp : Reports.BranchRow -> Reports.BranchRow -> float)
  (l : list Reports.BranchRow) : list Reports.BranchRow := l.

(** A sort of the item rows that leaves them as they are. *)
Definition keepItems (cmp : Reports.ItemRow -> Reports.ItemRow -> float)
  (l : list Reports.ItemRow) : list Reports.ItemRow := l.

(** The body of a request: an object with a mode and a password. *)
Definition sampleBody (mode : string) (password : Route.Json) : Route.Json :=
Route.JObject [(Text.ofString "mode", Route.JString (Text.ofString mode));
               (Text.ofString "newPassword", password)].

(** A request for a new cashier password. *)
Definition sampleRequest (header : option string) : Route.Request :=
{| Route.authorization := header;
   Route.json := Returned (sampleBody "cashier"
                             (Route.JString (Text.ofString "correct horse"))) |}.

Definition requestWith (body : outcome Route.Json) : Route.Request :=
{| Route.authorization := Some "Bearer token-1"; Route.json := body |}.

Definition sampleEnv : Route.Env :=
{| Route.NEXT_PUBLIC_SUPABASE_URL := Some "https://db.example";
   Route.NEXT_PUBLIC_SUPABASE_ANON_KEY := Some "anon" |}.

(** Services that know the token [token-1] of one user, whose profile has
    the given role, and a cashier account; the update answers as given. *)
Definition servicesWith (role : string) (updateError : option string) : Route.Services :=
{| Route.getUser := fun _ _ token =>
     if String.eqb token "token-1" then Ok (Some "owner-1") else Ok None;
   Route.profileRole := fun _ => Ok (Some role);
   Route.cashierUserId := Ok (Some "cashier-1");
   Route.updateUserById := fun _ _ => updateError |}.

Definition sampleServices : Route.Services := servicesWith "owner" None.

(** [ToNumber] of strings, arrays and objects is not needed for the sample
    bodies; a stand-in. *)
Definition noNumber (v : Route.Json) : float := PrimFloat.nan.

(** The instant 2024-03-01T04:00:00Z, a Friday noon on the UTC+8 clock. *)
Definition sampleNow : Z := 1709265600000.

(** A cart of two-decimal prices: seven [A] at 19.99, three [B] at 0.10 and
    three [C] at 49.95, each price the number read from these digits. *)
Definition centavoCart : Cashier.State :=
{| Cashier.cart := [ {| Cashier.id := "A"; Cashier.name := "Item A";
                        Cashier.price := Num.ofHundredths 1999; Cashier.qty := 7 |};
                     {| Cashier.id := "B"; Cashier.name := "Item B";
                        Cashier.price := Num.ofHundredths 10; Cashier.qty := 3 |};
                     {| Cashier.id := "C"; Cashier.name := "Item C";
                        Cashier.price := Num.ofHundredths 4995; Cashier.qty := 3 |} ];
   Cashier.payment := "CASH"; Cashier.saving := false;
   Cashier.branchId := Some "B1" |}.

(** The prices of that cart in hundredths. *)
Definition centavoPrices (l : Cashier.CartLine) : Z :=
if String.eqb (Cashier.id l) "A" then 1999
else if String.eqb (Cashier.id l) "B" then 10 else 4995.


(** * Properties *)

(** ** Tactics for runs *)

(** Case on the answer the environment gives to the next call. *)
Ltac answer_call :=
  match goal with
  | |- context [?h unit ?e ?w] =>
      lazymatch type of h with handler _ =>
        let u := fresh "u" in let w' := fresh "w" in
        destruct (h unit e w) as [u w'] eqn:?; destruct u
      end
  | |- context [?h bool ?e ?w] =>
      lazymatch type of h with handler _ =>
        let b := fresh "b" in let w' := fresh "w" in
        destruct (h bool e w) as [b w'] eqn:?; destruct b
      end
  | |- context [?h (result ?A) ?e ?w] =>
      lazymatch type of h with handler _ =>
        let w' := fresh "w" in
        destruct (h (result A) e w) as [[?d|?m] w'] eqn:?
      end
  | |- context [?h ?X ?e ?w] =>
      lazymatch type of h with handler _ =>
        let x := fresh "x" in let w' := fresh "w" in
        destruct (h X e w) as [x w'] eqn:?
      end
  end.

(** Unfold the monad of a handler, and nothing of its data. *)
Ltac run_simpl :=
  cbn [run pbind bind call set ret throw orThrow tryCatchFinally fst snd negb].

(** A run that ended: name its parts. *)
Ltac ended := intros ? ? ? ? [= <- <- <- <-].

(** ** Strings and lists *)

Lemma append_nil_l (b : string) : EmptyString +:+ b = b.
Proof. reflexivity. Qed.

Lemma append_cons (c : ascii) (a b : string) : String c a +:+ b = String c (a +:+ b).
Proof. reflexivity. Qed.

Lemma append_nil_r (a : string) : a +:+ EmptyString = a.
Proof. induction a as [|c a IH]; [done|]. by rewrite append_cons, IH. Qed.

Lemma append_assoc (a b c : string) : (a +:+ b) +:+ c = a +:+ (b +:+ c).
Proof. induction a as [|x a IH]; [done|]. by rewrite !append_cons, IH. Qed.

Lemma Forall_filter_keeps {A} (Q : A -> Prop) (P : A -> Prop)
    `{forall x, Decision (P x)} (l : list A) :
  Forall Q l -> Forall Q (filter P l).
Proof.
  induction 1 as [|x l Hx Hl IH]; [constructor|].
  rewrite filter_cons. destruct (decide (P x)); [by constructor|done].
Qed.

Lemma filter_filter_same {A} (P : A -> Prop) `{forall x, Decision (P x)} (l : list A) :
  filter P (filter P l) = filter P l.
Proof.
  induction l as [|x l IH]; [done|]. rewrite filter_cons.
  destruct (decide (P x)); [|done]. rewrite filter_cons.
  destruct (decide (P x)); [|done]. by rewrite IH.
Qed.

Lemma float_neq (a b : float) : Prim2SF a <> Prim2SF b -> a <> b.
Proof. intros H ->. by apply H. Qed.

(** ** The void-and-replace editor *)

(** C1.  A call of [finalizeReplacement] from the replacement editor (the
    page offers it only there, where both order ids are set) with a trimmed
    void reason shorter than 3 code units, or with no replacement line, only
    shows one of the two validation messages: the run is that single
    [alert], so no backend call is made, and the editor state is
    unchanged. *)
Theorem finalizeReplacement_validation W (h : handler W) (w : W) (s : Owner.State)
    (oldId newId : string) :
  truthy (Owner.replaceOldId s) = Some oldId ->
  truthy (Owner.replaceNewId s) = Some newId ->
  (length (Text.trim (Owner.voidReason s)) < 3)%nat \/ Owner.replaceLines s = [] ->
  exists msg w',
    run h (Owner.finalizeReplacement s s) w = (Returned tt, s, w', [Entry (alert msg) tt])
    /\ writes [Entry (alert msg) tt] = []
    /\ (msg = "Please enter a void reason (at least 3 characters)."
        \/ msg = "Replacement cannot be empty. Add at least 1 item.").
Proof.
  intros Ho Hn Hbad. unfold Owner.finalizeReplacement. rewrite Ho, Hn.
  destruct (Nat.ltb_spec (length (Text.trim (Owner.voidReason s))) 3) as [Hlt|Hge].
  - run_simpl. answer_call. eauto 6.
  - destruct Hbad as [Hlt|Hempty]; [lia|]. rewrite Hempty. run_simpl.
    cbn [length Nat.eqb]. run_simpl. answer_call. eauto 6.
Qed.

(** C1, witness: the editor on draft [N1] with the reason "ab". *)
Lemma finalizeReplacement_validation_witness :
  exists msg w',
    run (Backend.answer sampleGenId)
        (Owner.finalizeReplacement (editingState "ab") (editingState "ab"))
        (sampleWorld draftDb [])
    = (Returned tt, editingState "ab", w', [Entry (alert msg) tt])
    /\ writes [Entry (alert msg) tt] = []
    /\ (msg = "Please enter a void reason (at least 3 characters)."
        \/ msg = "Replacement cannot be empty. Add at least 1 item.").
Proof.
  apply (finalizeReplacement_validation _ (Backend.answer sampleGenId)
           (sampleWorld draftDb []) (editingState "ab") "O1" "N1");
    [reflexivity | reflexivity | left; vm_compute; lia].
Defined.

(** C2 (code defect).  On the reference backend, with the delete of the
    draft save succeeding and its insert failing: [saveReplacementDraft]
    shows the error itself and returns, so [finalizeReplacement] goes on,
    sends both status updates and reports success.  The new order ends
    [PAID] with no line and the old one [VOIDED]. *)
Theorem finalizeReplacement_continues_after_failed_save :
  let '(r, st, w', tr) :=
    run (Backend.answer sampleGenId)
        (Owner.finalizeReplacement (editingState "wrong item") (editingState "wrong item"))
        (sampleWorld draftDb [None; Some "insert failed"]) in
  r = Returned tt
  /\ alerts tr = ["insert failed"; "✅ Replacement finalized."]
  /\ writes tr
     = [Entry (orderLinesDelete "N1") (Ok tt);
        Entry (orderLinesInsert (Owner.draftPayload "N1" (Owner.replaceLines (editingState "wrong item"))))
              (Err "insert failed");
        Entry (ordersUpdate Owner.paidPatch "N1") (Ok tt);
        Entry (ordersUpdate
                 (Owner.voidPatch "2024-03-01T04:00:00.000Z" "owner-1"
                    (Text.ofString "wrong item") "N1") "O1") (Ok tt)]
  /\ Backend.linesOf "N1" (Backend.db w') = []
  /\ map (fun o => (Backend.id o, Backend.status o)) (Backend.orders (Backend.db w'))
     = [("O1", Some "VOIDED"); ("N1", Some "PAID")]
  /\ Owner.replaceMode st = false.
Proof. vm_compute. repeat split. Qed.

(** C3.  A run of [startVoidAndReplace] that the user confirmed and that
    showed no error made exactly these calls: the read of the old order, the
    read of its lines, the insert of a new order carrying the old order's
    branch, payment type and total with status [DRAFT] and [replaces] set to
    the old id, and (when there are lines) one insert of the old lines
    copied field by field onto the new id.  The editor then holds the same
    lines. *)
Theorem startVoidAndReplace_copies W (h : handler W) (w : W) (s : Owner.State)
    (oldId : string) r st w' tr :
  run h (Owner.startVoidAndReplace s oldId s) w = (r, st, w', tr) ->
  alerts tr = [] ->
  confirms tr = [true] ->
  exists old lines newId,
    tr = ([Entry (confirm "Start VOID + REPLACE for this order?") true;
           Entry (ordersSelectSingle oldId) (Ok old);
           Entry (orderLinesSelect oldId) (Ok lines);
           Entry (ordersInsert
                    {| oi_branch_id := oh_branch_id old; oi_created_by := None;
                       oi_payment_type := oh_payment_type old; oi_status := "DRAFT";
                       oi_total_amount := oh_total_amount old;
                       oi_replaces := Some oldId |}) (Ok newId)]
          ++ match default [] lines with
             | [] => []
             | ls =>
                 [Entry (orderLinesInsert
                           (map (fun l => {| li_order_id := newId;
                                             li_menu_item_id := ol_menu_item_id l;
                                             li_qty := ol_qty l;
                                             li_unit_price := ol_unit_price l;
                                             li_line_total := ol_line_total l |}) ls))
                        (Ok tt)]
             end)%list
    /\ Owner.replaceMode st = true
    /\ Owner.replaceOldId st = Some oldId
    /\ Owner.replaceNewId st = Some newId
    /\ map (fun l => (Owner.menu_item_id l, Owner.qty l, Owner.unit_price l))
           (Owner.replaceLines st)
       = map (fun l => (ol_menu_item_id l, ol_qty l, ol_unit_price l)) (default [] lines).
Proof.
  unfold Owner.startVoidAndReplace. revert r st w' tr.
  run_simpl. answer_call; run_simpl.
  2:{ ended. intros _ [=]. }
  answer_call; run_simpl.
  2:{ answer_call. ended. intros [=]. }
  answer_call; run_simpl.
  2:{ answer_call. ended. intros [=]. }
  answer_call; run_simpl.
  2:{ answer_call. ended. intros [=]. }
  destruct (default [] d0) as [|l ls] eqn:Hls; cbn [map length Nat.ltb Nat.leb]; run_simpl.
  - ended. intros _ _. exists d, d0, d1. rewrite Hls. cbn. auto.
  - answer_call; run_simpl.
    + destruct d2. ended. intros _ _. exists d, d0, d1. rewrite Hls.
      split; [reflexivity|]. do 3 (split; [reflexivity|]).
      cbn [Owner.replaceLines Owner.setReplaceSaving Owner.setReplaceBranchLabel
             Owner.setVoidReason Owner.setReplaceLines map].
      f_equal. rewrite map_map. reflexivity.
    + answer_call. ended. intros [=].
Qed.

(** C3, witness: the copy of order [O1] on the reference backend. *)
Lemma startVoidAndReplace_copies_witness :
  exists old lines newId,
    snd (run (Backend.answer sampleGenId) (Owner.startVoidAndReplace idleState "O1" idleState)
           (sampleWorld paidDb []))
    = ([Entry (confirm "Start VOID + REPLACE for this order?") true;
        Entry (ordersSelectSingle "O1") (Ok old);
        Entry (orderLinesSelect "O1") (Ok lines);
        Entry (ordersInsert
                 {| oi_branch_id := oh_branch_id old; oi_created_by := None;
                    oi_payment_type := oh_payment_type old; oi_status := "DRAFT";
                    oi_total_amount := oh_total_amount old;
                    oi_replaces := Some "O1" |}) (Ok newId)]
       ++ match default [] lines with
          | [] => []
          | ls =>
              [Entry (orderLinesInsert
                        (map (fun l => {| li_order_id := newId;
                                          li_menu_item_id := ol_menu_item_id l;
                                          li_qty := ol_qty l;
                                          li_unit_price := ol_unit_price l;
                                          li_line_total := ol_line_total l |}) ls))
                     (Ok tt)]
          end)%list.
Proof.
  pose (R := run (Backend.answer sampleGenId)
               (Owner.startVoidAndReplace idleState "O1" idleState)
               (sampleWorld paidDb [])).
  destruct (startVoidAndReplace_copies _ (Backend.answer sampleGenId)
              (sampleWorld paidDb []) idleState "O1"
              (fst (fst (fst R))) (snd (fst (fst R))) (snd (fst R)) (snd R))
    as (old & lines & newId & Htr & _);
    [reflexivity | reflexivity | reflexivity |].
  exists old, lines, newId. exact Htr.
Defined.

(** ** The draft save on the reference backend *)

Section ReferenceBackend.

Variable genId : Backend.Db -> string.

(** A backend call either fails as scheduled and leaves the tables, or
    succeeds with its effect. *)
Lemma perform_cases {X} (w : Backend.World) (onFail : string -> X) (ok : X)
    (d : Backend.Db) :
  (exists m w', Backend.perform w onFail ok d = (onFail m, w')
                /\ Backend.db w' = Backend.db w)
  \/ (exists w', Backend.perform w onFail ok d = (ok, w') /\ Backend.db w' = d).
Proof.
  unfold Backend.perform, Backend.popFault.
  destruct (Backend.faults w) as [|[m|] fs]; cbn; eauto.
Qed.

Lemma filter_lines_payload (newId : string) (ls : list Owner.ReplaceLine) :
  filter (fun l => Backend.order_id l = newId)
    (map Backend.lineRow (Owner.draftPayload newId ls))
  = map Backend.lineRow (Owner.draftPayload newId ls).
Proof.
  unfold Owner.draftPayload.
  induction ls as [|l ls IH]; [done|]. cbn [map]. rewrite filter_cons.
  destruct (decide _) as [_|Hne]; [by rewrite IH|]. by destruct Hne.
Qed.

Lemma filter_out_lines_payload (newId : string) (ls : list Owner.ReplaceLine) :
  filter (fun l => Backend.order_id l ≠ newId)
    (map Backend.lineRow (Owner.draftPayload newId ls)) = [].
Proof.
  unfold Owner.draftPayload.
  induction ls as [|l ls IH]; [done|]. cbn [map]. rewrite filter_cons.
  destruct (decide _) as [Hne|_]; [by destruct Hne|]. by rewrite IH.
Qed.

Lemma filter_in_of_out (newId : string) (l : list Backend.LineRow) :
  filter (fun l => Backend.order_id l = newId)
    (filter (fun l => Backend.order_id l ≠ newId) l) = [].
Proof.
  induction l as [|x l IH]; [done|]. rewrite filter_cons.
  destruct (decide (Backend.order_id x ≠ newId)); [|done].
  rewrite filter_cons. destruct (decide (Backend.order_id x = newId)); done.
Qed.

(** A draft save that met no backend failure leaves the tables as the three
    writes make them. *)
Lemma save_draft_ok (w : Backend.World) (s st : Owner.State) newId r st' w' tr :
  truthy (Owner.replaceNewId s) = Some newId ->
  run (Backend.answer genId) (Owner.saveReplacementDraft s st) w = (r, st', w', tr) ->
  failures tr = [] ->
  Backend.db w' = savedDb newId (Owner.replaceLines s) (Owner.replaceTotal s) (Backend.db w).
Proof.
  intros Hn. unfold Owner.saveReplacementDraft. rewrite Hn. run_simpl.
  cbn [Backend.answer].
  destruct (perform_cases w Err (Ok ()) (Backend.deleteLines newId (Backend.db w)))
    as [(m & w1 & -> & Hd1)|(w1 & -> & Hd1)]; run_simpl.
  { cbn. intros [= <- <- <- <-] [=]. }
  unfold savedDb.
  destruct (Owner.replaceLines s) as [|l ls] eqn:Hls.
  - cbn [Owner.draftPayload map length Nat.ltb Nat.leb]. run_simpl. cbn [Backend.answer].
    destruct (perform_cases w1 Err (Ok ())
                (Backend.updateOrder
                   {| op_total_amount := Some (Owner.replaceTotal s);
                      op_status := None; op_voided_at := None; op_voided_by := None;
                      op_void_reason := None; op_replaced_by := None |} newId
                   (Backend.db w1)))
      as [(m & w2 & -> & Hd2)|(w2 & -> & Hd2)]; run_simpl.
    { cbn. intros [= <- <- <- <-] [=]. }
    intros [= <- <- <- <-] _. rewrite Hd2, Hd1. unfold Backend.insertLines. cbn.
    rewrite app_nil_r. reflexivity.
  - rewrite <- Hls.
    replace (0 <? length (Owner.draftPayload newId (Owner.replaceLines s)))%nat with true
      by (rewrite Hls; reflexivity).
    run_simpl. cbn [Backend.answer].
    destruct (perform_cases w1 Err (Ok ())
                (Backend.insertLines (Owner.draftPayload newId (Owner.replaceLines s))
                   (Backend.db w1)))
      as [(m & w2 & -> & Hd2)|(w2 & -> & Hd2)]; run_simpl.
    { cbn. intros [= <- <- <- <-] [=]. }
    cbn [Backend.answer].
    destruct (perform_cases w2 Err (Ok ())
                (Backend.updateOrder
                   {| op_total_amount := Some (Owner.replaceTotal s);
                      op_status := None; op_voided_at := None; op_voided_by := None;
                      op_void_reason := None; op_replaced_by := None |} newId
                   (Backend.db w2)))
      as [(m & w3 & -> & Hd3)|(w3 & -> & Hd3)]; run_simpl.
    { cbn. intros [= <- <- <- <-] [=]. }
    intros [= <- <- <- <-] _. by rewrite Hd3, Hd2, Hd1.
Qed.

Lemma savedDb_twice newId ls t d :
  savedDb newId ls t (savedDb newId ls t d) = savedDb newId ls t d.
Proof.
  unfold savedDb, Backend.updateOrder, Backend.insertLines, Backend.deleteLines.
  cbn [Backend.orders Backend.order_lines Backend.menu_names]. f_equal.
  - rewrite map_map. apply map_ext. intros o.
    destruct (String.eqb (Backend.id o) newId) eqn:He; cbn; rewrite He; reflexivity.
  - rewrite filter_app, filter_filter_same, filter_out_lines_payload, app_nil_r.
    reflexivity.
Qed.

Lemma savedDb_lines newId ls t d :
  Backend.linesOf newId (savedDb newId ls t d)
  = map Backend.lineRow (Owner.draftPayload newId ls).
Proof.
  unfold Backend.linesOf, savedDb, Backend.updateOrder, Backend.insertLines,
    Backend.deleteLines. cbn [Backend.order_lines].
  by rewrite filter_app, filter_in_of_out, filter_lines_payload.
Qed.

Lemma savedDb_total newId ls t d :
  Backend.totalOf newId (savedDb newId ls t d)
  = map (fun _ => t) (Backend.totalOf newId d).
Proof.
  unfold Backend.totalOf, savedDb, Backend.updateOrder, Backend.insertLines,
    Backend.deleteLines. cbn [Backend.orders].
  generalize (Backend.orders d) as os.
  induction os as [|o os IH]; [done|]. cbn [map]. rewrite !filter_cons.
  destruct (String.eqb_spec (Backend.id o) newId) as [He|Hne].
  - cbn [Backend.applyPatch Backend.id].
    destruct (decide (Backend.id o = newId)); [|done]. cbn [map]. by rewrite IH.
  - destruct (decide (Backend.id o = newId)); [done|]. apply IH.
Qed.

(** C4 (as amended).  Two calls of [saveReplacementDraft] in succession on
    the same draft order, the in-memory lines unchanged between them and no
    backend call of either failing: after the first call the lines persisted
    for the new order are the in-memory lines (with
    [line_total = unit_price * qty]) and its total is [replaceTotal]; after
    the second call the persisted lines and total are the same as after the
    first (indeed the tables are equal). *)
Theorem saveReplacementDraft_idempotent (w : Backend.World)
    (s1 s2 st1 st2 : Owner.State) newId r1 st1' w1 tr1 r2 st2' w2 tr2 :
  truthy (Owner.replaceNewId s1) = Some newId ->
  Owner.replaceNewId s2 = Owner.replaceNewId s1 ->
  Owner.replaceLines s2 = Owner.replaceLines s1 ->
  run (Backend.answer genId) (Owner.saveReplacementDraft s1 st1) w = (r1, st1', w1, tr1) ->
  run (Backend.answer genId) (Owner.saveReplacementDraft s2 st2) w1 = (r2, st2', w2, tr2) ->
  failures tr1 = [] ->
  failures tr2 = [] ->
  Backend.linesOf newId (Backend.db w1)
    = map Backend.lineRow (Owner.draftPayload newId (Owner.replaceLines s1))
  /\ Backend.totalOf newId (Backend.db w1)
     = map (fun _ => Owner.replaceTotal s1) (Backend.totalOf newId (Backend.db w))
  /\ Backend.linesOf newId (Backend.db w2) = Backend.linesOf newId (Backend.db w1)
  /\ Backend.totalOf newId (Backend.db w2) = Backend.totalOf newId (Backend.db w1)
  /\ Backend.db w2 = Backend.db w1.
Proof.
  intros Hn Hid Hls Hrun1 Hrun2 Hok1 Hok2.
  pose proof (save_draft_ok w s1 st1 newId _ _ _ _ Hn Hrun1 Hok1) as H1.
  assert (Hn2 : truthy (Owner.replaceNewId s2) = Some newId) by (by rewrite Hid).
  pose proof (save_draft_ok w1 s2 st2 newId _ _ _ _ Hn2 Hrun2 Hok2) as H2.
  assert (Ht : Owner.replaceTotal s2 = Owner.replaceTotal s1)
    by (unfold Owner.replaceTotal; by rewrite Hls).
  rewrite Hls, Ht, H1, savedDb_twice in H2.
  rewrite H2, H1. split; [apply savedDb_lines|].
  split; [apply savedDb_total|done].
Qed.

End ReferenceBackend.

(** C4, witness: two saves of the edited draft [N1]; after each, its only
    line is one [Y] at 45 and its total is 45. *)
Lemma saveReplacementDraft_idempotent_witness :
  let s := editingState "wrong item" in
  let R1 := run (Backend.answer sampleGenId) (Owner.saveReplacementDraft s s)
              (sampleWorld draftDb []) in
  let R2 := run (Backend.answer sampleGenId) (Owner.saveReplacementDraft s (snd (fst (fst R1))))
              (snd (fst R1)) in
  Backend.linesOf "N1" (Backend.db (snd (fst R1)))
    = map Backend.lineRow (Owner.draftPayload "N1" (Owner.replaceLines s))
  /\ Backend.totalOf "N1" (Backend.db (snd (fst R1)))
     = map (fun _ => Owner.replaceTotal s) (Backend.totalOf "N1" draftDb)
  /\ Backend.linesOf "N1" (Backend.db (snd (fst R2)))
     = Backend.linesOf "N1" (Backend.db (snd (fst R1)))
  /\ Backend.totalOf "N1" (Backend.db (snd (fst R2)))
     = Backend.totalOf "N1" (Backend.db (snd (fst R1)))
  /\ Backend.db (snd (fst R2)) = Backend.db (snd (fst R1)).
Proof.
  intros s R1 R2.
  apply (saveReplacementDraft_idempotent sampleGenId (sampleWorld draftDb []) s s s
           (snd (fst (fst R1))) "N1"
           (fst (fst (fst R1))) (snd (fst (fst R1))) (snd (fst R1)) (snd R1)
           (fst (fst (fst R2))) (snd (fst (fst R2))) (snd (fst R2)) (snd R2));
    reflexivity.
Defined.

(** C4, counterexample to the claim as stated: the in-memory lines are
    unchanged between two saves of the draft [N1], but the insert of the
    first save fails after its delete succeeded.  After the first call no
    line is persisted for [N1] and its total is still 60; after the second
    call the line of one [Y] at 45 is persisted and the total is 45. *)
Lemma saveReplacementDraft_differs_after_failed_insert :
  let s := editingState "wrong item" in
  let R1 := run (Backend.answer sampleGenId) (Owner.saveReplacementDraft s s)
              (sampleWorld draftDb [None; Some "insert failed"]) in
  let R2 := run (Backend.answer sampleGenId) (Owner.saveReplacementDraft s (snd (fst (fst R1))))
              (snd (fst R1)) in
  fst (fst (fst R1)) = Returned tt
  /\ alerts (snd R1) = ["insert failed"]
  /\ Backend.linesOf "N1" (Backend.db (snd (fst R1))) = []
  /\ Backend.totalOf "N1" (Backend.db (snd (fst R1))) = [60%float]
  /\ failures (snd R2) = []
  /\ Backend.linesOf "N1" (Backend.db (snd (fst R2)))
     = map Backend.lineRow (Owner.draftPayload "N1" (Owner.replaceLines s))
  /\ Backend.linesOf "N1" (Backend.db (snd (fst R2))) <> []
  /\ Backend.totalOf "N1" (Backend.db (snd (fst R2))) = [45%float].
Proof. vm_compute. repeat split. discriminate. Qed.

(** ** Quantities: sums of integer-valued numbers *)

Lemma roundInt_small (z : Z) : Z.abs z < 2 ^ 53 -> Num.roundInt z = z.
Proof. intros H. unfold Num.roundInt. apply Z.ltb_lt in H. by rewrite H. Qed.

(** What rounding keeps of a large magnitude: a multiple of the spacing,
    less than one spacing below it. *)
Lemma roundInt_large (z : Z) :
  2 ^ 53 <= z ->
  exists q, Num.roundInt z = q * 2 ^ (Z.log2 z - 52)
            /\ z - 2 ^ (Z.log2 z - 52) < q * 2 ^ (Z.log2 z - 52).
Proof.
  intros Hz. unfold Num.roundInt.
  rewrite Z.abs_eq by lia. destruct (Z.ltb_spec z (2 ^ 53)) as [|_]; [lia|].
  rewrite Z.sgn_pos by lia. cbv zeta.
  set (k := Z.log2 z - 52).
  assert (0 < 2 ^ k) as Hk.
  { apply Z.pow_pos_nonneg; [lia|]. unfold k.
    assert (53 <= Z.log2 z) by (apply Z.log2_le_pow2; lia). lia. }
  pose proof (Z.div_mod z (2 ^ k) ltac:(lia)) as Hdm.
  pose proof (Z.mod_pos_bound z (2 ^ k) Hk) as Hr.
  eexists. split; [rewrite Z.mul_1_l; reflexivity|].
  destruct (_ <? _); [nia|]. destruct (_ <? _); [nia|]. destruct (Z.even _); nia.
Qed.

Lemma roundInt_positive (z : Z) : 1 <= z -> 1 <= Num.roundInt z.
Proof.
  intros Hz. destruct (Z.lt_ge_cases z (2 ^ 53)) as [Hlt|Hge].
  - rewrite roundInt_small by lia. done.
  - destruct (roundInt_large z Hge) as (q & -> & Hq).
    assert (2 ^ (Z.log2 z - 52) <= z).
    { transitivity (2 ^ Z.log2 z); [|apply Z.log2_spec; lia].
      apply Z.pow_le_mono_r; lia. }
    assert (0 < 2 ^ (Z.log2 z - 52)).
    { apply Z.pow_pos_nonneg; [lia|].
      assert (53 <= Z.log2 z) by (apply Z.log2_le_pow2; lia). lia. }
    nia.
Qed.

Lemma addInt_one (q : Z) :
  1 <= q ->
  1 <= Num.addInt q 1 /\ (q < 2 ^ 53 -> Num.addInt q 1 = q + 1).
Proof.
  intros Hq. unfold Num.addInt. split; [apply roundInt_positive; lia|].
  intros Hlt. destruct (Z.eq_dec q (2 ^ 53 - 1)) as [->|Hne]; [by vm_compute|].
  apply roundInt_small. lia.
Qed.

Lemma addInt_minus_one (q : Z) :
  1 <= q -> 0 <= Num.addInt q (-1) /\ (q <= 2 ^ 53 -> Num.addInt q (-1) = q - 1).
Proof.
  intros Hq. unfold Num.addInt. split.
  - destruct (Z.eq_dec q 1) as [->|Hne]; [by vm_compute|].
    pose proof (roundInt_positive (q + -1)). lia.
  - intros Hle. apply roundInt_small. lia.
Qed.

(** Adding one never lowers a quantity that is a number. *)
Lemma addInt_one_ge (q : Z) : 1 <= q -> Num.roundInt q = q -> q <= Num.addInt q 1.
Proof.
  intros Hq Hnum. unfold Num.addInt.
  destruct (Z.lt_ge_cases (q + 1) (2 ^ 53)) as [Hlt|Hge].
  { rewrite roundInt_small by lia. lia. }
  destruct (roundInt_large (q + 1) Hge) as (Q & -> & HQ).
  assert (53 <= Z.log2 (q + 1)) as Hl by (apply Z.log2_le_pow2; lia).
  assert (0 < 2 ^ (Z.log2 (q + 1) - 52)) as Hk by (apply Z.pow_pos_nonneg; lia).
  destruct (Z.log2_succ_or q) as [Hs|Hs]; rewrite <- Z.add_1_r in Hs.
  - apply Z.log2_eq_succ_iff_pow2 in Hs as [b Hb]; [|lia].
    rewrite <- Z.add_1_r in Hb.
    assert (Z.log2 (q + 1) = b) as Hlb.
    { rewrite Hb. apply Z.log2_pow2. destruct (Z.le_gt_cases 0 b); [done|].
      rewrite Z.pow_neg_r in Hb by lia. lia. }
    rewrite Hlb in *.
    assert (2 ^ b = 2 ^ 52 * 2 ^ (b - 52)) as Hpow.
    { rewrite <- Z.pow_add_r by lia. f_equal. lia. }
    set (P := 2 ^ (b - 52)) in *.
    destruct (Z.le_gt_cases (2 ^ 52) Q) as [HQ'|HQ'].
    + assert (2 ^ 52 * P <= Q * P) by (apply Z.mul_le_mono_nonneg_r; lia). lia.
    + assert (Q * P <= (2 ^ 52 - 1) * P) by (apply Z.mul_le_mono_nonneg_r; lia). lia.
  - destruct (Z.lt_ge_cases q (2 ^ 53)) as [Hlt|Hge'].
    { assert (q = 2 ^ 53 - 1) as -> by lia. by vm_compute. }
    destruct (roundInt_large q Hge') as (Q1 & HQ1 & _).
    rewrite Hnum in HQ1. rewrite Hs in *.
    set (P := 2 ^ (Z.log2 q - 52)) in *.
    destruct (Z.le_gt_cases Q1 Q) as [HQ'|HQ'].
    + assert (Q1 * P <= Q * P) by (apply Z.mul_le_mono_nonneg_r; lia). lia.
    + assert (Q * P <= (Q1 - 1) * P) by (apply Z.mul_le_mono_nonneg_r; lia). lia.
Qed.

(** ** The editing operations *)

Lemma incLine_positive i l : 1 <= Owner.qty l -> 1 <= Owner.qty (Owner.incLine i l).
Proof.
  unfold Owner.incLine. intros H. destruct (String.eqb _ _); cbn; [|done].
  by apply addInt_one.
Qed.

Lemma repInc_positive i ls : qtyPositive ls -> qtyPositive (Owner.repInc i ls).
Proof.
  unfold qtyPositive, Owner.repInc. intros H. apply Forall_map.
  eapply Forall_impl; [exact H|]. intros l Hl. by apply incLine_positive.
Qed.

Lemma repDec_positive i ls : qtyPositive ls -> qtyPositive (Owner.repDec i ls).
Proof.
  unfold qtyPositive, Owner.repDec. intros H. apply Forall_map.
  eapply Forall_impl; [exact H|]. intros l Hl. cbn in *.
  destruct (String.eqb _ _); cbn; lia.
Qed.

Lemma repRemove_positive i ls : qtyPositive ls -> qtyPositive (Owner.repRemove i ls).
Proof. unfold qtyPositive, Owner.repRemove. intros H. by apply Forall_filter_keeps. Qed.

Lemma repAdd_positive menu i ls : qtyPositive ls -> qtyPositive (Owner.repAdd menu i ls).
Proof.
  unfold Owner.repAdd. intros H. destruct (find _ menu); [|done].
  destruct (find _ ls).
  - by apply (repInc_positive i).
  - apply Forall_app. split; [done|]. constructor; [cbn; lia|constructor].
Qed.

Lemma find_present (i : string) (ls : list Owner.ReplaceLine) l :
  l ∈ ls -> Owner.menu_item_id l = i ->
  exists l', find (fun l => String.eqb (Owner.menu_item_id l) i) ls = Some l'.
Proof.
  intros Hin Hid. induction Hin as [l ls|l x ls Hin IH]; cbn.
  - rewrite Hid, String.eqb_refl. eauto.
  - destruct (String.eqb _ _); eauto.
Qed.

Lemma find_absent (i : string) (ls : list Owner.ReplaceLine) :
  (forall l, l ∈ ls -> Owner.menu_item_id l <> i) ->
  find (fun l => String.eqb (Owner.menu_item_id l) i) ls = None.
Proof.
  induction ls as [|x ls IH]; intros H; cbn; [done|].
  destruct (String.eqb_spec (Owner.menu_item_id x) i) as [He|Hne].
  - exfalso. eapply H; [left|done].
  - apply IH. intros l Hl. apply H. by right.
Qed.

(** What [repInc] does to the line at a position: the chosen item gets
    one more, the other lines stay. *)
Lemma repInc_lookup (i : string) (ls : list Owner.ReplaceLine) (k : nat) l :
  ls !! k = Some l ->
  exists l',
    Owner.repInc i ls !! k = Some l'
    /\ Owner.menu_item_id l' = Owner.menu_item_id l
    /\ Owner.qty l' = (if String.eqb (Owner.menu_item_id l) i
                       then Num.addInt (Owner.qty l) 1 else Owner.qty l).
Proof.
  intros Hk. unfold Owner.repInc. rewrite list_lookup_fmap, Hk. cbn.
  eexists; split; [done|]. unfold Owner.incLine. by destruct (String.eqb _ _).
Qed.

(** C8.  When every replacement line has a quantity of at least 1, so has
    every line after [repInc], [repDec], [repRemove] and [repAdd].  [repDec]
    turns the quantity [q] of the chosen item into [max 1 (q - 1)] and leaves
    the other lines.  [repInc] turns the quantity [q] of the chosen item into
    [q + 1] and leaves the other lines.  [repAdd] of an item of the menu that
    is already in the editor adds no line and is [repInc]: the quantity of the
    item's line goes up by one; for an item that is not in the editor it
    appends one line of quantity 1.  The sums are those of the numbers of
    the code: exact up to [2^53], where [q + 1] is [q + 1] and [q - 1] is
    [q - 1]; beyond, a sum is rounded, and adding one still lowers no
    quantity. *)
Theorem editor_keeps_qty_positive (menu : list Owner.MenuEntry) (i : string)
    (ls : list Owner.ReplaceLine) :
  qtyPositive ls ->
  qtyPositive (Owner.repInc i ls) /\ qtyPositive (Owner.repDec i ls)
  /\ qtyPositive (Owner.repRemove i ls) /\ qtyPositive (Owner.repAdd menu i ls)
  /\ (forall k l, ls !! k = Some l ->
        exists l', Owner.repDec i ls !! k = Some l'
          /\ Owner.qty l' = (if String.eqb (Owner.menu_item_id l) i
                             then Z.max 1 (Num.addInt (Owner.qty l) (-1))
                             else Owner.qty l)
          /\ (Owner.qty l <= 2 ^ 53 ->
              Num.addInt (Owner.qty l) (-1) = Owner.qty l - 1))
  /\ (forall k l, ls !! k = Some l ->
        exists l', Owner.repInc i ls !! k = Some l'
          /\ Owner.qty l' = (if String.eqb (Owner.menu_item_id l) i
                             then Num.addInt (Owner.qty l) 1 else Owner.qty l)
          /\ (Owner.qty l < 2 ^ 53 -> Num.addInt (Owner.qty l) 1 = Owner.qty l + 1)
          /\ (Num.roundInt (Owner.qty l) = Owner.qty l -> Owner.qty l <= Owner.qty l'))
  /\ (forall it, find (fun m => String.eqb (Owner.m_id m) i) menu = Some it ->
        ((exists l, l ∈ ls /\ Owner.menu_item_id l = i) ->
           Owner.repAdd menu i ls = Owner.repInc i ls
           /\ length (Owner.repAdd menu i ls) = length ls
           /\ forall k l, ls !! k = Some l -> Owner.menu_item_id l = i ->
                exists l', Owner.repAdd menu i ls !! k = Some l'
                  /\ Owner.menu_item_id l' = i
                  /\ Owner.qty l' = Num.addInt (Owner.qty l) 1)
        /\ ((forall l, l ∈ ls -> Owner.menu_item_id l <> i) ->
           exists l', Owner.repAdd menu i ls = (ls ++ [l'])%list
             /\ Owner.menu_item_id l' = Owner.m_id it /\ Owner.qty l' = 1)).
Proof.
  intros Hpos.
  split; [by apply repInc_positive|]. split; [by apply repDec_positive|].
  split; [by apply repRemove_positive|]. split; [by apply repAdd_positive|].
  split; [|split].
  - intros k l Hk. unfold Owner.repDec. rewrite list_lookup_fmap, Hk. cbn.
    assert (1 <= Owner.qty l) as Hl.
    { unfold qtyPositive in Hpos. rewrite Forall_forall in Hpos. apply Hpos.
      by eapply list_elem_of_lookup_2. }
    eexists; split; [done|]. split; [by destruct (String.eqb _ _)|].
    intros Hle. by apply addInt_minus_one.
  - intros k l Hk.
    assert (1 <= Owner.qty l) as Hl.
    { unfold qtyPositive in Hpos. rewrite Forall_forall in Hpos. apply Hpos.
      by eapply list_elem_of_lookup_2. }
    destruct (repInc_lookup i ls k l Hk) as (l' & Hl' & _ & Hq).
    exists l'. split; [done|]. split; [done|]. split.
    + intros Hlt. by apply addInt_one.
    + intros Hnum. rewrite Hq. destruct (String.eqb _ _); [|lia].
      by apply addInt_one_ge.
  - intros it Hit. unfold Owner.repAdd. rewrite Hit. split.
    + intros (l & Hin & Hid). destruct (find_present i ls l Hin Hid) as [l' ->].
      fold (Owner.repInc i ls). split; [done|].
      split; [unfold Owner.repInc; by rewrite length_map|].
      intros k l0 Hk Hid0. destruct (repInc_lookup i ls k l0 Hk) as (l1 & Hl1 & Hm & Hq).
      exists l1. split; [done|]. split; [congruence|].
      rewrite Hq, Hid0, String.eqb_refl. done.
    + intros Habs. rewrite (find_absent i ls Habs). eexists; split; [done|]. done.
Qed.

(** C8, witness: the editor with one [Y] of quantity 1 and a menu that
    lists [Y] and [Z].  Adding [Y] makes it two [Y] on the same line, adding
    [Z] appends a line of one [Z], and minus on [Y] leaves one [Y]. *)
Lemma editor_keeps_qty_positive_witness :
  let ls := Owner.replaceLines (editingState "ab") in
  qtyPositive (Owner.repAdd sampleMenu "Y" ls)
  /\ map (fun l => (Owner.menu_item_id l, Owner.qty l)) (Owner.repAdd sampleMenu "Y" ls)
     = [("Y", 2)]
  /\ map (fun l => (Owner.menu_item_id l, Owner.qty l)) (Owner.repAdd sampleMenu "Z" ls)
     = [("Y", 1); ("Z", 1)]
  /\ map (fun l => (Owner.menu_item_id l, Owner.qty l)) (Owner.repDec "Y" ls)
     = [("Y", 1)].
Proof.
  intros ls. split; [|repeat split; reflexivity].
  apply (editor_keeps_qty_positive sampleMenu "Y" ls).
  repeat constructor. cbn. lia.
Defined.

(** ** The cashier's [placeOrder] *)

Lemma fold_line_totals (oid : string) (c : list Cashier.CartLine) (acc : float) :
  Forall (fun l => Num.round2 (Cashier.price l * Num.ofZ (Cashier.qty l))
                   = (Cashier.price l * Num.ofZ (Cashier.qty l))%float) c ->
  fold_left (fun a r => (a + li_line_total r)%float) (Cashier.orderLines oid c) acc
  = fold_left (fun sum l => (sum + Cashier.price l * Num.ofZ (Cashier.qty l))%float) c acc.
Proof.
  intros H. revert acc. induction H as [|l c Hl Hc IH]; intros acc; [done|].
  cbn. rewrite Hl. apply IH.
Qed.

(** *** Sums of two-decimal amounts

    What [binary_round] keeps of a mantissa, the error of a product and of
    a sum of numbers, and from these the totals of a cart whose prices are
    whole amounts of hundredths. *)

Lemma iter_pos_nat {A : Type} (f : A -> A) (p : positive) (x : A) :
  SpecFloat.iter_pos f p x = Nat.iter (Pos.to_nat p) f x.
Proof.
  revert x. induction p as [p IH|p IH|]; intros x; cbn [SpecFloat.iter_pos].
  - rewrite !IH, Pos2Nat.inj_xI.
    replace (S (2 * Pos.to_nat p))%nat with (Pos.to_nat p + S (Pos.to_nat p))%nat by lia.
    by rewrite Nat.iter_add, Nat.iter_succ_r.
  - rewrite !IH, Pos2Nat.inj_xO.
    replace (2 * Pos.to_nat p)%nat with (Pos.to_nat p + Pos.to_nat p)%nat by lia.
    by rewrite Nat.iter_add.
  - reflexivity.
Qed.

Lemma shr_1_inv (m k : Z) (rs : shr_record) :
  0 <= k -> shrInv m k rs -> shrInv m (k + 1) (shr_1 rs).
Proof.
  intros Hk (Hm & rem & Heq & Hrem & Hr & Hs). destruct rs as [mm r s]. cbn in *.
  assert (2 ^ (k + 1) = 2 * 2 ^ k) as Hp by (rewrite Z.add_1_r; apply Z.pow_succ_r; lia).
  assert (0 < 2 ^ k) as Hpos by (apply Z.pow_pos_nonneg; lia).
  destruct mm as [|[p|p|]|p]; try lia; unfold shrInv, shr_1; cbn [shr_m shr_r shr_s];
    (split; [lia|]).
  - exists rem. rewrite Hp. split; [lia|]. split; [lia|]. subst r s.
    destruct (Z.leb_spec (2 ^ k) (2 * rem)), (Z.eqb_spec rem 0), (Z.eqb_spec (2 * rem) (2 ^ k)),
      (Z.leb_spec (2 * 2 ^ k) (2 * rem)), (Z.eqb_spec (2 * rem) (2 * 2 ^ k)); cbn; try lia;
      split; reflexivity.
  - exists (rem + 2 ^ k). rewrite Hp. split; [lia|]. split; [lia|]. subst r s.
    destruct (Z.leb_spec (2 ^ k) (2 * rem)), (Z.eqb_spec rem 0), (Z.eqb_spec (2 * rem) (2 ^ k)),
      (Z.leb_spec (2 * 2 ^ k) (2 * (rem + 2 ^ k))), (Z.eqb_spec (rem + 2 ^ k) 0),
      (Z.eqb_spec (2 * (rem + 2 ^ k)) (2 * 2 ^ k)); cbn; try lia; split; reflexivity.
  - exists rem. rewrite Hp. split; [lia|]. split; [lia|]. subst r s.
    destruct (Z.leb_spec (2 ^ k) (2 * rem)), (Z.eqb_spec rem 0), (Z.eqb_spec (2 * rem) (2 ^ k)),
      (Z.leb_spec (2 * 2 ^ k) (2 * rem)), (Z.eqb_spec (2 * rem) (2 * 2 ^ k)); cbn; try lia;
      split; reflexivity.
  - exists (rem + 2 ^ k). rewrite Hp. split; [lia|]. split; [lia|]. subst r s.
    destruct (Z.leb_spec (2 ^ k) (2 * rem)), (Z.eqb_spec rem 0), (Z.eqb_spec (2 * rem) (2 ^ k)),
      (Z.leb_spec (2 * 2 ^ k) (2 * (rem + 2 ^ k))), (Z.eqb_spec (rem + 2 ^ k) 0),
      (Z.eqb_spec (2 * (rem + 2 ^ k)) (2 * 2 ^ k)); cbn; try lia; split; reflexivity.
Qed.

Lemma iter_shr_inv (m : Z) (n : nat) :
  0 <= m ->
  shrInv m (Z.of_nat n) (Nat.iter n shr_1 {| shr_m := m; shr_r := false; shr_s := false |}).
Proof.
  intros Hm. induction n as [|n IH].
  - split; [exact Hm|]. exists 0. cbn. repeat split; lia.
  - rewrite Nat2Z.inj_succ, <- Z.add_1_r. cbn [Nat.iter]. apply shr_1_inv; [lia|exact IH].
Qed.

Lemma round_nearest_inv (m k : Z) (rs : shr_record) :
  0 <= k -> shrInv m k rs ->
  let m2 := round_nearest_even (shr_m rs) (loc_of_shr_record rs) in
  shr_m rs <= m2 <= shr_m rs + 1 /\ 2 * Z.abs (m2 * 2 ^ k - m) <= 2 ^ k.
Proof.
  intros Hk (Hm & rem & Heq & Hrem & Hr & Hs). destruct rs as [mm r s]. cbn in *.
  assert (0 < 2 ^ k) as Hpos by (apply Z.pow_pos_nonneg; lia).
  set (P := 2 ^ k) in *.
  destruct (Z.leb_spec P (2 * rem)), (Z.eqb_spec rem 0), (Z.eqb_spec (2 * rem) P);
    subst r s; cbn; try lia;
    try (destruct (Z.even mm)); split; try lia;
    rewrite ?Z.mul_add_distr_r; lia.
Qed.

Lemma digits_bounds (p : positive) :
  2 ^ (Zpos (digits2_pos p) - 1) <= Zpos p < 2 ^ Zpos (digits2_pos p).
Proof.
  induction p as [p IH|p IH|]; cbn [digits2_pos]; [| |cbn; lia].
  - rewrite Pos2Z.inj_succ.
    replace (Z.succ (Zpos (digits2_pos p)) - 1) with (Zpos (digits2_pos p) - 1 + 1) by lia.
    rewrite Z.pow_add_r, Z.pow_succ_r by lia. lia.
  - rewrite Pos2Z.inj_succ.
    replace (Z.succ (Zpos (digits2_pos p)) - 1) with (Zpos (digits2_pos p) - 1 + 1) by lia.
    rewrite Z.pow_add_r, Z.pow_succ_r by lia. lia.
Qed.

Lemma digits_unique (p : positive) (d : Z) :
  2 ^ (d - 1) <= Zpos p < 2 ^ d -> Zpos (digits2_pos p) = d.
Proof.
  intros [Hlo Hhi]. destruct (digits_bounds p) as [Hlo' Hhi'].
  assert (0 < d).
  { destruct (Z.lt_ge_cases 0 d); [assumption|]. 
    assert (2 ^ d <= 2 ^ 0) by (apply Z.pow_le_mono_r; lia). cbn in *. lia. }
  assert (d - 1 < Zpos (digits2_pos p)).
  { apply (Z.pow_lt_mono_r_iff 2); lia. }
  assert (Zpos (digits2_pos p) - 1 < d).
  { apply (Z.pow_lt_mono_r_iff 2); lia. }
  lia.
Qed.

Lemma fexp_normal (x : Z) : -1074 <= x - 53 -> fexp prec emax x = x - 53.
Proof. unfold fexp, emin, prec, emax. lia. Qed.

Lemma shr_fexp_exact (m : positive) (e : Z) (k : positive) :
  Zpos (digits2_pos m) = 53 + Zpos k -> -1074 <= e + Zpos k ->
  shr_fexp prec emax (Zpos m) e loc_Exact
  = (Nat.iter (Pos.to_nat k) shr_1 {| shr_m := Zpos m; shr_r := false; shr_s := false |},
     e + Zpos k).
Proof.
  intros Hd He. unfold shr_fexp. cbn [Zdigits2 shr_record_of_loc].
  rewrite fexp_normal by lia.
  replace (Zpos (digits2_pos m) + e - 53 - e) with (Zpos k) by lia.
  cbn [shr]. by rewrite iter_pos_nat.
Qed.

Lemma shr_fexp_none (m : positive) (e : Z) :
  Zpos (digits2_pos m) = 53 -> -1074 <= e ->
  shr_fexp prec emax (Zpos m) e loc_Exact
  = ({| shr_m := Zpos m; shr_r := false; shr_s := false |}, e).
Proof.
  intros Hd He. unfold shr_fexp. cbn [Zdigits2 shr_record_of_loc].
  rewrite fexp_normal by lia.
  replace (Zpos (digits2_pos m) + e - 53 - e) with 0 by lia.
  reflexivity.
Qed.

Lemma shr_fexp_top (e : Z) :
  -1074 <= e ->
  shr_fexp prec emax (2 ^ 53) e loc_Exact
  = ({| shr_m := 2 ^ 52; shr_r := false; shr_s := false |}, e + 1).
Proof.
  intros He. unfold shr_fexp.
  replace (Zdigits2 (2 ^ 53)) with 54 by reflexivity.
  rewrite fexp_normal by lia. replace (54 + e - 53 - e) with 1 by lia. reflexivity.
Qed.

(** A mantissa of 53 bits in the normal range is kept as it is. *)
Lemma round_aux_exact (m : positive) (e : Z) :
  Zpos (digits2_pos m) = 53 -> -1074 <= e <= 971 ->
  binary_round_aux prec emax false (Zpos m) e loc_Exact = S754_finite false m e.
Proof.
  intros Hd He. unfold binary_round_aux.
  rewrite shr_fexp_none by lia. cbn [shr_m loc_of_shr_record round_nearest_even].
  rewrite shr_fexp_none by lia. cbn [shr_m].
  unfold emax, prec. by destruct (Z.leb_spec e (1024 - 53)); [|lia].
Qed.

(** Rounding a longer mantissa: 53 bits are kept, at most half a unit of
    the last place away. *)
Lemma round_aux_normal (m : positive) (e : Z) :
  let k := Zpos (digits2_pos m) - 53 in
  0 <= k -> -1074 <= e + k -> e + k + 1 <= 971 ->
  exists m' e',
    binary_round_aux prec emax false (Zpos m) e loc_Exact = S754_finite false m' e'
    /\ Zpos (digits2_pos m') = 53 /\ -1074 <= e' <= 971 /\ e <= e'
    /\ 2 * Z.abs (Zpos m' * 2 ^ (e' - e) - Zpos m) <= 2 ^ k.
Proof.
  intros k Hk Hlo Hhi.
  assert (Zpos (digits2_pos m) = 53 + k) as Hkd by (unfold k; lia). clearbody k.
  destruct (Z.eq_dec k 0) as [Hk0|Hk0].
  { exists m, e. rewrite round_aux_exact by lia. rewrite Z.sub_diag, Hk0. cbn. 
    repeat split; try lia. }
  assert (exists p, k = Zpos p) as [p Hp] by (destruct k as [|p|p]; [lia|by exists p|lia]).
  unfold binary_round_aux. rewrite (shr_fexp_exact m e p) by lia.
  pose proof (iter_shr_inv (Zpos m) (Pos.to_nat p) ltac:(lia)) as Hinv.
  rewrite positive_nat_Z in Hinv.
  set (rs := Nat.iter (Pos.to_nat p) shr_1 _) in *.
  pose proof (round_nearest_inv (Zpos m) (Zpos p) rs (Pos2Z.is_nonneg p) Hinv) as [Hm2 Herr].
  cbv zeta in Hm2, Herr.
  set (m2 := round_nearest_even (shr_m rs) (loc_of_shr_record rs)) in *.
  destruct Hinv as (Hm1 & rem & Heq & Hrem & _).
  destruct (digits_bounds m) as [Hdlo Hdhi].
  replace (Zpos (digits2_pos m) - 1) with (52 + Zpos p) in Hdlo by lia.
  replace (Zpos (digits2_pos m)) with (53 + Zpos p) in Hdhi by lia.
  rewrite Z.pow_add_r in Hdlo, Hdhi by lia.
  assert (0 < 2 ^ Zpos p) as Hpos by (apply Z.pow_pos_nonneg; lia).
  set (P := 2 ^ Zpos p) in *.
  assert (2 ^ 52 <= shr_m rs < 2 ^ 53) as Hm1r by nia.
  assert (2 ^ 52 <= m2 <= 2 ^ 53) as Hm2r by lia.
  destruct m2 as [|pow2|pow2] eqn:Hp2; [lia| |lia].
  destruct (Z.eq_dec (Zpos pow2) (2 ^ 53)) as [Hbig|Hsmall].
  - rewrite Hbig in *. rewrite shr_fexp_top by lia. cbn [shr_m].
    destruct (2 ^ 52) as [|top|top] eqn:Htop; [done| |done].
    unfold emax, prec. destruct (Z.leb_spec (e + Zpos p + 1) (1024 - 53)); [|lia].
    exists top, (e + Zpos p + 1). split; [reflexivity|].
    split; [apply digits_unique; rewrite <- Htop; cbn; lia|]. split; [lia|]. split; [lia|].
    replace (e + Zpos p + 1 - e) with (Zpos p + 1) by lia.
    rewrite Z.pow_add_r by lia. fold P. rewrite <- Htop.
    change (2 ^ 1) with 2.
    replace (2 ^ 52 * (P * 2)) with (2 ^ 53 * P) by lia. rewrite Hp. exact Herr.
  - assert (Zpos (digits2_pos pow2) = 53) as Hd2 by (apply digits_unique; lia).
    rewrite shr_fexp_none by lia. cbn [shr_m].
    unfold emax, prec. destruct (Z.leb_spec (e + Zpos p) (1024 - 53)); [|lia].
    exists pow2, (e + Zpos p). split; [reflexivity|]. split; [exact Hd2|]. split; [lia|].
    split; [lia|]. replace (e + Zpos p - e) with (Zpos p) by lia. rewrite Hp. exact Herr.
Qed.

Lemma iter_xO (p : positive) (d : positive) :
  Zpos (Pos.iter xO p d) = Zpos p * 2 ^ Zpos d.
Proof.
  induction d as [|d IH] using Pos.peano_ind.
  - cbn [Pos.iter]. rewrite Pos2Z.inj_xO. change (2 ^ 1) with 2. lia.
  - rewrite Pos.iter_succ, Pos2Z.inj_xO, IH, Pos2Z.inj_succ, Z.pow_succ_r by lia. lia.
Qed.

Lemma digits_shift (p : positive) (d : positive) :
  Zpos (digits2_pos (Pos.iter xO p d)) = Zpos (digits2_pos p) + Zpos d.
Proof.
  apply digits_unique. rewrite iter_xO. destruct (digits_bounds p) as [Hlo Hhi].
  replace (Zpos (digits2_pos p) + Zpos d - 1) with (Zpos (digits2_pos p) - 1 + Zpos d) by lia.
  rewrite !Z.pow_add_r by lia.
  assert (0 < 2 ^ Zpos d) by (apply Z.pow_pos_nonneg; lia). nia.
Qed.

(** [binary_round] in the normal range: a mantissa of 53 bits whose value
    is within half a unit of the last place; short mantissas are kept
    exactly. *)
Lemma round_normal (m : positive) (e : Z) :
  let d := Zpos (digits2_pos m) in
  -1074 <= e + d - 53 -> e + d - 53 + 1 <= 971 ->
  exists m' e',
    binary_round prec emax false m e = S754_finite false m' e'
    /\ Zpos (digits2_pos m') = 53 /\ -1074 <= e' <= 971
    /\ ((d <= 53 /\ e' <= e /\ Zpos m' = Zpos m * 2 ^ (e - e'))
        \/ (53 <= d /\ e <= e'
            /\ 2 * Z.abs (Zpos m' * 2 ^ (e' - e) - Zpos m) <= 2 ^ (d - 53))).
Proof.
  intros d Hlo Hhi. unfold binary_round, shl_align. fold d.
  assert (Zpos (digits2_pos m) = d) as Hdd by reflexivity. clearbody d.
  rewrite fexp_normal by lia.
  destruct (d + e - 53 - e) as [|q|q] eqn:Hq.
  - destruct (round_aux_normal m e) as (m' & e' & -> & Hd' & He' & Hle & Herr);
      rewrite ?Hdd; try lia.
    exists m', e'. split; [reflexivity|]. split; [done|]. split; [done|]. right.
    split; [lia|]. split; [done|]. by rewrite Hdd in Herr.
  - destruct (round_aux_normal m e) as (m' & e' & -> & Hd' & He' & Hle & Herr);
      rewrite ?Hdd; try lia.
    exists m', e'. split; [reflexivity|]. split; [done|]. split; [done|]. right.
    split; [lia|]. split; [done|]. by rewrite Hdd in Herr.
  - rewrite round_aux_exact.
    + eexists _, _. split; [reflexivity|]. split; [rewrite digits_shift; lia|].
      split; [lia|]. left. split; [lia|]. split; [lia|].
      rewrite iter_xO. f_equal. f_equal. lia.
    + rewrite digits_shift. lia.
    + lia.
Qed.

Ltac pow2_const := unfold pow2; cbv [powerRZ Pos.to_nat Pos.iter_op Nat.add pow]; lra.

Lemma pow2_pos (e : Z) : (0 < pow2 e)%R.
Proof. apply powerRZ_lt. lra. Qed.

Lemma pow2_add (a b : Z) : pow2 (a + b) = (pow2 a * pow2 b)%R.
Proof. apply powerRZ_add. lra. Qed.

Lemma pow2_0 : pow2 0 = 1%R.
Proof. reflexivity. Qed.

Lemma pow2_succ (a : Z) : pow2 (a + 1) = (2 * pow2 a)%R.
Proof. rewrite pow2_add. unfold pow2. change (powerRZ 2 1) with (2 * 1)%R. lra. Qed.

Lemma pow2_IZR (k : Z) : 0 <= k -> IZR (2 ^ k) = pow2 k.
Proof.
  intros Hk. rewrite <- (Z2Nat.id k Hk). unfold pow2.
  by rewrite <- pow_IZR, pow_powerRZ.
Qed.

Lemma pow2_le (a b : Z) : a <= b -> (pow2 a <= pow2 b)%R.
Proof.
  intros H. replace b with (a + (b - a)) by lia. rewrite pow2_add.
  rewrite <- (pow2_IZR (b - a)) by lia.
  assert (1 <= 2 ^ (b - a)) as H1 by (apply (Z.pow_le_mono_r 2 0); lia).
  apply IZR_le in H1. pose proof (pow2_pos a). nra.
Qed.

Lemma pow2_lt (a b : Z) : a < b -> (pow2 a < pow2 b)%R.
Proof.
  intros H. replace b with (a + 1 + (b - a - 1)) by lia.
  rewrite pow2_add, pow2_succ.
  assert (pow2 0 <= pow2 (b - a - 1))%R by (apply pow2_le; lia). rewrite pow2_0 in *.
  pose proof (pow2_pos a). nra.
Qed.

Lemma pow2_lt_inv (a b : Z) : (pow2 a < pow2 b)%R -> a < b.
Proof.
  intros H. destruct (Z.lt_ge_cases a b) as [|Hge]; [done|].
  apply pow2_le in Hge. lra.
Qed.

Lemma F2R_bounds (m : positive) (e d : Z) :
  Zpos (digits2_pos m) = d ->
  (pow2 (d - 1 + e) <= F2R (Zpos m) e < pow2 (d + e))%R.
Proof.
  intros Hd. destruct (digits_bounds m) as [Hlo Hhi]. rewrite Hd in *.
  unfold F2R. rewrite !pow2_add. pose proof (pow2_pos e).
  assert (0 < d) by lia.
  rewrite <- (pow2_IZR (d - 1)), <- (pow2_IZR d) by lia.
  apply IZR_le in Hlo. apply IZR_lt in Hhi. split; nra.
Qed.

(** The exponent of a 53-bit mantissa, from bounds on the value. *)
Lemma F2R_exponent (m : positive) (e lo hi : Z) :
  Zpos (digits2_pos m) = 53 ->
  (pow2 lo <= F2R (Zpos m) e)%R -> (F2R (Zpos m) e <= pow2 hi)%R ->
  lo - 53 < e /\ e + 52 <= hi.
Proof.
  intros Hd Hlo Hhi. destruct (F2R_bounds m e 53 Hd) as [H1 H2]. split.
  - assert (lo < 53 + e); [|lia]. apply pow2_lt_inv. lra.
  - assert (53 - 1 + e < hi + 1); [|lia]. apply pow2_lt_inv.
    rewrite (pow2_succ hi). pose proof (pow2_pos hi). lra.
Qed.

Lemma valid_normal (m : positive) (e : Z) :
  Zpos (digits2_pos m) = 53 -> -1074 <= e <= 971 ->
  valid_binary (S754_finite false m e) = true.
Proof.
  intros Hd He. unfold SpecFloat.valid_binary, SpecFloat.bounded, SpecFloat.canonical_mantissa.
  rewrite Hd, fexp_normal by lia. unfold emax, prec.
  apply andb_true_iff. split; [apply Z.eqb_eq|apply Z.leb_le]; lia.
Qed.

(** The value of what [binary_round] gives: within the unit roundoff,
    relative to the value rounded. *)
Lemma round_value (m : positive) (e : Z) :
  (pow2 (-900) <= F2R (Zpos m) e)%R -> (F2R (Zpos m) e <= pow2 900)%R ->
  exists m' e',
    binary_round prec emax false m e = S754_finite false m' e'
    /\ Zpos (digits2_pos m') = 53 /\ -1074 <= e' <= 971
    /\ (- (roundoff * F2R (Zpos m) e) <= F2R (Zpos m') e' - F2R (Zpos m) e <= roundoff * F2R (Zpos m) e)%R.
Proof.
  intros Hlo Hhi.
  destruct (F2R_bounds m e _ eq_refl) as [Hb1 Hb2].
  set (d := Zpos (digits2_pos m)) in *.
  assert (-900 < d + e) by (apply pow2_lt_inv; lra).
  assert (d - 1 + e < 900 + 1).
  { apply pow2_lt_inv. rewrite (pow2_succ 900). pose proof (pow2_pos 900). lra. }
  assert (Zpos (digits2_pos m) = d) as Hdd by reflexivity. clearbody d.
  destruct (round_normal m e) as (m' & e' & Hr & Hd' & He' & Hcase); rewrite ?Hdd in *;
    try lia.
  exists m', e'. split; [done|]. split; [done|]. split; [done|].
  pose proof (pow2_pos e) as Hpe. unfold roundoff.
  destruct Hcase as [(Hd53 & Hle & Hm)|(Hd53 & Hle & Herr)].
  - assert (F2R (Zpos m') e' = F2R (Zpos m) e) as ->.
    { unfold F2R. rewrite Hm, mult_IZR, pow2_IZR by lia.
      replace e with ((e - e') + e') at 2 by lia. rewrite (pow2_add (e - e') e'). lra. }
    pose proof (pow2_pos (-53)). assert (0 < F2R (Zpos m) e)%R by (pose proof (pow2_pos (-900)); lra).
    nra.
  - assert (F2R (Zpos m') e' = IZR (Zpos m' * 2 ^ (e' - e)) * pow2 e)%R as ->.
    { unfold F2R. rewrite mult_IZR, pow2_IZR by lia.
      replace e' with ((e' - e) + e) at 1 by lia. rewrite (pow2_add (e' - e) e). lra. }
    unfold F2R in *.
    set (A := Zpos m' * 2 ^ (e' - e)) in *.
    assert (- 2 ^ (d - 53) <= 2 * (A - Zpos m) <= 2 ^ (d - 53)) as [Ha Hb] by lia.
    apply IZR_le in Ha, Hb.
    rewrite opp_IZR in Ha. rewrite mult_IZR, minus_IZR in Ha, Hb.
    rewrite pow2_IZR in Ha, Hb by lia.
    replace (d - 1 + e) with ((d - 53) + 1 + 51 + e) in Hb1 by lia.
    rewrite !pow2_add in Hb1. change (pow2 1) with (2 * 1)%R in Hb1.
    assert (pow2 51 * pow2 (-53) = / 4)%R as H51.
    { rewrite <- pow2_add. change (51 + -53) with (-2). pow2_const. }
    pose proof (pow2_pos (d - 53)). pose proof (pow2_pos (-53)) as Hu. pose proof (pow2_pos 51).
    set (D := pow2 (d - 53)) in *. set (E := pow2 e) in *. set (U := pow2 (-53)) in *.
    set (M := IZR (Zpos m)) in *. set (A' := IZR A) in *.
    assert (D * E <= 2 * (U * (M * E)))%R.
    { assert (2 * D * pow2 51 * E <= M * E)%R by lra.
      assert (U * (2 * D * pow2 51 * E) <= U * (M * E))%R by (apply Rmult_le_compat_l; lra).
      replace (U * (2 * D * pow2 51 * E))%R with (2 * D * E * (pow2 51 * U))%R in * by ring.
      rewrite H51 in *. lra. }
    assert (- (D * E) <= 2 * (A' - M) * E <= D * E)%R by (split; nra).
    split; lra.
Qed.

Lemma roundoff_small : (0 < roundoff <= / 1024)%R.
Proof.
  unfold roundoff. split; [apply pow2_pos|].
  transitivity (pow2 (-10)); [apply pow2_le; lia|]. right. pow2_const.
Qed.

Lemma round_aux_as_round (m : positive) (e : Z) :
  53 <= Zpos (digits2_pos m) -> -1074 <= e + Zpos (digits2_pos m) - 53 ->
  binary_round_aux prec emax false (Zpos m) e loc_Exact = binary_round prec emax false m e.
Proof.
  intros Hd He. unfold binary_round, shl_align. rewrite fexp_normal by lia.
  destruct (Zpos (digits2_pos m) + e - 53 - e) eqn:Hq; [reflexivity|reflexivity|lia].
Qed.

Lemma Normal_bounds (x : float) (v : R) (lo hi : Z) :
  Normal x v -> (pow2 lo <= v)%R -> (v <= pow2 hi)%R ->
  exists m e, Prim2SF x = S754_finite false m e /\ Zpos (digits2_pos m) = 53
              /\ v = F2R (Zpos m) e /\ lo - 53 < e /\ e + 52 <= hi.
Proof.
  intros (m & e & Hx & Hd & ->) Hlo Hhi. exists m, e.
  destruct (F2R_exponent m e lo hi Hd Hlo Hhi). done.
Qed.

(** The product of two numbers. *)
Lemma mul_Normal (x y : float) (vx vy : R) :
  Normal x vx -> Normal y vy ->
  (pow2 (-200) <= vx <= pow2 200)%R -> (pow2 (-200) <= vy <= pow2 200)%R ->
  exists vz, Normal (x * y) vz
             /\ (- (roundoff * (vx * vy)) <= vz - vx * vy <= roundoff * (vx * vy))%R.
Proof.
  intros Hx Hy [Hx1 Hx2] [Hy1 Hy2].
  destruct (Normal_bounds x vx _ _ Hx Hx1 Hx2) as (mx & ex & Hpx & Hdx & -> & Hex1 & Hex2).
  destruct (Normal_bounds y vy _ _ Hy Hy1 Hy2) as (my & ey & Hpy & Hdy & -> & Hey1 & Hey2).
  assert (F2R (Zpos (mx * my)) (ex + ey) = F2R (Zpos mx) ex * F2R (Zpos my) ey)%R as Hv.
  { unfold F2R. rewrite Pos2Z.inj_mul, mult_IZR, pow2_add. ring. }
  destruct (F2R_bounds mx ex 53 Hdx) as [Hbx1 Hbx2].
  destruct (F2R_bounds my ey 53 Hdy) as [Hby1 Hby2].
  pose proof (pow2_pos (53 - 1 + ex)). pose proof (pow2_pos (53 - 1 + ey)).
  assert (pow2 (104 + (ex + ey)) <= F2R (Zpos (mx * my)) (ex + ey))%R as Hlo.
  { rewrite Hv. replace (104 + (ex + ey)) with ((53 - 1 + ex) + (53 - 1 + ey)) by lia.
    rewrite pow2_add. nra. }
  assert (F2R (Zpos (mx * my)) (ex + ey) < pow2 (106 + (ex + ey)))%R as Hhi.
  { rewrite Hv. replace (106 + (ex + ey)) with ((53 + ex) + (53 + ey)) by lia.
    rewrite pow2_add. nra. }
  destruct (F2R_bounds (mx * my) (ex + ey) _ eq_refl) as [Hd1 Hd2].
  set (d := Zpos (digits2_pos (mx * my))) in *.
  assert (Zpos (digits2_pos (mx * my)) = d) as Hdd by reflexivity. clearbody d.
  assert (104 + (ex + ey) < d + (ex + ey)) by (apply pow2_lt_inv; lra).
  assert (d - 1 + (ex + ey) < 106 + (ex + ey)) by (apply pow2_lt_inv; lra).
  destruct (round_value (mx * my) (ex + ey)) as (m' & e' & Hr & Hd' & He' & Herr).
  { transitivity (pow2 (104 + (ex + ey))); [apply pow2_le; lia|done]. }
  { transitivity (pow2 (106 + (ex + ey))); [lra|apply pow2_le; lia]. }
  exists (F2R (Zpos m') e'). split.
  - exists m', e'. split; [|done].
    rewrite mul_spec, Hpx, Hpy. unfold SF64mul, SFmul. cbn [xorb].
    rewrite round_aux_as_round by (rewrite Hdd; lia). exact Hr.
  - rewrite <- Hv. exact Herr.
Qed.

Lemma shl_align_value (m : positive) (e ez : Z) :
  ez <= e -> Zpos (fst (shl_align m e ez)) = Zpos m * 2 ^ (e - ez).
Proof.
  intros Hle. unfold shl_align. destruct (ez - e) as [|q|q] eqn:Hq; cbn [fst].
  - replace (e - ez) with 0 by lia. cbn. lia.
  - lia.
  - rewrite iter_xO. f_equal. f_equal. lia.
Qed.

(** The sum of two numbers. *)
Lemma add_Normal (x y : float) (vx vy : R) :
  Normal x vx -> Normal y vy ->
  (pow2 (-200) <= vx <= pow2 200)%R -> (pow2 (-200) <= vy <= pow2 200)%R ->
  exists vz, Normal (x + y) vz
             /\ (- (roundoff * (vx + vy)) <= vz - (vx + vy) <= roundoff * (vx + vy))%R.
Proof.
  intros Hx Hy [Hx1 Hx2] [Hy1 Hy2].
  destruct (Normal_bounds x vx _ _ Hx Hx1 Hx2) as (mx & ex & Hpx & Hdx & -> & Hex1 & Hex2).
  destruct (Normal_bounds y vy _ _ Hy Hy1 Hy2) as (my & ey & Hpy & Hdy & -> & Hey1 & Hey2).
  set (ez := Z.min ex ey).
  pose proof (shl_align_value mx ex ez ltac:(lia)) as Hax.
  pose proof (shl_align_value my ey ez ltac:(lia)) as Hay.
  set (ax := fst (shl_align mx ex ez)) in *. set (ay := fst (shl_align my ey ez)) in *.
  assert (F2R (Zpos (ax + ay)) ez = F2R (Zpos mx) ex + F2R (Zpos my) ey)%R as Hv.
  { unfold F2R. rewrite Pos2Z.inj_add, plus_IZR, Hax, Hay, !mult_IZR, !pow2_IZR by lia.
    replace ex with ((ex - ez) + ez) at 2 by lia.
    replace ey with ((ey - ez) + ez) at 2 by lia.
    rewrite !pow2_add. ring. }
  pose proof (pow2_pos (-200)).
  destruct (round_value (ax + ay) ez) as (m' & e' & Hr & Hd' & He' & Herr).
  { rewrite Hv. transitivity (pow2 (-200)); [apply pow2_le; lia|lra]. }
  { rewrite Hv. transitivity (pow2 201); [|apply pow2_le; lia].
    change 201 with (200 + 1). rewrite (pow2_succ 200). lra. }
  exists (F2R (Zpos m') e'). split.
  - exists m', e'. split; [|done].
    rewrite add_spec, Hpx, Hpy. unfold SF64add, SFadd. cbn [cond_Zopp].
    fold ez. fold ax ay. cbn [Z.add binary_normalize]. exact Hr.
  - rewrite <- Hv. exact Herr.
Qed.

(** The number made from an integer mantissa and an exponent. *)
Lemma normalize_Normal (m : positive) (e : Z) :
  (pow2 (-200) <= F2R (Zpos m) e <= pow2 200)%R ->
  exists v, Normal (SF2Prim (binary_normalize prec emax (Zpos m) e false)) v
            /\ (- (roundoff * F2R (Zpos m) e) <= v - F2R (Zpos m) e <= roundoff * F2R (Zpos m) e)%R.
Proof.
  intros [Hlo Hhi].
  destruct (round_value m e) as (m' & e' & Hr & Hd' & He' & Herr).
  { transitivity (pow2 (-200)); [apply pow2_le; lia|done]. }
  { transitivity (pow2 200); [done|apply pow2_le; lia]. }
  exists (F2R (Zpos m') e'). split; [|done].
  exists m', e'. split; [|done]. cbn [binary_normalize]. rewrite Hr.
  apply Prim2SF_SF2Prim. by apply valid_normal.
Qed.

(** Adding numbers that may be zero. *)
Lemma add_Val (x y : float) (vx vy : R) :
  Val x vx -> Val y vy -> (vx <= pow2 200)%R -> (vy <= pow2 200)%R ->
  exists vz, Val (x + y) vz
             /\ (- (roundoff * (vx + vy)) <= vz - (vx + vy) <= roundoff * (vx + vy))%R.
Proof.
  intros Hx Hy Hx2 Hy2. pose proof roundoff_small as [Hu0 Hu1].
  destruct Hx as [[Hx ->]|[Hx Hxlo]], Hy as [[Hy ->]|[Hy Hylo]].
  - exists 0%R. split; [|lra]. left. split; [|done].
    by rewrite add_spec, Hx, Hy.
  - exists vy. split; [|nra]. right. split; [|done].
    destruct Hy as (m & e & Hy & Hd & ->). exists m, e. split; [|done].
    by rewrite add_spec, Hx, Hy.
  - exists vx. split; [|nra]. right. split; [|done].
    destruct Hx as (m & e & Hx & Hd & ->). exists m, e. split; [|done].
    by rewrite add_spec, Hx, Hy.
  - assert (pow2 (-200) <= / 128)%R as Hlow.
    { transitivity (pow2 (-7)); [apply pow2_le; lia|]. right. pow2_const. }
    destruct (add_Normal x y vx vy Hx Hy) as (vz & Hz & Herr); [lra|lra|].
    exists vz. split; [|done]. right. split; [done|]. nra.
Qed.

Lemma pow2_neg7 : pow2 (-7) = (/ 128)%R.
Proof. pow2_const. Qed.

Lemma pow2_low : (pow2 (-200) <= / 128)%R.
Proof. rewrite <- pow2_neg7. apply pow2_le. lia. Qed.

Lemma IZR_p2_le (n k j : Z) : 0 <= k -> n <= 2 ^ k -> k <= j -> (IZR n <= pow2 j)%R.
Proof.
  intros Hk Hn Hj. transitivity (pow2 k); [|by apply pow2_le].
  rewrite <- pow2_IZR by done. by apply IZR_le.
Qed.

(** The number of a quantity. *)
Lemma ofZ_Normal (q : Z) :
  1 <= q <= 2 ^ 53 ->
  exists v, Normal (Num.ofZ q) v /\ near 1 v (IZR q) /\ (pow2 (-200) <= v <= pow2 200)%R.
Proof.
  intros [Hq1 Hq2]. destruct q as [|p|p]; try lia. unfold Num.ofZ.
  assert (F2R (Zpos p) 0 = IZR (Zpos p)) as Hv by (unfold F2R; rewrite pow2_0; lra).
  assert (1 <= IZR (Zpos p))%R as H1 by (by apply IZR_le).
  assert (IZR (Zpos p) <= pow2 53)%R as H2 by (by apply (IZR_p2_le _ 53)).
  pose proof pow2_low. pose proof roundoff_small as [Hu0 Hu1].
  assert (pow2 54 <= pow2 200)%R by (apply pow2_le; lia).
  assert (pow2 54 = 2 * pow2 53)%R by (change 54 with (53 + 1); apply pow2_succ).
  destruct (normalize_Normal p 0) as (v & Hf & Herr).
  { rewrite Hv. split; lra. }
  rewrite Hv in Herr. exists v. split; [done|]. unfold near. split; [lra|]. split; nra.
Qed.

(** The number read from an amount of hundredths. *)
Lemma ofHundredths_Val (n : Z) :
  0 <= n <= 2 ^ 60 ->
  exists v, Val (Num.ofHundredths n) v /\ near 2 v (amountOf n)
            /\ (n = 0 -> v = 0%R) /\ (1 <= n -> Amount (Num.ofHundredths n) v).
Proof.
  intros [Hn0 Hn]. destruct (Z.eq_dec n 0) as [->|Hne].
  { exists 0%R. split; [left; split; [by vm_compute|done]|].
    unfold near, amountOf. split; [lra|]. split; [done|lia]. }
  unfold Num.ofHundredths.
  set (q := n * 2 ^ 64 / 100). set (r := (n * 2 ^ 64) mod 100).
  pose proof (Z.div_mod (n * 2 ^ 64) 100 ltac:(lia)) as Hdm. fold q r in Hdm.
  pose proof (Z.mod_pos_bound (n * 2 ^ 64) 100 ltac:(lia)) as Hr. fold r in Hr.
  set (sticky := if r =? 0 then 0 else 1).
  set (M := 2 * q + sticky).
  assert (-100 <= 100 * M - 2 * (n * 2 ^ 64) <= 100 /\ 0 <= sticky <= 1) as [[Hm1 Hm2] Hs].
  { unfold M, sticky. destruct (Z.eqb_spec r 0); lia. }
  assert (0 < M) as HM by lia.
  destruct M as [|p|p] eqn:HMp; try lia.
  apply IZR_le in Hm1, Hm2.
  rewrite minus_IZR, !mult_IZR, (pow2_IZR 64) in Hm1, Hm2 by lia.
  assert (pow2 (-65) * pow2 64 = / 2)%R as H65.
  { rewrite <- pow2_add. change (-65 + 64) with (-1). pow2_const. }
  pose proof (pow2_pos (-65)) as Hp65. pose proof (pow2_pos 64) as Hp64.
  assert (1 <= IZR n)%R as Hn1 by (apply IZR_le; lia).
  assert (IZR n <= pow2 60)%R as Hn60 by (by apply (IZR_p2_le _ 60)).
  set (t := amountOf n). assert (IZR n = 100 * t)%R as Ht by (unfold t, amountOf; lra).
  assert (- pow2 (-65) <= F2R (Zpos p) (-65) - t <= pow2 (-65))%R as Hclose.
  { unfold F2R.
    assert (100 * (IZR (Zpos p) * pow2 (-65)) - 100 * t
            = (IZR 100 * IZR (Zpos p) - IZR 2 * (IZR n * pow2 64)) * pow2 (-65))%R as Heq.
    { rewrite Ht. replace (IZR 100) with 100%R by reflexivity.
      replace (IZR 2) with 2%R by reflexivity.
      transitivity (100 * IZR (Zpos p) * pow2 (-65) - 2 * 100 * t * (pow2 (-65) * pow2 64))%R;
        [rewrite H65; lra|ring]. }
    split; nra. }
  assert (pow2 (-65) <= t * (roundoff * / 32))%R as Hrel.
  { unfold roundoff. assert (pow2 (-65) = pow2 (-53) * pow2 (-12))%R as -> by (by rewrite <- pow2_add).
    assert (pow2 (-12) = / 4096)%R as -> by pow2_const.
    pose proof (pow2_pos (-53)). nra. }
  pose proof pow2_low. pose proof roundoff_small as [Hu0 Hu1].
  assert (pow2 60 <= pow2 199)%R by (apply pow2_le; lia).
  assert (pow2 200 = 2 * pow2 199)%R by (change 200 with (199 + 1); apply pow2_succ).
  pose proof (pow2_pos 199).
  assert (/ 100 <= t)%R by lra.
  destruct (normalize_Normal p (-65)) as (v & Hf & Herr).
  { split; [nra|nra]. }
  exists v.
  assert (near 2 v t) as Hnear.
  { unfold near. split; nra. }
  assert (Amount (SF2Prim (binary_normalize prec emax (Zpos p) (-65) false)) v) as Ham.
  { split; [exact Hf|]. unfold near in Hnear. nra. }
  split; [by right|]. split; [done|]. split; [lia|done].
Qed.

Lemma IZR_small (x : Z) : (-1 < IZR x < 1)%R -> x = 0.
Proof.
  intros [H1 H2]. apply lt_IZR in H1, H2. lia.
Qed.

(** [toFixed(2)] prints the amount of hundredths a number is nearest
    to. *)
Lemma hundredths_exact (m : positive) (e N : Z) :
  (- / 2 < 100 * F2R (Zpos m) e - IZR N < / 2)%R ->
  Num.hundredths (Zpos m) e = N.
Proof.
  intros Hclose. unfold Num.hundredths, F2R in *.
  destruct (Z.leb_spec 0 e) as [He|He].
  - rewrite <- pow2_IZR in Hclose by done.
    assert (Zpos m * 2 ^ e * 100 - N = 0); [|lia].
    apply IZR_small. rewrite minus_IZR, !mult_IZR. 
    replace (IZR 100) with 100%R by reflexivity. lra.
  - set (D := 2 ^ (- e)).
    assert (0 < D) as HD by (apply Z.pow_pos_nonneg; lia).
    assert (IZR D * pow2 e = 1)%R as Hinv.
    { unfold D. rewrite pow2_IZR, <- pow2_add by lia. replace (- e + e) with 0 by lia. apply pow2_0. }
    assert (0 < IZR D)%R as HDr by (by apply IZR_lt).
    pose proof (pow2_pos e) as Hpe.
    assert (- D < 200 * Zpos m - 2 * N * D < D) as [H1 H2].
    { split; apply lt_IZR.
      - rewrite opp_IZR, minus_IZR, !mult_IZR. 
        replace (IZR 200) with 200%R by reflexivity. replace (IZR 2) with 2%R by reflexivity.
        assert (IZR (Zpos m) = IZR (Zpos m) * pow2 e * IZR D)%R as Hm by (rewrite Rmult_assoc, (Rmult_comm (pow2 e)), Hinv; lra).
        rewrite Hm. nra.
      - rewrite minus_IZR, !mult_IZR. 
        replace (IZR 200) with 200%R by reflexivity. replace (IZR 2) with 2%R by reflexivity.
        assert (IZR (Zpos m) = IZR (Zpos m) * pow2 e * IZR D)%R as Hm by (rewrite Rmult_assoc, (Rmult_comm (pow2 e)), Hinv; lra).
        rewrite Hm. nra. }
    symmetry. apply (Z.div_unique _ _ _ (200 * Zpos m + D - 2 * N * D)); lia.
Qed.

(** [Number(x.toFixed(2))] of a number near an amount of hundredths is the
    number read from that amount. *)
Lemma round2_Val (x : float) (v : R) (N : Z) :
  Val x v -> (v <= pow2 60)%R -> (- / 2 < 100 * v - IZR N < / 2)%R ->
  Num.round2 x = Num.ofHundredths N.
Proof.
  intros Hx Hhi Hclose. unfold Num.round2, Num.magnitude, Num.isNegative.
  rewrite ltb_spec. destruct Hx as [[Hx ->]|[(m & e & Hx & Hd & ->) Hlo]]; rewrite Hx.
  - assert (N = 0) as -> by (apply IZR_small; lra). reflexivity.
  - assert (Num.isLarge (Zpos m) e = false) as ->.
    { unfold Num.isLarge. destruct (Z.leb_spec 0 e) as [He|He]; [|done].
      apply Z.leb_gt. unfold F2R in Hhi. rewrite <- !pow2_IZR, <- mult_IZR in Hhi by lia.
      apply le_IZR in Hhi. assert (2 ^ 60 < 10 ^ 21) by (by vm_compute). lia. }
    rewrite (hundredths_exact m e N Hclose). reflexivity.
Qed.

Lemma amountOf_add (a b : Z) : amountOf (a + b) = (amountOf a + amountOf b)%R.
Proof. unfold amountOf. rewrite plus_IZR. lra. Qed.

Lemma amountOf_nonneg (a : Z) : 0 <= a -> (0 <= amountOf a)%R.
Proof. intros H. apply IZR_le in H. unfold amountOf. lra. Qed.

Lemma sumOf_nonneg {A : Type} (n : A -> Z) (l : list A) :
  Forall (fun a => 0 <= n a) l -> 0 <= sumOf n l.
Proof. unfold sumOf. induction 1 as [|a l Ha _ IH]; cbn [fold_right]; lia. Qed.

Lemma Val_nonneg (x : float) (v : R) : Val x v -> (0 <= v)%R.
Proof. intros [[_ ->]|[_ H]]; lra. Qed.

Section Sums.

Context {A : Type}.
Variable term : A -> float.
Variable n : A -> Z.
Variable T : R.
Hypothesis T_range : (0 <= T <= pow2 60)%R.

(** The running sum stays within [7 roundoff T] per term of the exact one. *)
Lemma sum_Val (l : list A) :
  Forall (fun a => 0 <= n a /\ exists va, Val (term a) va /\ near 5 va (amountOf (n a))) l ->
  forall (acc : float) (A0 : R) (E : Z) (B : R),
    Val acc A0 -> 0 <= E -> (- B <= A0 - amountOf E <= B)%R -> (0 <= B)%R ->
    (amountOf (E + sumOf n l) <= T)%R ->
    (B + INR (length l) * (7 * roundoff * T) <= T / 4)%R ->
    exists sm, Val (fold_left (fun s a => (s + term a)%float) l acc) sm
              /\ (- (B + INR (length l) * (7 * roundoff * T)) <= sm - amountOf (E + sumOf n l)
                  <= B + INR (length l) * (7 * roundoff * T))%R.
Proof.
  pose proof roundoff_small as [Hu0 Hu1]. destruct T_range as [HT0 HT1].
  assert (0 <= roundoff * T <= T / 1024)%R as HuT by (split; nra).
  induction 1 as [|a l (Hna & va & Hva & Hnear) Hl IH]; intros acc A0 E B Hacc HE HA HB HT Hlen.
  - exists A0. cbn [fold_left length sumOf fold_right INR] in *. rewrite Z.add_0_r. 
    split; [done|]. lra.
  - cbn [fold_left]. cbn [length] in Hlen. rewrite S_INR in Hlen.
    cbn [sumOf fold_right] in HT. fold (sumOf n l) in HT.
    assert (0 <= sumOf n l) as Hs.
    { apply sumOf_nonneg. eapply Forall_impl; [exact Hl|]. by intros ? [? _]. }
    rewrite Z.add_assoc in HT.
    pose proof (amountOf_nonneg _ Hs) as Hs'. pose proof (amountOf_nonneg _ Hna) as Hna'.
    pose proof (amountOf_nonneg _ HE) as HE'.
    pose proof HT as HT'. rewrite !amountOf_add in HT'.
    unfold near in Hnear.
    assert (0 <= roundoff * amountOf (n a) <= roundoff * T)%R as Hun by (split; nra).
    assert (pow2 60 <= pow2 199)%R by (apply pow2_le; lia).
    assert (pow2 200 = 2 * pow2 199)%R by (change 200 with (199 + 1); apply pow2_succ).
    assert (0 <= INR (length l) * (7 * roundoff * T))%R.
    { apply Rmult_le_pos; [apply pos_INR|nra]. }
    destruct (add_Val acc (term a) A0 va Hacc Hva) as (vz & Hvz & Herr); [lra|lra|].
    pose proof (Val_nonneg _ _ Hacc). pose proof (Val_nonneg _ _ Hva).
    assert (0 <= A0 + va <= 2 * T)%R as Hsum by (split; lra).
    assert (roundoff * (A0 + va) <= 2 * (roundoff * T))%R as Hprod by nra.
    destruct (IH (acc + term a)%float vz (E + n a) (B + 7 * roundoff * T)%R Hvz ltac:(lia))
      as (sm & HS & HSerr).
    + rewrite amountOf_add. split; lra.
    + lra.
    + done.
    + lra.
    + exists sm. split; [done|]. cbn [length sumOf fold_right]. fold (sumOf n l).
      rewrite S_INR, Z.add_assoc. lra.
Qed.

End Sums.

(** The product [price * qty] of a cart line whose price is an amount of
    hundredths. *)
Lemma product_Val (c q : Z) :
  0 <= c -> 1 <= q < 2 ^ 53 -> c * q <= 2 ^ 48 ->
  exists v, Val (Num.ofHundredths c * Num.ofZ q) v /\ near 5 v (amountOf (c * q)).
Proof.
  intros Hc Hq Hcq. pose proof roundoff_small as [Hu0 Hu1].
  destruct (ofZ_Normal q ltac:(lia)) as (vq & Hfq & Hnq & Hrq).
  assert (c <= 2 ^ 48) as Hc48 by nia.
  destruct (ofHundredths_Val c ltac:(lia)) as (vp & Hvp & Hnp & Hzero & Hpos).
  destruct (Z.eq_dec c 0) as [->|Hne].
  - exists 0%R. split.
    + left. split; [|done]. destruct Hfq as (m & e & Hq' & _).
      rewrite mul_spec, Hq'. reflexivity.
    + rewrite Z.mul_0_l. unfold near, amountOf. lra.
  - destruct (Hpos ltac:(lia)) as [Hfp Hlo].
    unfold near, amountOf in *. rewrite mult_IZR.
    assert (1 <= IZR c)%R as Hc1 by (apply IZR_le; lia).
    assert (1 <= IZR q)%R as Hq1 by (apply IZR_le; lia).
    assert (IZR c <= pow2 48)%R as Hc2 by (apply (IZR_p2_le _ 48); lia).
    assert (pow2 48 <= pow2 199)%R by (apply pow2_le; lia).
    assert (pow2 200 = 2 * pow2 199)%R by (change 200 with (199 + 1); apply pow2_succ).
    pose proof pow2_low.
    set (tp := (IZR c / 100)%R) in *. set (tq := IZR q) in *.
    assert (/ 100 <= tp)%R by (unfold tp; lra).
    assert (tp <= pow2 48)%R by (unfold tp; lra).
    assert (0 <= roundoff * tp <= tp / 1024)%R by (split; nra).
    assert (0 <= roundoff * tq <= tq / 1024)%R by (split; nra).
    destruct (mul_Normal _ _ vp vq Hfp Hfq) as (vz & Hfz & Herr); [split; lra|done|].
    assert (IZR c * tq / 100 = tp * tq)%R as -> by (unfold tp; lra).
    assert (0 <= tp * tq)%R by nra.
    assert (- (3.1 * roundoff * (tp * tq)) <= vp * vq - tp * tq <= 3.1 * roundoff * (tp * tq))%R as Hpq.
    { replace (vp * vq - tp * tq)%R with ((vp - tp) * vq + tp * (vq - tq))%R by ring.
      assert (0 <= vq <= 1.001 * tq)%R by (split; nra).
      assert (- (2 * roundoff * tp * (1.001 * tq)) <= (vp - tp) * vq <= 2 * roundoff * tp * (1.001 * tq))%R
        by (split; nra).
      assert (- (tp * (roundoff * tq)) <= tp * (vq - tq) <= tp * (roundoff * tq))%R by (split; nra).
      assert (0 <= roundoff * (tp * tq))%R by nra.
      split; nra. }
    assert (0 <= roundoff * (tp * tq) <= tp * tq / 1024)%R as Hut by (split; nra).
    assert (vp * vq <= 1.01 * (tp * tq))%R as Hle by lra.
    assert (roundoff * (vp * vq) <= roundoff * (1.01 * (tp * tq)))%R as Hupq
      by (apply Rmult_le_compat_l; lra).
    exists vz. split; [|split; lra].
    right. split; [done|].
    assert (/ 100 <= tp * tq)%R by nra. lra.
Qed.

(** The persisted line total and unit price of such a line. *)
Lemma line_total_exact (c q : Z) :
  0 <= c -> 1 <= q < 2 ^ 53 -> c * q <= 2 ^ 48 ->
  Num.round2 (Num.ofHundredths c * Num.ofZ q) = Num.ofHundredths (c * q).
Proof.
  intros Hc Hq Hcq. destruct (product_Val c q Hc Hq Hcq) as (v & Hv & Hnear).
  pose proof roundoff_small as [Hu0 Hu1]. unfold near, amountOf in Hnear.
  assert (0 <= IZR (c * q))%R by (apply IZR_le; nia).
  assert (IZR (c * q) <= pow2 48)%R as H48 by (apply (IZR_p2_le _ 48); lia).
  assert (roundoff * pow2 48 = / 32)%R as H32.
  { unfold roundoff. rewrite <- pow2_add. change (-53 + 48) with (-5). pow2_const. }
  assert (pow2 48 <= pow2 59)%R by (apply pow2_le; lia).
  assert (pow2 60 = 2 * pow2 59)%R by (change 60 with (59 + 1); apply pow2_succ).
  assert (roundoff * IZR (c * q) <= / 32)%R by nra.
  apply (round2_Val _ v); [done|nra|split; nra].
Qed.

Lemma unit_price_exact (c : Z) :
  0 <= c <= 2 ^ 48 -> Num.round2 (Num.ofHundredths c) = Num.ofHundredths c.
Proof.
  intros Hc. destruct (ofHundredths_Val c ltac:(lia)) as (v & Hv & Hnear & _).
  pose proof roundoff_small as [Hu0 Hu1]. unfold near, amountOf in Hnear.
  assert (0 <= IZR c)%R by (apply IZR_le; lia).
  assert (IZR c <= pow2 48)%R as H48 by (apply (IZR_p2_le _ 48); lia).
  assert (roundoff * pow2 48 = / 32)%R as H32.
  { unfold roundoff. rewrite <- pow2_add. change (-53 + 48) with (-5). pow2_const. }
  assert (pow2 48 <= pow2 59)%R by (apply pow2_le; lia).
  assert (pow2 60 = 2 * pow2 59)%R by (change 60 with (59 + 1); apply pow2_succ).
  assert (roundoff * IZR c <= / 32)%R by nra.
  apply (round2_Val _ v); [done|nra|split; nra].
Qed.

(** A sum of terms near amounts of hundredths, rounded to two decimals, is
    the number of the total. *)
Lemma rounded_sum_exact {A : Type} (term : A -> float) (n : A -> Z) (l : list A) :
  Forall (fun a => 0 <= n a /\ exists va, Val (term a) va /\ near 5 va (amountOf (n a))) l ->
  Z.of_nat (length l) * sumOf n l <= 2 ^ 48 ->
  Num.round2 (fold_left (fun s a => (s + term a)%float) l 0%float)
  = Num.ofHundredths (sumOf n l).
Proof.
  intros Hl Hbound. pose proof roundoff_small as [Hu0 Hu1].
  assert (0 <= sumOf n l) as HN.
  { apply sumOf_nonneg. eapply Forall_impl; [exact Hl|]. by intros ? [? _]. }
  set (N := sumOf n l) in *. set (T := amountOf N).
  assert (0 <= IZR N)%R as HN' by (by apply IZR_le).
  assert (roundoff * pow2 48 = / 32)%R as H32.
  { unfold roundoff. rewrite <- pow2_add. change (-53 + 48) with (-5). pow2_const. }
  assert (pow2 48 <= pow2 59)%R by (apply pow2_le; lia).
  assert (pow2 60 = 2 * pow2 59)%R as H60 by (change 60 with (59 + 1); apply pow2_succ).
  pose proof (pow2_pos 48).
  assert (INR (length l) * IZR N <= pow2 48)%R as Hprod.
  { rewrite INR_IZR_INZ, <- mult_IZR. by apply (IZR_p2_le _ 48). }
  assert (0 <= INR (length l))%R as Hlen by apply pos_INR.
  assert (IZR N <= pow2 48)%R as HN48.
  { destruct l as [|a l]; [cbn in *; lra|].
    assert (1 <= INR (length (a :: l)))%R.
    { cbn [length]. rewrite S_INR. pose proof (pos_INR (length l)). lra. }
    nra. }
  assert (INR (length l) * (7 * roundoff * T) <= 7 / 32 / 100)%R as Hdelta.
  { unfold T, amountOf.
    replace (INR (length l) * (7 * roundoff * (IZR N / 100)))%R
      with (7 / 100 * (roundoff * (INR (length l) * IZR N)))%R by field.
    assert (roundoff * (INR (length l) * IZR N) <= roundoff * pow2 48)%R by (apply Rmult_le_compat_l; lra).
    lra. }
  assert (INR (length l) * (7 * roundoff * T) <= T / 4)%R as Hquarter.
  { destruct (Z.eq_dec N 0) as [Hz|Hz].
    - unfold T, amountOf. rewrite Hz. lra.
    - assert (1 <= IZR N)%R by (apply IZR_le; lia).
      assert (INR (length l) <= pow2 48)%R by nra.
      assert (roundoff * INR (length l) <= / 32)%R by nra.
      assert (0 <= T)%R by (unfold T, amountOf; lra).
      replace (INR (length l) * (7 * roundoff * T))%R with (7 * (roundoff * INR (length l)) * T)%R by ring.
      nra. }
  destruct (sum_Val term n T) with (l := l) (acc := 0%float) (A0 := 0%R) (E := 0) (B := 0%R)
    as (sm & HS & Herr).
  - unfold T, amountOf. split; lra.
  - exact Hl.
  - left. split; reflexivity.
  - lia.
  - unfold amountOf. cbn. lra.
  - lra.
  - rewrite Z.add_0_l. fold N. fold T. lra.
  - lra.
  - rewrite Z.add_0_l in Herr. fold N in Herr. fold T in Herr.
    apply (round2_Val _ sm); [done| |].
    + unfold T, amountOf in *. lra.
    + unfold T, amountOf in *. split; lra.
Qed.

Lemma fold_order_lines (oid : string) (c : list Cashier.CartLine) (acc : float) :
  fold_left (fun a r => (a + li_line_total r)%float) (Cashier.orderLines oid c) acc
  = fold_left (fun s l => (s + Num.round2 (Cashier.price l * Num.ofZ (Cashier.qty l)))%float)
      c acc.
Proof.
  unfold Cashier.orderLines. revert acc. induction c as [|l c IH]; intros acc; [done|].
  cbn [map fold_left li_line_total]. apply IH.
Qed.

(** For a cart of two-decimal prices: the header total and the rounded
    sum of the line totals are both the number of the cart's total in
    hundredths. *)
Lemma two_decimal_totals (cents : Cashier.CartLine -> Z) (oid : string)
    (c : list Cashier.CartLine) :
  twoDecimalCart cents c ->
  Z.of_nat (length c) * centsTotal cents c <= 2 ^ 48 ->
  Num.round2 (fold_left (fun sum l => (sum + Cashier.price l * Num.ofZ (Cashier.qty l))%float)
                c 0%float)
  = Num.ofHundredths (centsTotal cents c)
  /\ Num.round2 (sumLineTotals (Cashier.orderLines oid c))
     = Num.ofHundredths (centsTotal cents c)
  /\ Forall (fun l => Num.round2 (Cashier.price l) = Cashier.price l
                      /\ Num.round2 (Cashier.price l * Num.ofZ (Cashier.qty l))
                         = Num.ofHundredths (cents l * Cashier.qty l)) c.
Proof.
  intros Hc Hbound. unfold twoDecimalCart in Hc. unfold centsTotal in *.
  assert (0 <= sumOf (fun l => cents l * Cashier.qty l) c) as HN.
  { apply sumOf_nonneg. eapply Forall_impl; [exact Hc|]. intros l (? & _ & ?). nia. }
  assert (Forall (fun l => cents l * Cashier.qty l <= 2 ^ 48 /\ cents l <= 2 ^ 48) c) as Hsmall.
  { assert (sumOf (fun l => cents l * Cashier.qty l) c <= 2 ^ 48) as Htot.
    { destruct c as [|l c]; [by cbn|]. cbn [length] in Hbound. nia. }
    clear Hbound. induction Hc as [|l c (H0 & _ & Hq) Hc IH]; [constructor|].
    cbn [sumOf fold_right] in *. fold (sumOf (fun l => cents l * Cashier.qty l) c) in *.
    assert (0 <= sumOf (fun l => cents l * Cashier.qty l) c).
    { apply sumOf_nonneg. eapply Forall_impl; [exact Hc|]. intros ? (? & _ & ?). nia. }
    constructor; [nia|]. apply IH; nia. }
  split; [|split].
  - apply (rounded_sum_exact (fun l => (Cashier.price l * Num.ofZ (Cashier.qty l))%float)
             (fun l => cents l * Cashier.qty l)); [|done].
    apply Forall_forall. intros l Hl.
    rewrite Forall_forall in Hc, Hsmall.
    destruct (Hc l Hl) as (H0 & Hp & Hq). destruct (Hsmall l Hl) as [Hs _].
    split; [nia|]. rewrite Hp. by apply product_Val.
  - unfold sumLineTotals. rewrite fold_order_lines.
    apply (rounded_sum_exact
             (fun l => Num.round2 (Cashier.price l * Num.ofZ (Cashier.qty l)))
             (fun l => cents l * Cashier.qty l)); [|done].
    apply Forall_forall. intros l Hl.
    rewrite Forall_forall in Hc, Hsmall.
    destruct (Hc l Hl) as (H0 & Hp & Hq). destruct (Hsmall l Hl) as [Hs _].
    split; [nia|]. rewrite Hp, line_total_exact by done.
    destruct (ofHundredths_Val (cents l * Cashier.qty l)) as (v & Hv & Hnear & _); [nia|].
    exists v. split; [done|]. unfold near in *. pose proof roundoff_small.
    assert (0 <= amountOf (cents l * Cashier.qty l))%R by (apply amountOf_nonneg; nia).
    split; nra.
  - apply Forall_forall. intros l Hl.
    rewrite Forall_forall in Hc, Hsmall.
    destruct (Hc l Hl) as (H0 & Hp & Hq). destruct (Hsmall l Hl) as [Hs Hs'].
    rewrite Hp. split; [by apply unit_price_exact|by apply line_total_exact].
Qed.

(** C6 (as amended).  A run of [placeOrder] that reports "Order saved" made
    exactly these calls: the user lookup, the insert of one order header with
    status [NEW] whose [total_amount] is the sum of [price * qty] over the
    cart rounded to 2 decimals, and the insert of one line per cart line with
    [unit_price] the price rounded to 2 decimals and [line_total] the rounded
    [price * qty]; the cart is then cleared.  The header total equals the
    rounded sum of the inserted [line_total] values for every cart of
    two-decimal prices (each price the number of a whole amount of
    hundredths) with quantities from 1 to below 2^53 and a number of lines
    times total in hundredths of at most 2^48: the header total is then the
    number of the exact total, every [unit_price] is the cart price and every
    [line_total] the number of the exact [price * qty].  It also does
    whenever rounding leaves every [price * qty] of the cart unchanged. *)
Theorem placeOrder_persists_rounded_totals W (h : handler W) (w : W)
    (s : Cashier.State) r st w' tr :
  run h (Cashier.placeOrder s s) w = (r, st, w', tr) ->
  alerts tr = ["Order saved ✅"] ->
  exists b userId orderId row rows,
    truthy (Cashier.branchId s) = Some b
    /\ tr = [Entry authGetUser (Some userId);
             Entry (ordersInsert row) (Ok orderId);
             Entry (orderLinesInsert rows) (Ok tt);
             Entry (alert "Order saved ✅") tt]
    /\ oi_status row = "NEW" /\ oi_branch_id row = b
    /\ oi_total_amount row
       = Num.round2 (fold_left (fun sum l => (sum + Cashier.price l * Num.ofZ (Cashier.qty l))%float)
                       (Cashier.cart s) 0%float)
    /\ rows = map (fun l => {| li_order_id := orderId;
                               li_menu_item_id := Cashier.id l;
                               li_qty := Cashier.qty l;
                               li_unit_price := Num.round2 (Cashier.price l);
                               li_line_total :=
                                 Num.round2 (Cashier.price l * Num.ofZ (Cashier.qty l)) |})
                      (Cashier.cart s)
    /\ Cashier.cart st = []
    /\ (Forall (fun l => Num.round2 (Cashier.price l * Num.ofZ (Cashier.qty l))
                         = (Cashier.price l * Num.ofZ (Cashier.qty l))%float)
               (Cashier.cart s) ->
        oi_total_amount row = Num.round2 (sumLineTotals rows))
    /\ (forall cents,
          twoDecimalCart cents (Cashier.cart s) ->
          Z.of_nat (length (Cashier.cart s)) * centsTotal cents (Cashier.cart s) <= 2 ^ 48 ->
          oi_total_amount row = Num.round2 (sumLineTotals rows)
          /\ oi_total_amount row = Num.ofHundredths (centsTotal cents (Cashier.cart s))
          /\ rows = map (fun l => {| li_order_id := orderId;
                                     li_menu_item_id := Cashier.id l;
                                     li_qty := Cashier.qty l;
                                     li_unit_price := Cashier.price l;
                                     li_line_total :=
                                       Num.ofHundredths (cents l * Cashier.qty l) |})
                            (Cashier.cart s)).
Proof.
  unfold Cashier.placeOrder.
  destruct (length (Cashier.cart s) =? 0)%nat; run_simpl.
  { intros [= <- <- <- <-] [=]. }
  destruct (truthy (Cashier.branchId s)) as [b|] eqn:Hb; run_simpl.
  2:{ revert r st w' tr. answer_call. ended. intros [=]. }
  revert r st w' tr. answer_call. destruct x as [userId|]; run_simpl.
  2:{ answer_call. ended. intros [=]. }
  answer_call; run_simpl.
  2:{ answer_call. ended. intros [=]. }
  answer_call; run_simpl.
  2:{ answer_call. ended. intros [=]. }
  answer_call. destruct d0. run_simpl. ended. intros _.
  exists b, userId, d. eexists. eexists.
  split; [done|]. split; [reflexivity|].
  do 5 (split; [reflexivity|]). split.
  - intros Hexact. cbn [Cashier.orderRow oi_total_amount]. f_equal.
    symmetry. by apply fold_line_totals.
  - intros cents Hcents Hbound.
    destruct (two_decimal_totals cents d (Cashier.cart s) Hcents Hbound)
      as (Htotal & Hlines & Heach).
    cbn [Cashier.orderRow oi_total_amount]. unfold Cashier.total.
    split; [by rewrite Htotal, Hlines|]. split; [exact Htotal|].
    unfold Cashier.orderLines. apply map_ext_Forall.
    eapply Forall_impl; [exact Heach|]. intros l [Hu Hl]. cbn beta. by rewrite Hu, Hl.
Qed.

(** C6, witness: the cart of seven [A] at 19.99, three [B] at 0.10 and three
    [C] at 49.95 on the reference backend: one header of total 290.08, which
    is the rounded sum of the line totals 139.93, 0.30 and 149.85. *)
Lemma placeOrder_persists_rounded_totals_witness :
  let R := run (Backend.answer sampleGenId) (Cashier.placeOrder centavoCart centavoCart)
             (sampleWorld paidDb []) in
  (exists b userId orderId row rows,
     truthy (Cashier.branchId centavoCart) = Some b
     /\ snd R = [Entry authGetUser (Some userId);
                 Entry (ordersInsert row) (Ok orderId);
                 Entry (orderLinesInsert rows) (Ok tt);
                 Entry (alert "Order saved ✅") tt]
     /\ oi_total_amount row = Num.ofHundredths 29008
     /\ map li_line_total rows
        = [Num.ofHundredths 13993; Num.ofHundredths 30; Num.ofHundredths 14985]
     /\ oi_total_amount row = Num.round2 (sumLineTotals rows)).
Proof.
  intros R.
  destruct (placeOrder_persists_rounded_totals _ (Backend.answer sampleGenId)
              (sampleWorld paidDb []) centavoCart
              (fst (fst (fst R))) (snd (fst (fst R))) (snd (fst R)) (snd R))
    as (b & userId & orderId & row & rows & Hb & Htr & _ & _ & _ & _ & _ & _ & Hcents);
    [reflexivity | reflexivity |].
  destruct (Hcents centavoPrices) as (Hsum & Htotal & Hrows).
  - repeat constructor; cbn; lia.
  - vm_compute. discriminate.
  - exists b, userId, orderId, row, rows.
    split; [exact Hb|]. split; [exact Htr|].
    split; [exact Htotal|]. split; [rewrite Hrows; reflexivity|]. exact Hsum.
Defined.

(** C6, counterexample to the claim as stated: for the cart of two items at
    0.125 each, the persisted header total is 0.25 while the persisted line
    totals are 0.13 and 0.13, whose rounded sum is 0.26. *)
Lemma placeOrder_header_differs_from_line_sum :
  let '(_, _, w', tr) :=
    run (Backend.answer sampleGenId) (Cashier.placeOrder eighthsCart eighthsCart)
        (sampleWorld {| Backend.orders := []; Backend.order_lines := [];
                        Backend.menu_names := ∅ |} []) in
  alerts tr = ["Order saved ✅"]
  /\ map Backend.total_amount (Backend.orders (Backend.db w')) = [0.25%float]
  /\ map Backend.line_total (Backend.order_lines (Backend.db w'))
     = [Num.ofHundredths 13; Num.ofHundredths 13]
  /\ Num.round2 (fold_left (fun acc l => (acc + Backend.line_total l)%float)
                   (Backend.order_lines (Backend.db w')) 0%float)
     = Num.ofHundredths 26
  /\ 0.25%float <> Num.ofHundredths 26.
Proof.
  vm_compute. repeat split. apply float_neq. vm_compute. discriminate.
Qed.

(** C7 (as amended).  With an empty cart [placeOrder] returns at once: no
    call at all, so no insert and no message.  With a cart and no branch for
    the cashier it only shows "No branch assigned to this cashier.": no
    insert either.  In both cases the page state is unchanged. *)
Theorem placeOrder_guards W (h : handler W) (w : W) (s : Cashier.State) :
  (Cashier.cart s = [] ->
     run h (Cashier.placeOrder s s) w = (Returned tt, s, w, []))
  /\ (Cashier.cart s <> [] -> truthy (Cashier.branchId s) = None ->
      exists w',
        run h (Cashier.placeOrder s s) w
        = (Returned tt, s, w', [Entry (alert "No branch assigned to this cashier.") tt])
        /\ writes [Entry (alert "No branch assigned to this cashier.") tt] = []).
Proof.
  unfold Cashier.placeOrder. split.
  - intros ->. reflexivity.
  - intros Hc Hb. destruct (Cashier.cart s) as [|l c]; [done|]. rewrite Hb.
    cbn [length Nat.eqb]. run_simpl. answer_call. eauto.
Qed.

(** C7, counterexample to the claim as stated: an empty cart with a branch
    assigned; [placeOrder] shows no message. *)
Lemma placeOrder_empty_cart_is_silent :
  Cashier.cart emptyCartState = []
  /\ run (Backend.answer sampleGenId) (Cashier.placeOrder emptyCartState emptyCartState)
         (sampleWorld paidDb [])
     = (Returned tt, emptyCartState, sampleWorld paidDb [], []).
Proof. split; reflexivity. Qed.

(** ** The password-reset route *)

Section RouteProperties.

Import Route.

Lemma toLowerCase_app (a b : string) :
  toLowerCase (a +:+ b) = toLowerCase a +:+ toLowerCase b.
Proof.
  induction a as [|c a IH]; [done|]. rewrite append_cons. cbn [toLowerCase].
  by rewrite append_cons, IH.
Qed.

Lemma toLowerCase_length (a : string) : String.length (toLowerCase a) = String.length a.
Proof. induction a as [|c a IH]; [done|]. cbn. by rewrite IH. Qed.

Lemma slice_app (a b : string) : slice (String.length a) (a +:+ b) = b.
Proof. induction a as [|c a IH]; [by destruct b|]. exact IH. Qed.

Lemma app_prefix (p t : string) : String.prefix p (p +:+ t) = true.
Proof.
  induction p as [|c p IH]; [by destruct t|]. rewrite append_cons. cbn.
  by destruct (ascii_dec c c).
Qed.

(** A header with the scheme carries the rest, trimmed, as its token. *)
Lemma getBearer_accepts (scheme t : string) :
  toLowerCase scheme = "bearer " -> getBearer (Some (scheme +:+ t)) = Some (trim t).
Proof.
  intros Hs. unfold getBearer.
  replace (default EmptyString (truthy (Some (scheme +:+ t)))) with (scheme +:+ t)
    by (by destruct scheme).
  rewrite toLowerCase_app, Hs, app_prefix.
  replace 7%nat with (String.length scheme)
    by (by rewrite <- (toLowerCase_length scheme), Hs).
  by rewrite slice_app.
Qed.

(** A header without the scheme carries none. *)
Lemma getBearer_rejects (h : string) :
  String.prefix "bearer " (toLowerCase h) = false -> getBearer (Some h) = None.
Proof.
  intros Hp. unfold getBearer. destruct h as [|c h]; [done|].
  change (default EmptyString (truthy (Some (String c h)))) with (String c h).
  by rewrite Hp.
Qed.

Lemma truthy_nonempty (s : string) : s <> EmptyString -> truthy (Some s) = Some s.
Proof. by destruct s. Qed.

Variable toNumberOfText : Json -> float.

(** C9.  The status of the response, check by check in the order of the
    handler.  401 when the request carries no bearer token: no
    [authorization] header, a header that does not start with [bearer] and a
    space (in any letter case), or nothing but white space after them.  For
    a header that carries a token: 500 without the public configuration; 401
    when the token denotes no user; 500 when the profile lookup errs; 403
    when the caller's role is not owner; 500 when the body cannot be read;
    400 when [mode] or [newPassword] is missing (absent or falsy), and when
    [newPassword.length < 8] holds, as it does for a password that is a
    string shorter than 8; for the mode [cashier], 500 when the setting
    lookup errs or the setting is unset; 400 when the password update fails;
    and otherwise 200 with body [ok: true]. *)
Theorem POST_status_codes (req : Request) (env : Env) (sv : Services) :
  let r := POST toNumberOfText req env sv in
  ((authorization req = None
    \/ (exists h, authorization req = Some h
                  /\ String.prefix "bearer " (toLowerCase h) = false)
    \/ (exists scheme rest, authorization req = Some (scheme +:+ rest)
                            /\ toLowerCase scheme = "bearer "
                            /\ trim rest = EmptyString)) ->
   r = fail 401 "Missing auth token")
  /\ forall scheme rest,
     authorization req = Some (scheme +:+ rest) ->
     toLowerCase scheme = "bearer " ->
     trim rest <> EmptyString ->
     ((truthy (NEXT_PUBLIC_SUPABASE_URL env) = None
       \/ truthy (NEXT_PUBLIC_SUPABASE_ANON_KEY env) = None) -> status r = 500)
     /\ forall url anon,
        truthy (NEXT_PUBLIC_SUPABASE_URL env) = Some url ->
        truthy (NEXT_PUBLIC_SUPABASE_ANON_KEY env) = Some anon ->
        ((forall u, getUser sv url anon (trim rest) <> Ok (Some u)) -> status r = 401)
        /\ forall callerId, getUser sv url anon (trim rest) = Ok (Some callerId) ->
           (forall m, profileRole sv callerId = Err m -> status r = 500)
           /\ (forall prof, profileRole sv callerId = Ok prof ->
                 prof <> Some "owner" -> status r = 403)
           /\ (profileRole sv callerId = Ok (Some "owner") ->
               (forall m, json req = Threw m -> status r = 500)
               /\ forall b, json req = Returned b ->
                  ((truthyJson (property "mode" b) = false
                    \/ truthyJson (property "newPassword" b) = false) ->
                   status r = 400)
                  /\ forall md pw,
                     property "mode" b = Some md ->
                     property "newPassword" b = Some pw ->
                     truthyJson (Some md) = true ->
                     truthyJson (Some pw) = true ->
                     (lengthBelow8 toNumberOfText pw = true -> status r = 400)
                     /\ (forall s, pw = JString s -> (length s < 8)%nat -> status r = 400)
                     /\ (lengthBelow8 toNumberOfText pw = false ->
                         forall target,
                           (isString "cashier" md = true ->
                            (forall m, cashierUserId sv = Err m -> status r = 500)
                            /\ (forall v, cashierUserId sv = Ok v ->
                                  truthy v = None -> status r = 500)
                            /\ (forall v, cashierUserId sv = Ok v ->
                                  truthy v = Some target ->
                                  (forall m, updateUserById sv target pw = Some m ->
                                     status r = 400)
                                  /\ (updateUserById sv target pw = None ->
                                      r = {| status := 200; body := OkBody |})))
                           /\ (isString "cashier" md = false ->
                               (forall m, updateUserById sv callerId pw = Some m ->
                                  status r = 400)
                               /\ (updateUserById sv callerId pw = None ->
                                   r = {| status := 200; body := OkBody |})))).
Proof.
  intros r. subst r. unfold POST. split.
  { intros [->|[(h & -> & Hp)|(scheme & rest & -> & Hs & Hblank)]]; [done| |].
    - by rewrite (getBearer_rejects h Hp).
    - by rewrite (getBearer_accepts scheme rest Hs), Hblank. }
  intros scheme rest -> Hs Htok.
  rewrite (getBearer_accepts scheme rest Hs), (truthy_nonempty _ Htok). split.
  { intros [-> | ->]; [reflexivity|]. by destruct (truthy (NEXT_PUBLIC_SUPABASE_URL env)). }
  intros url anon -> ->. split.
  { intros Hno. destruct (getUser sv url anon (trim rest)) as [[u|]|m]; try reflexivity.
    by destruct (Hno u). }
  intros callerId ->. split; [by intros m ->|]. split.
  { intros prof -> Hp. rewrite bool_decide_eq_false_2 by done. reflexivity. }
  intros ->. rewrite bool_decide_eq_true_2 by done. cbn [negb]. split; [by intros m ->|].
  intros b ->. cbv zeta. split.
  { intros [Hm|Hp].
    - destruct (property "mode" b), (property "newPassword" b); try done.
      by rewrite Hm.
    - destruct (property "mode" b), (property "newPassword" b); try done.
      by rewrite Hp, orb_true_r. }
  intros md pw -> -> Hmd Hpw. rewrite Hmd, Hpw. cbn [negb orb].
  split; [by intros ->|]. split.
  { intros s -> Hlt. cbn [lengthBelow8]. apply Nat.ltb_lt in Hlt. by rewrite Hlt. }
  intros -> target. split.
  - intros ->. split; [by intros m ->|]. split.
    { by intros v -> ->. }
    intros v -> ->. unfold update. split; [by intros m ->|by intros ->].
  - intros ->. unfold update. split; [by intros m ->|by intros ->].
Qed.

End RouteProperties.

(** C9, witness: each status from a request.  Without a header 401; with
    the token of the owner and a password of 13 characters 200; with a
    password of 5 characters 400; with a failing update 400; with a token no
    user has 401; with the role [cashier] 403; without the configuration and
    with a body that cannot be read 500. *)
Lemma POST_status_codes_witness :
  let short := requestWith (Returned (sampleBody "owner" (Route.JString (Text.ofString "horse")))) in
  let unset := {| Route.NEXT_PUBLIC_SUPABASE_URL := None;
                  Route.NEXT_PUBLIC_SUPABASE_ANON_KEY := Some "anon" |} in
  Route.status (Route.POST noNumber (sampleRequest None) sampleEnv sampleServices) = 401
  /\ Route.POST noNumber (sampleRequest (Some "Bearer token-1")) sampleEnv sampleServices
     = {| Route.status := 200; Route.body := Route.OkBody |}
  /\ Route.status (Route.POST noNumber short sampleEnv sampleServices) = 400
  /\ Route.status (Route.POST noNumber (sampleRequest (Some "Bearer token-1")) sampleEnv
                     (servicesWith "owner" (Some "weak password"))) = 400
  /\ Route.status (Route.POST noNumber (sampleRequest (Some "bearer token-2")) sampleEnv
                     sampleServices) = 401
  /\ Route.status (Route.POST noNumber (sampleRequest (Some "Bearer token-1")) sampleEnv
                     (servicesWith "cashier" None)) = 403
  /\ Route.status (Route.POST noNumber (sampleRequest (Some "Bearer token-1")) unset
                     sampleServices) = 500
  /\ Route.status (Route.POST noNumber (requestWith (Threw "Unexpected token")) sampleEnv
                     sampleServices) = 500.
Proof.
  intros short unset.
  pose (pw := Route.JString (Text.ofString "correct horse")).
  pose (md := Route.JString (Text.ofString "cashier")).
  split.
  { rewrite (proj1 (POST_status_codes noNumber (sampleRequest None) sampleEnv
                      sampleServices)); [reflexivity|]. by left. }
  split.
  { destruct (proj2 (POST_status_codes noNumber (sampleRequest (Some "Bearer token-1"))
                       sampleEnv sampleServices) "Bearer " "token-1" eq_refl eq_refl)
      as [_ H]; [discriminate|].
    destruct (H "https://db.example" "anon" eq_refl eq_refl) as [_ H1].
    destruct (H1 "owner-1" eq_refl) as (_ & _ & H2).
    destruct (H2 eq_refl) as [_ H3].
    destruct (H3 _ eq_refl) as [_ H4].
    destruct (H4 md pw eq_refl eq_refl eq_refl eq_refl) as (_ & _ & H5).
    destruct (H5 eq_refl "cashier-1") as [H6 _].
    destruct (H6 eq_refl) as (_ & _ & H7).
    destruct (H7 _ eq_refl eq_refl) as [_ H8]. exact (H8 eq_refl). }
  split.
  { destruct (proj2 (POST_status_codes noNumber short sampleEnv sampleServices)
                "Bearer " "token-1" eq_refl eq_refl) as [_ H]; [discriminate|].
    destruct (H "https://db.example" "anon" eq_refl eq_refl) as [_ H1].
    destruct (H1 "owner-1" eq_refl) as (_ & _ & H2).
    destruct (H2 eq_refl) as [_ H3].
    destruct (H3 _ eq_refl) as [_ H4].
    destruct (H4 (Route.JString (Text.ofString "owner"))
                (Route.JString (Text.ofString "horse")) eq_refl eq_refl eq_refl eq_refl)
      as (_ & H5 & _).
    apply (H5 (Text.ofString "horse") eq_refl). vm_compute. lia. }
  split.
  { destruct (proj2 (POST_status_codes noNumber (sampleRequest (Some "Bearer token-1"))
                       sampleEnv (servicesWith "owner" (Some "weak password")))
                "Bearer " "token-1" eq_refl eq_refl) as [_ H]; [discriminate|].
    destruct (H "https://db.example" "anon" eq_refl eq_refl) as [_ H1].
    destruct (H1 "owner-1" eq_refl) as (_ & _ & H2).
    destruct (H2 eq_refl) as [_ H3].
    destruct (H3 _ eq_refl) as [_ H4].
    destruct (H4 md pw eq_refl eq_refl eq_refl eq_refl) as (_ & _ & H5).
    destruct (H5 eq_refl "cashier-1") as [H6 _].
    destruct (H6 eq_refl) as (_ & _ & H7).
    destruct (H7 _ eq_refl eq_refl) as [H8 _]. exact (H8 _ eq_refl). }
  split.
  { destruct (proj2 (POST_status_codes noNumber (sampleRequest (Some "bearer token-2"))
                       sampleEnv sampleServices) "bearer " "token-2" eq_refl eq_refl)
      as [_ H]; [discriminate|].
    destruct (H "https://db.example" "anon" eq_refl eq_refl) as [H1 _].
    apply H1. intros u. discriminate. }
  split.
  { destruct (proj2 (POST_status_codes noNumber (sampleRequest (Some "Bearer token-1"))
                       sampleEnv (servicesWith "cashier" None))
                "Bearer " "token-1" eq_refl eq_refl) as [_ H]; [discriminate|].
    destruct (H "https://db.example" "anon" eq_refl eq_refl) as [_ H1].
    destruct (H1 "owner-1" eq_refl) as (_ & H2 & _).
    apply (H2 (Some "cashier") eq_refl). discriminate. }
  split.
  { destruct (proj2 (POST_status_codes noNumber (sampleRequest (Some "Bearer token-1"))
                       unset sampleServices) "Bearer " "token-1" eq_refl eq_refl)
      as [H _]; [discriminate|]. apply H. by left. }
  destruct (proj2 (POST_status_codes noNumber (requestWith (Threw "Unexpected token"))
                     sampleEnv sampleServices) "Bearer " "token-1" eq_refl eq_refl)
    as [_ H]; [discriminate|].
  destruct (H "https://db.example" "anon" eq_refl eq_refl) as [_ H1].
  destruct (H1 "owner-1" eq_refl) as (_ & _ & H2).
  destruct (H2 eq_refl) as [H3 _]. exact (H3 _ eq_refl).
Defined.

(** ** The CSV export *)

Section Csv.

Import Dashboard.

Variable sort : (Order -> Order -> Z) -> list Order -> list Order.
Variable toStringLarge : float -> string.

Lemma orderRows_shape (names : gmap string string)
    (byOrder : gmap string (list Line)) (o : Order) (fs : list string) :
  fs ∈ orderRows toStringLarge names byOrder o ->
  length fs = 8%nat
  /\ fs !! 0%nat = Some (escapeCsv (id o))
  /\ exists ol, forall k column, header !! k = Some column ->
       fs !! S k = Some (describedValue toStringLarge names o ol column).
Proof.
  unfold orderRows. destruct (length _ =? 0)%nat.
  - intros ->%list_elem_of_singleton. split; [done|]. split; [done|].
    exists None. intros k column Hk.
    do 7 (destruct k as [|k]; [injection Hk as <-; reflexivity|]). done.
  - intros (l & -> & _)%list_elem_of_fmap. split; [done|]. split; [done|].
    exists (Some l). intros k column Hk.
    do 7 (destruct k as [|k]; [injection Hk as <-; reflexivity|]). done.
Qed.

(** C10 (as amended).  The header of the export has 7 names and is the first
    row; every data row, for a line or the placeholder of an order without
    lines, is the comma-join of 8 fields, one more than the header, whose
    first field is the id of an order of the export; and the value a header
    name announces sits one column to the right of that name: header name
    [k] describes field [k + 1] of every data row. *)
Theorem csv_header_and_rows (bs : list Owner.Branch) (orders : list Order)
    (lines : list Line) :
  length header = 7%nat
  /\ csvRows sort toStringLarge bs orders lines
     = String.concat "," header
       :: map (String.concat ",") (dataRows sort toStringLarge bs orders lines)
  /\ forall fs, fs ∈ dataRows sort toStringLarge bs orders lines ->
       length fs = 8%nat
       /\ length fs = S (length header)
       /\ exists o ol,
            o ∈ sort newestFirst orders
            /\ fs !! 0%nat = Some (escapeCsv (id o))
            /\ forall k column, header !! k = Some column ->
                 fs !! S k
                 = Some (describedValue toStringLarge (Owner.branchNameById bs) o ol column).
Proof.
  split; [done|]. split; [done|]. intros fs Hfs. unfold dataRows in Hfs.
  apply list_elem_of_In, in_concat in Hfs as (rows & Hrows & Hfs).
  apply list_elem_of_In, list_elem_of_fmap in Hrows as (o & -> & Ho).
  apply list_elem_of_In in Hfs.
  destruct (orderRows_shape _ _ _ _ Hfs) as (Hlen & Hid & ol & Hcol).
  split; [done|]. split; [done|]. exists o, ol. done.
Qed.

End Csv.

(** C10, counterexample to the claim as stated: in the export of one order
    with one line, the header name [branch] is in column 1, and the branch
    name is in column 2 of the data row, not in column 0, which holds the
    order id. *)
Lemma csv_value_is_not_left_of_its_header :
  let names := Owner.branchNameById sampleBranches in
  let branch :=
    Dashboard.describedValue noLargeAmounts names sampleCsvOrder (Some sampleCsvLine) "branch" in
  Dashboard.csvRows keepOrder noLargeAmounts sampleBranches [sampleCsvOrder] [sampleCsvLine]
  = ["order_created_at,branch,payment_type,order_total,item_name,qty,line_total";
     "O1,2024-03-01T04:00:00+00:00,Main,CASH,60.00,Item X,2,60.00"]
  /\ Dashboard.dataRows keepOrder noLargeAmounts sampleBranches [sampleCsvOrder] [sampleCsvLine]
     = [["O1"; "2024-03-01T04:00:00+00:00"; "Main"; "CASH"; "60.00"; "Item X"; "2"; "60.00"]]
  /\ Dashboard.header !! 1%nat = Some "branch"
  /\ branch = "Main"
  /\ ["O1"; "2024-03-01T04:00:00+00:00"; "Main"; "CASH"; "60.00"; "Item X"; "2"; "60.00"]
       !! 0%nat <> Some branch
  /\ ["O1"; "2024-03-01T04:00:00+00:00"; "Main"; "CASH"; "60.00"; "Item X"; "2"; "60.00"]
       !! 2%nat = Some branch.
Proof. vm_compute. repeat split. discriminate. Qed.

(** ** Dates: digits and strings *)

Lemma digit_cases (k : Z) :
  0 <= k < 10 ->
  k = 0 \/ k = 1 \/ k = 2 \/ k = 3 \/ k = 4 \/ k = 5 \/ k = 6 \/ k = 7 \/ k = 8 \/ k = 9.
Proof. lia. Qed.

Lemma digitValue_digitChar (k : Z) :
  0 <= k < 10 -> Js.digitValue (Js.digitChar k) = Some k.
Proof.
  intros H. destruct (digit_cases k H) as [->|[->|[->|[->|[->|[->|[->|[->|[->| ->]]]]]]]]];
    reflexivity.
Qed.

Lemma digitChar_not_dash (k : Z) :
  0 <= k < 10 -> Ascii.eqb (Js.digitChar k) "-" = false.
Proof.
  intros H. destruct (digit_cases k H) as [->|[->|[->|[->|[->|[->|[->|[->|[->| ->]]]]]]]]];
    reflexivity.
Qed.



Lemma noDash_app (a b : string) : noDash a -> noDash b -> noDash (a +:+ b).
Proof.
  induction a as [|c a IH]; [done|]. rewrite append_cons. cbn [noDash].
  intros [Hc Ha] Hb. split; auto.
Qed.

Lemma noDash_pad (w : nat) (n : Z) : noDash (Js.pad w n).
Proof.
  revert n. induction w as [|w IH]; intros n; cbn; [done|].
  apply noDash_app; [apply IH|]. cbn. split; [|done].
  apply digitChar_not_dash. apply Z.mod_pos_bound. lia.
Qed.

Lemma split_noDash (a : string) : noDash a -> Js.split "-" a = [a].
Proof.
  induction a as [|c a IH]; cbn [Js.split noDash]; [done|].
  intros [Hc Ha]. rewrite Hc, (IH Ha). done.
Qed.

Lemma split_app_dash (a r : string) :
  noDash a -> Js.split "-" (a +:+ String "-" r) = a :: Js.split "-" r.
Proof.
  induction a as [|c a IH].
  - intros _. rewrite append_nil_l. reflexivity.
  - rewrite append_cons. cbn [Js.split noDash].
    intros [Hc Ha]. rewrite Hc, (IH Ha). done.
Qed.

Lemma digitsValue_pad (w : nat) (n : Z) (rest : string) (acc : Z) :
  0 <= n ->
  Js.digitsValue (Js.pad w n +:+ rest) acc
  = Js.digitsValue rest (acc * 10 ^ Z.of_nat w + n mod 10 ^ Z.of_nat w).
Proof.
  revert n rest acc. induction w as [|w IH]; intros n rest acc Hn.
  - cbn [Js.pad]. rewrite append_nil_l. f_equal. cbn. rewrite Z.mod_1_r. lia.
  - cbn [Js.pad]. rewrite append_assoc, IH by (apply Z.div_pos; lia).
    rewrite append_cons, append_nil_l. cbn [Js.digitsValue].
    rewrite digitValue_digitChar by (apply Z.mod_pos_bound; lia).
    f_equal. rewrite Nat2Z.inj_succ, Z.pow_succ_r by lia.
    rewrite Z.rem_mul_r by lia. ring.
Qed.

Lemma Number_pad (w : nat) (n : Z) :
  0 <= n < 10 ^ Z.of_nat w -> Js.Number (Js.pad w n) = Some n.
Proof.
  intros Hn. unfold Js.Number.
  rewrite <- (append_nil_r (Js.pad w n)), digitsValue_pad by lia. cbn. f_equal. rewrite Z.mod_small; lia.
Qed.

Lemma ymdParts_ymdString (d : ymd) :
  0 <= year d <= 9999 -> 0 <= month d <= 99 -> 0 <= day d <= 99 ->
  ymdParts (ymdString d) = (Some (year d), Some (month d), Some (day d)).
Proof.
  intros Hy Hm Hd. unfold ymdParts, ymdString.
  change (Js.pad 4 (year d) +:+ "-" +:+ Js.pad 2 (month d) +:+ "-" +:+ Js.pad 2 (day d))
    with (Js.pad 4 (year d) +:+ String "-" (Js.pad 2 (month d) +:+ String "-" (Js.pad 2 (day d)))).
  rewrite split_app_dash by apply noDash_pad.
  rewrite split_app_dash by apply noDash_pad.
  rewrite split_noDash by apply noDash_pad.
  cbn [map lookup list_lookup mjoin option_join].
  rewrite !Number_pad by (cbn; lia). reflexivity.
Qed.

(** ** Dates: the calendar *)

Lemma isLeap_cases (y : Z) :
  (Date.isLeap y = true /\ Date.DaysInYear y = 366) \/
  (Date.isLeap y = false /\ Date.DaysInYear y = 365).
Proof. unfold Date.DaysInYear. destruct (Date.isLeap y); auto. Qed.

Lemma DayFromYear_succ (y : Z) :
  Date.DayFromYear (y + 1) = Date.DayFromYear y + Date.DaysInYear y.
Proof.
  unfold Date.DayFromYear, Date.DaysInYear, Date.isLeap.
  destruct (Z.eqb_spec (y mod 4) 0), (Z.eqb_spec (y mod 100) 0),
    (Z.eqb_spec (y mod 400) 0); cbn [andb orb negb];
    Z.div_mod_to_equations; lia.
Qed.

Lemma DayFromYear_counts (n : nat) :
  Date.DayFromYear (Z.of_nat n) = daysBeforeYear n - 719528.
Proof.
  induction n as [|n IH]; [reflexivity|].
  rewrite Nat2Z.inj_succ, <- Z.add_1_r, DayFromYear_succ, IH. cbn [daysBeforeYear]. lia.
Qed.

Lemma daysBeforeYear_1970 : daysBeforeYear 1970 = 719528.
Proof. vm_compute. reflexivity. Qed.

Lemma month_cases (m : Z) :
  1 <= m <= 12 ->
  m = 1 \/ m = 2 \/ m = 3 \/ m = 4 \/ m = 5 \/ m = 6 \/ m = 7 \/ m = 8 \/ m = 9
  \/ m = 10 \/ m = 11 \/ m = 12.
Proof. lia. Qed.

Ltac each_month m H :=
  destruct (month_cases m H)
    as [->|[->|[->|[->|[->|[->|[->|[->|[->|[->|[->| ->]]]]]]]]]]].

Ltac to_nat_literal :=
  repeat match goal with
  | |- context [Z.to_nat ?z] =>
      let n := eval vm_compute in (Z.to_nat z) in
      progress change (Z.to_nat z) with n
  end.

(** The month table of [MakeDay] adds up the lengths of the months. *)
Lemma monthStart_counts (y m : Z) :
  1 <= m <= 12 ->
  Date.monthStart (m - 1) (Date.isLeap y) = daysBeforeMonth y (Z.to_nat (m - 1)).
Proof.
  intros H. destruct (Date.isLeap y) eqn:Hleap;
    each_month m H; to_nat_literal; cbn [daysBeforeMonth]; unfold daysInMonth;
    rewrite ?Hleap; vm_compute; reflexivity.
Qed.

Lemma MakeDay_civilDay (d : ymd) :
  0 <= year d -> 1 <= month d <= 12 ->
  Date.MakeDay (year d) (month d - 1) (day d) = civilDay d.
Proof.
  intros Hy Hm. unfold Date.MakeDay, civilDay.
  replace ((month d - 1) / 12) with 0 by (Z.div_mod_to_equations; lia).
  replace ((month d - 1) mod 12) with (month d - 1) by (Z.div_mod_to_equations; lia).
  rewrite Z.add_0_r, monthStart_counts by done.
  rewrite <- (Z2Nat.id (year d)) at 1 by done.
  rewrite DayFromYear_counts, daysBeforeYear_1970. lia.
Qed.

Lemma daysBeforeYear_succ (y : Z) :
  0 <= y ->
  daysBeforeYear (Z.to_nat (y + 1)) = daysBeforeYear (Z.to_nat y) + Date.DaysInYear y.
Proof.
  intros Hy. rewrite Z2Nat.inj_add by lia. rewrite Nat.add_1_r. cbn [daysBeforeYear].
  by rewrite Z2Nat.id.
Qed.

(** The day number of the next calendar day is one more. *)
Lemma civilDay_nextDay (d : ymd) :
  0 <= year d -> validDate d -> civilDay (nextDay d) = civilDay d + 1.
Proof.
  intros Hy [Hm Hd]. unfold nextDay.
  destruct (Z.ltb_spec (day d) (daysInMonth (year d) (month d))) as [Hlt|Hge].
  { unfold civilDay. cbn [year month day]. lia. }
  assert (Hlast : day d = daysInMonth (year d) (month d)) by lia.
  destruct (Z.ltb_spec (month d) 12) as [Hm12|Hm12].
  - unfold civilDay. cbn [year month day]. rewrite Hlast.
    replace (Z.to_nat (month d + 1 - 1)) with (S (Z.to_nat (month d - 1))) by lia.
    cbn [daysBeforeMonth]. rewrite Nat2Z.inj_succ, Z2Nat.id by lia.
    replace (Z.succ (month d - 1)) with (month d) by lia. lia.
  - assert (Hm' : month d = 12) by lia.
    unfold civilDay. cbn [year month day]. rewrite daysBeforeYear_succ by done.
    rewrite Hlast, Hm'. rewrite <- (monthStart_counts (year d) 12) by lia.
    change (Z.to_nat (1 - 1)) with 0%nat. cbn [daysBeforeMonth].
    change (daysInMonth (year d) 12) with 31.
    unfold Date.DaysInYear.
    destruct (Date.isLeap (year d)).
    + change (Date.monthStart (12 - 1) true) with 335. lia.
    + change (Date.monthStart (12 - 1) false) with 334. lia.
Qed.

Lemma DayFromYear_bounds (y : Z) :
  0 <= y <= 10000 -> -719528 <= Date.DayFromYear y <= 2932897.
Proof. intros H. unfold Date.DayFromYear. Z.div_mod_to_equations. lia. Qed.

Lemma daysBeforeMonth_bounds (y m : Z) :
  1 <= m <= 12 -> 0 <= daysBeforeMonth y (Z.to_nat (m - 1)) <= 335.
Proof.
  intros H. rewrite <- monthStart_counts by done.
  destruct (Date.isLeap y); each_month m H; vm_compute; split; discriminate.
Qed.

Lemma daysInMonth_bounds (y m : Z) : 28 <= daysInMonth y m <= 31.
Proof.
  unfold daysInMonth. destruct (m =? 2); [destruct (Date.isLeap y); lia|].
  destruct (_ || _); lia.
Qed.

Lemma civilDay_bounds (d : ymd) :
  0 <= year d <= 10000 -> validDate d -> -719528 <= civilDay d <= 2933263.
Proof.
  intros Hy [Hm Hd].
  rewrite <- MakeDay_civilDay by lia. unfold Date.MakeDay.
  replace ((month d - 1) / 12) with 0 by (Z.div_mod_to_equations; lia).
  replace ((month d - 1) mod 12) with (month d - 1) by (Z.div_mod_to_equations; lia).
  rewrite Z.add_0_r, monthStart_counts by done.
  pose proof (DayFromYear_bounds (year d) Hy).
  pose proof (daysBeforeMonth_bounds (year d) (month d) Hm).
  pose proof (daysInMonth_bounds (year d) (month d)). lia.
Qed.

Lemma TimeClip_in_range (t : Z) :
  Z.abs t <= 8640000000000000 -> Date.TimeClip t = Some t.
Proof. intros H. unfold Date.TimeClip. by apply Z.leb_le in H as ->. Qed.

Lemma MakeFullYear_id (y : Z) : 100 <= y -> Date.MakeFullYear y = y.
Proof.
  intros H. unfold Date.MakeFullYear.
  destruct (Z.leb_spec y 99); [lia|]. by rewrite andb_false_r.
Qed.

Lemma validDate_nextDay (d : ymd) : validDate d -> validDate (nextDay d).
Proof.
  intros [Hm Hd]. unfold nextDay, validDate.
  destruct (Z.ltb_spec (day d) (daysInMonth (year d) (month d))); cbn [year month day].
  { lia. }
  destruct (Z.ltb_spec (month d) 12); cbn [year month day].
  - pose proof (daysInMonth_bounds (year d) (month d + 1)). lia.
  - pose proof (daysInMonth_bounds (year d + 1) 1). lia.
Qed.

(** C5 (as amended).  For calendar dates [s] and [e] with years from 0100
    to 9999, given as [YYYY-MM-DD] strings, [phDateRangeToUtcIso] returns as
    [startUtc] the ISO string of the UTC instant of midnight of [s] on the
    UTC+8 clock (the day number of [s] times a day, minus 8 hours) and as
    [endUtc] that of midnight of the calendar day after [e], month and year
    rollover included. *)
Theorem phDateRangeToUtcIso_bounds (s e : ymd) :
  100 <= year s <= 9999 -> validDate s ->
  100 <= year e <= 9999 -> validDate e ->
  phDateRangeToUtcIso (ymdString s) (ymdString e)
  = Returned {| startUtc := Date.iso (localMidnightUtc s);
                endUtc := Date.iso (localMidnightUtc (nextDay e)) |}.
Proof.
  intros Hys Hs Hye He.
  pose proof (daysInMonth_bounds (year s) (month s)) as Hds.
  pose proof (daysInMonth_bounds (year e) (month e)) as Hde.
  pose proof Hs as [Hms Hdds]. pose proof He as [Hme Hdde].
  unfold phDateRangeToUtcIso.
  rewrite !ymdParts_ymdString by lia.
  cbn [nsub nadd mbind option_bind].
  unfold Date.UTC. rewrite !MakeFullYear_id by lia.
  rewrite !MakeDay_civilDay by lia.
  pose proof (civilDay_bounds s ltac:(lia) Hs) as Hbs.
  pose proof (civilDay_bounds e ltac:(lia) He) as Hbe.
  unfold Date.MakeDate, Date.MakeTime, Date.msPerDay, Date.msPerHour,
    Date.msPerMinute, Date.msPerSecond.
  rewrite !TimeClip_in_range by lia.
  cbn [nsub nadd mbind option_bind]. unfold Date.toISOString.
  cbn [mbind option_bind].
  rewrite !TimeClip_in_range by lia.
  unfold localMidnightUtc. rewrite civilDay_nextDay by (done || lia).
  unfold Date.msPerDay, Date.msPerHour. do 2 f_equal; f_equal; lia.
Qed.

(** C5, witness: the range from 2024-01-31 to the leap day 2024-02-29. *)
Lemma phDateRangeToUtcIso_bounds_witness :
  phDateRangeToUtcIso "2024-01-31" "2024-02-29"
  = Returned {| startUtc := "2024-01-30T16:00:00.000Z";
                endUtc := "2024-02-29T16:00:00.000Z" |}.
Proof.
  exact (phDateRangeToUtcIso_bounds
           {| year := 2024; month := 1; day := 31 |}
           {| year := 2024; month := 2; day := 29 |}
           ltac:(cbn; lia) ltac:(by vm_compute) ltac:(cbn; lia) ltac:(by vm_compute)).
Defined.

(** C5, counterexample to the claim as stated: for the date 0050-01-01,
    [Date.UTC] reads the year 50 as 1950, so the bounds returned are those
    of 1950-01-01 and not the instants of midnight of 0050-01-01 and of the
    day after. *)
Lemma phDateRangeToUtcIso_two_digit_year :
  let d := {| year := 50; month := 1; day := 1 |} in
  validDate d
  /\ ymdString d = "0050-01-01"
  /\ phDateRangeToUtcIso (ymdString d) (ymdString d)
     = Returned {| startUtc := "1949-12-31T16:00:00.000Z";
                   endUtc := "1950-01-01T16:00:00.000Z" |}
  /\ Date.iso (localMidnightUtc d) = "0049-12-31T16:00:00.000Z"
  /\ Date.iso (localMidnightUtc (nextDay d)) = "0050-01-01T16:00:00.000Z".
Proof. split; [by vm_compute|]. repeat split; vm_compute; reflexivity. Qed.

(** * More of the code: properties beyond the claims *)

(** ** The handlers of the replacement editor, against any backend *)

Ltac crunch :=
  repeat first
    [ progress run_simpl
    | answer_call
    | match goal with
      | |- context [truthy ?x] => is_var x; destruct x as [[|? ?]|]; cbn [truthy]
      end ].

(** X1.  [saveReplacementDraft] never throws: it returns normally
    whatever the backend answers.  It makes no backend call after one has
    failed.  Without a draft id it does nothing at all; with one it ends with
    [replaceSaving] reset to [false] and with an alert shown, and when no call
    failed its writes are, in this order, the delete of the draft's lines, the
    insert of the payload (skipped for an empty editor) and the update of the
    draft's total. *)
Theorem saveReplacementDraft_runs W (h : handler W) (w : W) (s st : Owner.State)
    r st' w' tr :
  run h (Owner.saveReplacementDraft s st) w = (r, st', w', tr) ->
  r = Returned tt
  /\ stopsAtFailure tr
  /\ match truthy (Owner.replaceNewId s) with
     | None => st' = st /\ tr = []
     | Some newId =>
         st' = Owner.setReplaceSaving false st
         /\ alerts tr <> []
         /\ (failures tr = [] ->
             writes tr
             = (Entry (orderLinesDelete newId) (Ok tt)
                :: match Owner.replaceLines s with
                   | [] => []
                   | _ => [Entry (orderLinesInsert
                                    (Owner.draftPayload newId (Owner.replaceLines s)))
                                 (Ok tt)]
                   end
                ++ [Entry (ordersUpdate
                             {| op_total_amount := Some (Owner.replaceTotal s);
                                op_status := None; op_voided_at := None;
                                op_voided_by := None; op_void_reason := None;
                                op_replaced_by := None |} newId) (Ok tt)])%list)
     end.
Proof.
  unfold Owner.saveReplacementDraft, stopsAtFailure.
  destruct (truthy (Owner.replaceNewId s)) as [newId|]; run_simpl.
  2:{ intros [= <- <- <- <-]. done. }
  revert r st' w' tr. answer_call; run_simpl.
  2:{ answer_call. ended. repeat split; done. }
  destruct d.
  destruct (Owner.replaceLines s) as [|l ls] eqn:Hls.
  - cbn [Owner.draftPayload map length Nat.ltb Nat.leb]. run_simpl.
    answer_call; run_simpl; answer_call; ended.
    + destruct d. repeat split; done.
    + repeat split; done.
  - rewrite <- Hls.
    replace (0 <? length (Owner.draftPayload newId (Owner.replaceLines s)))%nat with true
      by (rewrite Hls; reflexivity).
    run_simpl. answer_call; run_simpl.
    2:{ answer_call. ended. repeat split; done. }
    destruct d. answer_call; run_simpl; answer_call; ended.
    + destruct d. repeat split; try done.
    + repeat split; done.
Qed.

(** X2.  [startVoidAndReplace] returns normally whatever the backend
    answers and makes no backend call after one has failed.  When the owner
    declines the confirmation nothing is called and the state is unchanged.
    When an alert is shown, a backend call failed, the alert is the only one,
    and the state is the one before with [replaceSaving] reset: the editor is
    not opened.  Every failure is reported by an alert. *)
Theorem startVoidAndReplace_failure W (h : handler W) (w : W) (s st : Owner.State)
    (oldId : string) r st' w' tr :
  run h (Owner.startVoidAndReplace s oldId st) w = (r, st', w', tr) ->
  r = Returned tt
  /\ stopsAtFailure tr
  /\ (confirms tr = [false] -> st' = st /\ filter entryIsBackend tr = [])
  /\ (alerts tr <> [] ->
      st' = Owner.setReplaceSaving false st /\ failures tr <> []
      /\ length (alerts tr) = 1%nat)
  /\ (failures tr <> [] -> alerts tr <> []).
Proof.
  unfold Owner.startVoidAndReplace, stopsAtFailure. revert r st' w' tr.
  run_simpl. answer_call; run_simpl.
  2:{ ended. repeat split; done. }
  answer_call; run_simpl.
  2:{ answer_call. ended. repeat split; done. }
  answer_call; run_simpl.
  2:{ answer_call. ended. repeat split; done. }
  answer_call; run_simpl.
  2:{ answer_call. ended. repeat split; done. }
  destruct (default [] d0) as [|l ls] eqn:Hls; cbn [map length Nat.ltb Nat.leb]; run_simpl.
  - ended. repeat split; done.
  - answer_call; run_simpl.
    + destruct d2. ended. repeat split; done.
    + answer_call. ended. repeat split; done.
Qed.

(** X3.  [finalizeReplacement] returns normally whatever the backend
    answers.  Unless the owner confirmed, no backend call is made and the
    state is unchanged.  A write is sent only with a void reason of 3
    characters after trimming and a non-empty editor.  The update that sets
    [VOIDED] is sent only when the update that sets [PAID] succeeded.  The
    editor is closed only when both updates succeeded, and then its lines,
    its reason and both order ids are cleared. *)
Theorem finalizeReplacement_order_of_updates W (h : handler W) (w : W)
    (s st : Owner.State) r st' w' tr :
  run h (Owner.finalizeReplacement s st) w = (r, st', w', tr) ->
  r = Returned tt
  /\ (confirms tr <> [true] -> st' = st /\ filter entryIsBackend tr = [])
  /\ (writes tr <> [] ->
      (3 <= length (Text.trim (Owner.voidReason s)))%nat /\ Owner.replaceLines s <> [])
  /\ (existsb entryIsVoidUpdate tr = true -> existsb entryIsPaidOk tr = true)
  /\ (Owner.replaceMode st = true -> Owner.replaceMode st' = false ->
      existsb entryIsPaidOk tr = true /\ existsb entryIsVoidOk tr = true
      /\ Owner.replaceLines st' = [] /\ Owner.voidReason st' = []
      /\ Owner.replaceOldId st' = None /\ Owner.replaceNewId st' = None).
Proof.
  unfold Owner.finalizeReplacement.
  destruct (truthy (Owner.replaceOldId s)) as [oldId|] eqn:Ho.
  2:{ intros [= <- <- <- <-]. repeat split; try done; congruence. }
  destruct (truthy (Owner.replaceNewId s)) as [newId|] eqn:Hn.
  2:{ intros [= <- <- <- <-]. repeat split; try done; congruence. }
  destruct (Nat.ltb_spec (length (Text.trim (Owner.voidReason s))) 3) as [Hlt|Hge].
  { revert r st' w' tr. crunch. ended. repeat split; try done; congruence. }
  destruct (Owner.replaceLines s) as [|l ls] eqn:Hls.
  { cbn [length Nat.eqb]. revert r st' w' tr. crunch. ended.
    repeat split; try done; congruence. }
  cbn [length Nat.eqb]. unfold Owner.saveReplacementDraft. rewrite Hn, Hls.
  cbn [Owner.draftPayload map length Nat.ltb Nat.leb].
  revert r st' w' tr. crunch; ended;
    (split; [done|]); (split; [done|]); (split; [done|]);
    (split; [cbn; try done|]); cbn; try done; intros; try congruence; try done.
Qed.


(** ** [finalizeReplacement] on the reference backend *)

Section FinalizeOnBackend.

Variable genId : Backend.Db -> string.

(** A backend call changes nothing of the world but the tables and the
    schedule of failures. *)
Lemma perform_world {X} (w : Backend.World) (onFail : string -> X) (ok : X)
    (d : Backend.Db) :
  (exists m w', Backend.perform w onFail ok d = (onFail m, w')
                /\ Backend.db w' = Backend.db w
                /\ Backend.session w' = Backend.session w
                /\ Backend.clock w' = Backend.clock w)
  \/ (exists w', Backend.perform w onFail ok d = (ok, w')
                 /\ Backend.db w' = d
                 /\ Backend.session w' = Backend.session w
                 /\ Backend.clock w' = Backend.clock w).
Proof.
  unfold Backend.perform, Backend.popFault.
  destruct (Backend.faults w) as [|[m|] fs]; cbn; eauto 10.
Qed.

Ltac blind_step :=
  cbn [Backend.answer];
  match goal with
  | |- context [Backend.perform ?w ?f ?ok ?d] =>
      destruct (Backend.perform w f ok d) as [[?|?] ?]
  end; run_simpl.

Ltac perform_step w0 d0 :=
  cbn [Backend.answer];
  let m := fresh "m" in let w1 := fresh "w" in
  let Hd := fresh "Hd" in let Hs := fresh "Hs" in let Hc := fresh "Hc" in
  destruct (perform_world w0 Err (Ok ()) d0)
    as [(m & w1 & -> & Hd & Hs & Hc)|(w1 & -> & Hd & Hs & Hc)]; run_simpl;
  [ repeat blind_step; cbn; intros ? ? ? ? [= <- <- <- <-] [=] | ].

Lemma finalize_on_backend (w : Backend.World) (s st : Owner.State)
    (oldId newId ownerId : string) r st' w' tr :
  truthy (Owner.replaceOldId s) = Some oldId ->
  truthy (Owner.replaceNewId s) = Some newId ->
  (3 <= length (Text.trim (Owner.voidReason s)))%nat ->
  Owner.replaceLines s <> [] ->
  Backend.accepts w = true ->
  truthy (Backend.session w) = Some ownerId ->
  run (Backend.answer genId) (Owner.finalizeReplacement s st) w = (r, st', w', tr) ->
  failures tr = [] ->
  Backend.db w'
  = finalizedDb oldId newId (Owner.replaceLines s) (Owner.replaceTotal s)
      (Backend.clock w) ownerId (Text.trim (Owner.voidReason s)) (Backend.db w)
  /\ Owner.replaceMode st' = false /\ Owner.replaceOldId st' = None
  /\ Owner.replaceNewId st' = None /\ Owner.replaceLines st' = []
  /\ Owner.replaceSaving st' = false.
Proof.
  intros Ho Hn Hlen Hls Hacc Hsess. unfold Owner.finalizeReplacement.
  rewrite Ho, Hn. apply Nat.ltb_ge in Hlen. rewrite Hlen.
  destruct (Owner.replaceLines s) as [|l ls] eqn:Hl; [done|]. rewrite <- Hl.
  replace (length (Owner.replaceLines s) =? 0)%nat with false by (by rewrite Hl).
  run_simpl. cbn [Backend.answer]. rewrite Hacc. run_simpl. cbn [Backend.answer].
  rewrite Hsess. unfold Owner.saveReplacementDraft. rewrite Hn.
  replace (0 <? length (Owner.draftPayload newId (Owner.replaceLines s)))%nat with true
    by (by rewrite Hl).
  revert r st' w' tr. run_simpl.
  perform_step w (Backend.deleteLines newId (Backend.db w)).
  perform_step w0 (Backend.insertLines (Owner.draftPayload newId (Owner.replaceLines s))
                     (Backend.db w0)).
  perform_step w1 (Backend.updateOrder
                     {| op_total_amount := Some (Owner.replaceTotal s);
                        op_status := None; op_voided_at := None; op_voided_by := None;
                        op_void_reason := None; op_replaced_by := None |} newId
                     (Backend.db w1)).
  perform_step w2 (Backend.updateOrder Owner.paidPatch newId (Backend.db w2)).
  perform_step w3 (Backend.updateOrder
                     (Owner.voidPatch (Backend.clock w3) ownerId
                        (Text.trim (Owner.voidReason s)) newId) oldId (Backend.db w3)).
  cbn [Backend.answer]. run_simpl. intros ? ? ? ? [= <- <- <- <-] _.
  split; [|done]. unfold finalizedDb, savedDb.
  rewrite Hd3, Hd2, Hd1, Hd0, Hd, Hc2, Hc1, Hc0, Hc. reflexivity.
Qed.

End FinalizeOnBackend.

Lemma filter_eq_of_out (k newId : string) (l : list Backend.LineRow) :
  k <> newId ->
  filter (fun l => Backend.order_id l = k)
    (filter (fun l => Backend.order_id l ≠ newId) l)
  = filter (fun l => Backend.order_id l = k) l.
Proof.
  intros Hk. induction l as [|x l IH]; [done|]. rewrite !filter_cons.
  destruct (decide (Backend.order_id x ≠ newId)) as [Hne|He].
  - rewrite filter_cons. destruct (decide (Backend.order_id x = k)); by rewrite IH.
  - destruct (decide (Backend.order_id x = k)) as [Hxk|_]; [|done].
    exfalso. apply He. congruence.
Qed.

Lemma filter_other_payload (k newId : string) (ls : list Owner.ReplaceLine) :
  k <> newId ->
  filter (fun l => Backend.order_id l = k)
    (map Backend.lineRow (Owner.draftPayload newId ls)) = [].
Proof.
  intros Hk. unfold Owner.draftPayload.
  induction ls as [|l ls IH]; [done|]. cbn [map]. rewrite filter_cons.
  destruct (decide _) as [He|_]; [|done]. cbn in He. congruence.
Qed.

(** What a finalized replacement leaves in the tables. *)
Lemma finalizedDb_tables (oldId newId : string) (ls : list Owner.ReplaceLine)
    (t : float) (now ownerId : string) (reason : text) (d : Backend.Db) :
  oldId <> newId ->
  let d' := finalizedDb oldId newId ls t now ownerId reason d in
  Backend.linesOf newId d' = map Backend.lineRow (Owner.draftPayload newId ls)
  /\ (forall k, k <> newId -> Backend.linesOf k d' = Backend.linesOf k d)
  /\ Forall2 (fun o o' =>
                Backend.id o' = Backend.id o
                /\ Backend.branch_id o' = Backend.branch_id o
                /\ Backend.payment_type o' = Backend.payment_type o
                /\ Backend.replaces o' = Backend.replaces o
                /\ (Backend.id o = newId ->
                      Backend.status o' = Some "PAID" /\ Backend.total_amount o' = t)
                /\ (Backend.id o = oldId ->
                      Backend.status o' = Some "VOIDED"
                      /\ Backend.total_amount o' = Backend.total_amount o
                      /\ Backend.void_reason o' = Some reason
                      /\ Backend.voided_by o' = Some ownerId
                      /\ Backend.voided_at o' = Some now
                      /\ Backend.replaced_by o' = Some newId)
                /\ (Backend.id o <> newId -> Backend.id o <> oldId -> o' = o))
       (Backend.orders d) (Backend.orders d').
Proof.
  intros Hne d'. subst d'.
  unfold finalizedDb, savedDb, Backend.linesOf, Backend.updateOrder,
    Backend.insertLines, Backend.deleteLines.
  cbn [Backend.orders Backend.order_lines]. split; [|split].
  - by rewrite filter_app, filter_in_of_out, filter_lines_payload.
  - intros k Hk. by rewrite filter_app, filter_eq_of_out, filter_other_payload, app_nil_r.
  - rewrite !map_map. induction (Backend.orders d) as [|o os IH]; [constructor|].
    cbn [map]. constructor; [|exact IH].
    destruct (String.eqb (Backend.id o) newId) eqn:E1;
      cbn [Backend.applyPatch Backend.id]; rewrite ?E1;
      cbn [Backend.applyPatch Backend.id];
      destruct (String.eqb (Backend.id o) oldId) eqn:E2;
      (apply String.eqb_eq in E1 || apply String.eqb_neq in E1);
      (apply String.eqb_eq in E2 || apply String.eqb_neq in E2);
      cbn; repeat split; try done; try congruence; intros; try congruence.
Qed.

(** X4.  On the reference backend, with an editor open on a draft [newId]
    of another order [oldId], a void reason of 3 characters after trimming,
    a non-empty editor, an owner who confirms and is signed in: when no call
    of [finalizeReplacement] failed, the lines of the draft are exactly the
    editor's lines, the lines of every other order are as before, and the
    orders are as before except that the draft is [PAID] with the editor's
    total and the old order is [VOIDED], keeps its total, and carries the
    trimmed reason, the owner, the time of the clock and the id of its
    replacement; the editor is closed. *)
Theorem finalizeReplacement_replaces_order (genId : Backend.Db -> string)
    (w : Backend.World) (s st : Owner.State) (oldId newId ownerId : string)
    r st' w' tr :
  truthy (Owner.replaceOldId s) = Some oldId ->
  truthy (Owner.replaceNewId s) = Some newId ->
  oldId <> newId ->
  (3 <= length (Text.trim (Owner.voidReason s)))%nat ->
  Owner.replaceLines s <> [] ->
  Backend.accepts w = true ->
  truthy (Backend.session w) = Some ownerId ->
  run (Backend.answer genId) (Owner.finalizeReplacement s st) w = (r, st', w', tr) ->
  failures tr = [] ->
  Backend.linesOf newId (Backend.db w')
  = map Backend.lineRow (Owner.draftPayload newId (Owner.replaceLines s))
  /\ (forall k, k <> newId ->
        Backend.linesOf k (Backend.db w') = Backend.linesOf k (Backend.db w))
  /\ Forall2 (fun o o' =>
                Backend.id o' = Backend.id o
                /\ Backend.branch_id o' = Backend.branch_id o
                /\ Backend.payment_type o' = Backend.payment_type o
                /\ Backend.replaces o' = Backend.replaces o
                /\ (Backend.id o = newId ->
                      Backend.status o' = Some "PAID"
                      /\ Backend.total_amount o' = Owner.replaceTotal s)
                /\ (Backend.id o = oldId ->
                      Backend.status o' = Some "VOIDED"
                      /\ Backend.total_amount o' = Backend.total_amount o
                      /\ Backend.void_reason o' = Some (Text.trim (Owner.voidReason s))
                      /\ Backend.voided_by o' = Some ownerId
                      /\ Backend.voided_at o' = Some (Backend.clock w)
                      /\ Backend.replaced_by o' = Some newId)
                /\ (Backend.id o <> newId -> Backend.id o <> oldId -> o' = o))
       (Backend.orders (Backend.db w)) (Backend.orders (Backend.db w'))
  /\ Owner.replaceMode st' = false /\ Owner.replaceLines st' = []
  /\ Owner.replaceSaving st' = false.
Proof.
  intros Ho Hn Hne Hlen Hls Hacc Hsess Hrun Hok.
  destruct (finalize_on_backend genId w s st oldId newId ownerId r st' w' tr
              Ho Hn Hlen Hls Hacc Hsess Hrun Hok)
    as (Hdb & Hmode & _ & _ & Hlines & Hsaving).
  destruct (finalizedDb_tables oldId newId (Owner.replaceLines s) (Owner.replaceTotal s)
              (Backend.clock w) ownerId (Text.trim (Owner.voidReason s)) (Backend.db w) Hne)
    as (H1 & H2 & H3).
  rewrite Hdb. done.
Qed.


(** ** Trimming the void reason *)

Lemma trimStart_white (ws s : text) :
  allWhiteSpace ws -> Text.trimStart (ws ++ s)%list = Text.trimStart s.
Proof.
  induction 1 as [|c ws Hc _ IH]; [done|]. cbn [app Text.trimStart]. by rewrite Hc.
Qed.

Lemma trimStart_trimmed (s : text) :
  (forall c, head s = Some c -> Text.isWhiteSpace c = false) -> Text.trimStart s = s.
Proof. destruct s as [|c s]; [done|]. intros H. cbn. by rewrite (H c). Qed.

Lemma allWhiteSpace_rev (ws : text) : allWhiteSpace ws -> allWhiteSpace (rev ws).
Proof. apply Forall_rev. Qed.

Lemma head_rev (s : text) : head (rev s) = last s.
Proof.
  induction s as [|c s _] using rev_ind; [done|].
  by rewrite rev_app_distr, last_snoc.
Qed.

Lemma trim_strips (ws1 core ws2 : text) :
  allWhiteSpace ws1 -> allWhiteSpace ws2 -> trimmed core ->
  Text.trim (ws1 ++ core ++ ws2)%list = core.
Proof.
  intros H1 H2 [Hh Hl]. unfold Text.trim, Text.trimEnd.
  rewrite trimStart_white by done.
  destruct core as [|c core].
  - cbn [app]. rewrite <- (app_nil_r ws2), trimStart_white by done. done.
  - rewrite (trimStart_trimmed ((c :: core) ++ ws2)%list).
    2:{ intros x Hx. apply Hh. exact Hx. }
    rewrite rev_app_distr, trimStart_white by (by apply allWhiteSpace_rev).
    rewrite trimStart_trimmed; [by rewrite rev_involutive|].
    intros x Hx. apply Hl. by rewrite <- head_rev.
Qed.

(** X5.  The void reason is judged and stored without the white space
    around it: when the reason typed is a text [core] that neither starts nor
    ends with white space, with any white space before and after, then
    [finalizeReplacement] sends no write and changes nothing if [core] has
    fewer than 3 characters, and every update it sends that sets [VOIDED]
    stores exactly [core] as the void reason. *)
Theorem finalizeReplacement_trims_reason W (h : handler W) (w : W)
    (s st : Owner.State) (ws1 core ws2 : text) r st' w' tr :
  Owner.voidReason s = (ws1 ++ core ++ ws2)%list ->
  allWhiteSpace ws1 -> allWhiteSpace ws2 -> trimmed core ->
  run h (Owner.finalizeReplacement s st) w = (r, st', w', tr) ->
  ((length core < 3)%nat -> writes tr = [] /\ st' = st)
  /\ Forall (fun en => match en with
                       | Entry (ordersUpdate p _) _ =>
                           op_status p = Some "VOIDED" -> op_void_reason p = Some core
                       | _ => True
                       end) tr.
Proof.
  intros Hr H1 H2 Hc. unfold Owner.finalizeReplacement.
  rewrite Hr, (trim_strips ws1 core ws2 H1 H2 Hc).
  destruct (truthy (Owner.replaceOldId s)) as [oldId|] eqn:Ho.
  2:{ intros [= <- <- <- <-]. done. }
  destruct (truthy (Owner.replaceNewId s)) as [newId|] eqn:Hn.
  2:{ intros [= <- <- <- <-]. done. }
  destruct (Nat.ltb_spec (length core) 3) as [Hlt|Hge].
  { revert r st' w' tr. crunch. ended. split; [done|]. repeat constructor. }
  destruct (Owner.replaceLines s) as [|l ls] eqn:Hls.
  { cbn [length Nat.eqb]. revert r st' w' tr. crunch. ended.
    split; [lia|]. repeat constructor. }
  cbn [length Nat.eqb]. unfold Owner.saveReplacementDraft. rewrite Hn, Hls.
  cbn [Owner.draftPayload map length Nat.ltb Nat.leb].
  revert r st' w' tr. crunch; ended; (split; [lia|]); repeat constructor; done.
Qed.


(** ** The lines of the replacement editor *)

Section EditorLines.

Import Owner.

Lemma incLine_item (i : string) (l : ReplaceLine) :
  menu_item_id (incLine i l) = menu_item_id l.
Proof. unfold incLine. by destruct (String.eqb _ _). Qed.

Lemma repInc_items (i : string) (ls : list ReplaceLine) :
  map menu_item_id (repInc i ls) = map menu_item_id ls.
Proof.
  unfold repInc. rewrite map_map. apply map_ext. intros l. apply incLine_item.
Qed.

Lemma repDec_items (i : string) (ls : list ReplaceLine) :
  map menu_item_id (repDec i ls) = map menu_item_id ls.
Proof.
  unfold repDec. rewrite map_map. apply map_ext. intros l.
  by destruct (String.eqb _ _).
Qed.

Lemma repRemove_items (i : string) (ls : list ReplaceLine) :
  map menu_item_id (repRemove i ls) = filter (fun k => k ≠ i) (map menu_item_id ls).
Proof.
  unfold repRemove. induction ls as [|l ls IH]; [done|]. cbn [map].
  rewrite !filter_cons. destruct (decide _); cbn [map]; by rewrite IH.
Qed.

(** X7.  The editor's operations give no item a second line: when the
    lines are for distinct items, they still are after [repInc], [repDec],
    [repRemove] and [repAdd].  (The editor opens with one line per line of
    the order being replaced; where that order has two lines for one item
    the lines are not distinct and nothing is said here.)  After
    [repRemove] no line is left for the removed item and the lines of every
    other item are as before; after [repAdd] of an item of the menu there is
    a line for it. *)
Theorem editor_keeps_items_distinct (menu : list MenuEntry) (i : string)
    (ls : list ReplaceLine) :
  itemsDistinct ls ->
  itemsDistinct (repInc i ls) /\ itemsDistinct (repDec i ls)
  /\ itemsDistinct (repRemove i ls) /\ itemsDistinct (repAdd menu i ls)
  /\ (i ∉ map menu_item_id (repRemove i ls))
  /\ (forall k, k <> i ->
        filter (fun l => menu_item_id l = k) (repRemove i ls)
        = filter (fun l => menu_item_id l = k) ls)
  /\ (forall it, find (fun m => String.eqb (m_id m) i) menu = Some it ->
        m_id it ∈ map menu_item_id (repAdd menu i ls)).
Proof.
  unfold itemsDistinct. intros Hd.
  split; [by rewrite repInc_items|]. split; [by rewrite repDec_items|].
  split; [rewrite repRemove_items; by apply NoDup_filter|].
  assert (forall it, find (fun m => String.eqb (m_id m) i) menu = Some it -> m_id it = i)
    as Hfound.
  { intros it Hit. apply find_some in Hit as [_ Hit]. by apply String.eqb_eq in Hit. }
  split; [|split; [|split]].
  - unfold repAdd. destruct (find _ menu) as [it|] eqn:Hit; [|done].
    destruct (find _ ls) as [l|] eqn:Hl.
    + fold (repInc i ls). by rewrite repInc_items.
    + rewrite map_app. cbn [map menu_item_id]. apply NoDup_app. split; [done|].
      split; [|apply NoDup_singleton].
      intros x Hx Hx'. apply list_elem_of_singleton in Hx' as ->.
      apply list_elem_of_fmap in Hx as (l & Hid & Hin).
      apply list_elem_of_In in Hin.
      pose proof (find_none _ _ Hl l Hin) as Hno. cbn in Hno.
      apply String.eqb_neq in Hno. rewrite (Hfound it eq_refl) in Hid. congruence.
  - rewrite repRemove_items. intros Hin. by apply list_elem_of_filter in Hin as [Hne _].
  - intros k Hk. unfold repRemove. induction ls as [|l ls IH]; [done|].
    apply NoDup_cons in Hd as [_ Hd]. rewrite !filter_cons.
    destruct (decide (menu_item_id l ≠ i)) as [Hne|He].
    + rewrite filter_cons. destruct (decide (menu_item_id l = k)); by rewrite IH.
    + destruct (decide (menu_item_id l = k)) as [Hlk|_]; [|by apply IH].
      exfalso. apply He. congruence.
  - intros it Hit. unfold repAdd. rewrite Hit.
    destruct (find _ ls) as [l|] eqn:Hl.
    + fold (repInc i ls). rewrite repInc_items.
      apply find_some in Hl as [Hin Hid]. apply String.eqb_eq in Hid.
      rewrite (Hfound it Hit), <- Hid. apply list_elem_of_fmap. exists l.
      split; [done|]. by apply list_elem_of_In.
    + rewrite map_app. cbn [map menu_item_id]. apply elem_of_app. right.
      by apply list_elem_of_singleton.
Qed.

End EditorLines.

(** ** The cashier's [placeOrder], when it does not succeed *)

(** X8.  [placeOrder] returns normally whatever the backend answers and
    makes no backend call after one has failed.  The cart is kept unless a
    write was sent.  When a backend call failed, the state is the one before
    with [saving] reset (the cart is kept), one alert beginning with
    [Failed to save order: ] is shown, and the writes sent are either the
    failed insert of the order alone, or the insert of the order that
    succeeded followed by the failed insert of its lines: the order row then
    stays in the tables without lines. *)
Theorem placeOrder_failure W (h : handler W) (w : W) (s st : Cashier.State)
    r st' w' tr :
  run h (Cashier.placeOrder s st) w = (r, st', w', tr) ->
  r = Returned tt
  /\ stopsAtFailure tr
  /\ (writes tr = [] -> Cashier.cart st' = Cashier.cart st)
  /\ (failures tr <> [] ->
      st' = Cashier.setSaving false st
      /\ exists m b userId,
           truthy (Cashier.branchId s) = Some b
           /\ alerts tr = ["Failed to save order: " +:+ Cashier.errorText m]
           /\ (writes tr = [Entry (ordersInsert (Cashier.orderRow s b userId)) (Err m)]
               \/ exists orderId,
                    writes tr
                    = [Entry (ordersInsert (Cashier.orderRow s b userId)) (Ok orderId);
                       Entry (orderLinesInsert (Cashier.orderLines orderId (Cashier.cart s)))
                             (Err m)])).
Proof.
  unfold Cashier.placeOrder, stopsAtFailure.
  destruct (length (Cashier.cart s) =? 0)%nat; run_simpl.
  { intros [= <- <- <- <-]. repeat split; done. }
  destruct (truthy (Cashier.branchId s)) as [b|] eqn:Hb; run_simpl.
  2:{ revert r st' w' tr. answer_call. ended. repeat split; done. }
  revert r st' w' tr. answer_call. destruct x as [userId|]; run_simpl.
  2:{ answer_call. ended. repeat split; done. }
  answer_call; run_simpl.
  2:{ answer_call. ended. split; [done|]. split; [done|]. split; [done|].
      intros _. split; [done|]. exists m, b, userId. split; [done|]. split; [done|].
      left. done. }
  answer_call; run_simpl.
  2:{ answer_call. ended. split; [done|]. split; [done|]. split; [done|].
      intros _. split; [done|]. exists m, b, userId. split; [done|]. split; [done|].
      right. exists d. done. }
  answer_call. destruct d0. run_simpl. ended. repeat split; done.
Qed.


(** ** The cashier's cart *)

Section Cart.

Import Cashier.

Lemma inc_ids (i : string) (c : list CartLine) : map id (inc i c) = map id c.
Proof.
  unfold inc. rewrite map_map. apply map_ext. intros l.
  by destruct (String.eqb (id l) i).
Qed.

Lemma addToCart_found (item : MenuItem) (c : list CartLine) (idx : nat) (l : CartLine) :
  list_find (fun l => id l = m_id item) c = Some (idx, l) ->
  map id (addToCart item c) = map id c
  /\ Forall2 (fun a b => id b = id a /\ (1 <= qty a -> 1 <= qty b)) c (addToCart item c).
Proof.
  intros Hf. unfold addToCart. rewrite Hf.
  apply list_find_Some in Hf as (Hl & Hid & _). split.
  - change (map id) with (fmap (M:=list) id).
    rewrite list_fmap_insert. cbn [withQty id]. apply list_insert_id.
    by rewrite list_lookup_fmap, Hl.
  - revert idx Hl. induction c as [|a c IH]; intros [|idx] Hl; try done.
    + cbn in Hl. injection Hl as ->. cbn. constructor.
      * cbn. split; [done|]. intros Hq. by apply addInt_one.
      * apply Forall2_same_length_lookup_2; [done|]. intros k x y Hx Hy.
        rewrite Hx in Hy. by injection Hy as <-.
    + cbn. constructor; [done|]. by apply IH.
Qed.

Lemma dec_ids_sublist (i : string) (c : list CartLine) :
  sublist (map id (dec i c)) (map id c).
Proof.
  unfold dec. induction c as [|l c IH]; [done|]. cbn [map]. rewrite filter_cons.
  destruct (decide _).
  - cbn [map].
    replace (id (if String.eqb (id l) i then withQty l (Num.addInt (qty l) (-1)) else l))
      with (id l) by (by destruct (String.eqb (id l) i)).
    by apply sublist_skip.
  - by apply sublist_cons.
Qed.

(** X9.  The cart operations keep the cart well formed: when every line
    has a quantity of at least one and no two lines share an item, the same
    holds after [addToCart], after [inc] and after [dec]. *)
Theorem cart_operations_keep_cart_ok (item : MenuItem) (i : string) (c : list CartLine) :
  cartOk c ->
  cartOk (addToCart item c) /\ cartOk (inc i c) /\ cartOk (dec i c).
Proof.
  intros [Hq Hd]. split; [|split].
  - destruct (list_find (fun l => id l = m_id item) c) as [[idx l]|] eqn:Hf.
    + destruct (addToCart_found _ _ _ _ Hf) as [Hids Hle]. split.
      * clear Hids Hf Hd. induction Hle as [|a b c c' [_ Hab] _ IH]; [constructor|].
        apply Forall_cons in Hq as [Ha Hq]. constructor; [by apply Hab|]. by apply IH.
      * by rewrite Hids.
    + unfold addToCart. rewrite Hf. split.
      * apply Forall_app. split; [done|]. repeat constructor. cbn. lia.
      * rewrite map_app. cbn [map id]. apply NoDup_app. split; [done|]. split.
        -- intros x Hx Hx'. apply list_elem_of_singleton in Hx' as ->.
           apply list_elem_of_fmap in Hx as (l & Hl & Hin).
           apply list_find_None in Hf. rewrite Forall_forall in Hf.
           by apply (Hf l).
        -- apply NoDup_singleton.
  - split; [|by rewrite inc_ids]. unfold inc. apply Forall_map.
    eapply Forall_impl; [exact Hq|]. intros l Hl. cbn in *.
    destruct (String.eqb (id l) i); cbn; [by apply addInt_one|done].
  - split.
    + unfold dec. apply Forall_forall. intros l Hl.
      apply list_elem_of_filter in Hl as [Hpos _]. lia.
    + exact (sublist_NoDup _ _ Hd (dec_ids_sublist i c)).
Qed.

Lemma cartOk_cons (a : CartLine) (c : list CartLine) :
  cartOk (a :: c) -> 1 <= qty a /\ (id a ∉ map id c) /\ cartOk c.
Proof.
  intros [Hq Hd]. apply Forall_cons in Hq as [Ha Hq].
  pose proof (proj1 (NoDup_cons (id a) (map id c)) Hd) as [Hnot Hd'].
  done.
Qed.

Lemma dec_absent (i : string) (c : list CartLine) :
  Forall (fun l => 1 <= qty l) c -> i ∉ map id c -> dec i c = c.
Proof.
  unfold dec. induction c as [|b c IH]; [done|]. intros Hq Hnot.
  apply Forall_cons in Hq as [Hb Hq]. cbn [map] in *.
  apply not_elem_of_cons in Hnot as [Hne Hnot].
  destruct (String.eqb_spec (id b) i) as [He|_]; [by destruct Hne|].
  rewrite filter_cons. destruct (decide _) as [_|Hn]; [|lia].
  f_equal. by apply IH.
Qed.

Lemma dec_cons (i : string) (b : CartLine) (c : list CartLine) :
  dec i (b :: c)
  = ((if String.eqb (id b) i
      then (if decide (0 < Num.addInt (qty b) (-1))
            then [withQty b (Num.addInt (qty b) (-1))] else [])
      else (if decide (0 < qty b) then [b] else [])) ++ dec i c)%list.
Proof.
  unfold dec. cbn [map]. rewrite filter_cons.
  destruct (String.eqb (id b) i); cbn [withQty qty]; by destruct (decide _).
Qed.

(** One more and one less: below 2^53 the two sums are exact, so the
    quantity comes back. *)
Lemma addInt_one_back (q : Z) :
  1 <= q -> q < 2 ^ 53 ->
  0 < Num.addInt (Num.addInt q 1) (-1) /\ Num.addInt (Num.addInt q 1) (-1) = q.
Proof.
  intros Hq Hlt. destruct (addInt_one q Hq) as [_ Hone]. rewrite (Hone Hlt).
  destruct (addInt_minus_one (q + 1) ltac:(lia)) as [_ Hback].
  rewrite Hback by lia. lia.
Qed.

(** X10.  Minus undoes plus while quantities stay below 2^53 (where adding
    one to a number is exact): on a well-formed cart with every quantity
    below 2^53, [dec] of an item just added by [addToCart] gives back the
    cart as it was (a new line is removed again, an existing line gets its
    quantity back), and [dec] after [inc] on the same item gives back the
    cart as it was. *)
Theorem dec_undoes_add (item : MenuItem) (i : string) (c : list CartLine) :
  cartOk c ->
  Forall (fun l => qty l < 2 ^ 53) c ->
  dec (m_id item) (addToCart item c) = c /\ dec i (inc i c) = c.
Proof.
  intros Hok Hsmall. split.
  - unfold addToCart.
    destruct (list_find (fun l => id l = m_id item) c) as [[idx l]|] eqn:Hf.
    + apply list_find_Some in Hf as (Hl & Hid & _).
      revert idx Hl. induction c as [|a c IH]; intros [|idx] Hl; try done.
      * cbn in Hl. injection Hl as ->.
        apply cartOk_cons in Hok as (Ha & Hnot & [Hq _]).
        apply Forall_cons in Hsmall as [Hlt _].
        destruct (addInt_one_back (qty l) Ha Hlt) as [Hpos Hback].
        change (<[0%nat:=withQty l (Num.addInt (qty l) 1)]> (l :: c))
          with (withQty l (Num.addInt (qty l) 1) :: c).
        rewrite dec_cons. cbn [withQty id qty]. rewrite Hid, String.eqb_refl.
        destruct (decide _) as [_|Hn]; [|done]. cbn [app]. f_equal.
        -- rewrite Hback. by destruct l.
        -- apply dec_absent; [done|]. by rewrite <- Hid.
      * cbn in Hl. apply cartOk_cons in Hok as (Ha & Hnot & Hok).
        apply Forall_cons in Hsmall as [_ Hsmall].
        change (<[S idx:=withQty l (Num.addInt (qty l) 1)]> (a :: c))
          with (a :: <[idx:=withQty l (Num.addInt (qty l) 1)]> c).
        rewrite dec_cons.
        destruct (String.eqb_spec (id a) (m_id item)) as [He|_].
        { exfalso. apply Hnot. rewrite He, <- Hid.
          apply list_elem_of_fmap. exists l. split; [done|].
          by eapply list_elem_of_lookup_2. }
        destruct (decide _) as [_|Hn]; [|lia]. cbn [app]. f_equal. by apply IH.
    + apply list_find_None in Hf. destruct Hok as [Hq _]. unfold dec.
      rewrite map_app, filter_app.
      cbn [map id]. rewrite String.eqb_refl. cbn [withQty qty]. rewrite filter_cons.
      destruct (decide _) as [Hp|_]; [by vm_compute in Hp|].
      rewrite filter_nil, app_nil_r.
      apply (dec_absent (m_id item) c Hq).
      intros Hin. apply list_elem_of_fmap in Hin as (l & Hl & Hin).
      rewrite Forall_forall in Hf. by apply (Hf l).
  - destruct Hok as [Hq _]. unfold inc.
    induction c as [|b c IH]; [done|]. cbn [map].
    apply Forall_cons in Hq as [Hb Hq]. apply Forall_cons in Hsmall as [Hlt Hsmall].
    rewrite dec_cons.
    destruct (String.eqb_spec (id b) i) as [He|Hne].
    + cbn [withQty id qty]. destruct (String.eqb_spec (id b) i) as [_|?]; [|done].
      destruct (addInt_one_back (qty b) Hb Hlt) as [Hpos Hback].
      destruct (decide _) as [_|Hn]; [|done]. cbn [app].
      f_equal; [rewrite Hback; by destruct b|]. by apply IH.
    + destruct (String.eqb_spec (id b) i) as [?|_]; [done|].
      destruct (decide _) as [_|Hn]; [|lia]. cbn [app]. f_equal. by apply IH.
Qed.

(** At [2^53] the bound on the quantities is needed: plus leaves such a
    quantity as it is, and minus then lowers it. *)
Lemma dec_after_inc_at_limit :
  map qty (dec "A" (inc "A" [{| id := "A"; name := "Item A"; price := 50%float;
                                qty := 2 ^ 53 |}]))
  = [2 ^ 53 - 1].
Proof. by vm_compute. Qed.

(** X11.  Minus on a line of quantity one removes the line: on a
    well-formed cart, after [dec] of an item whose line has quantity 1 no
    line is left for that item, and the lines of every other item are as
    before. *)
Theorem dec_removes_last_unit (i : string) (c : list CartLine) (l : CartLine) :
  cartOk c -> l ∈ c -> id l = i -> qty l = 1 ->
  (i ∉ map id (dec i c))
  /\ forall k, k <> i -> filter (fun x => id x = k) (dec i c) = filter (fun x => id x = k) c.
Proof.
  intros [Hq Hd] Hin Hid Hone. split.
  - intros Hi. apply list_elem_of_fmap in Hi as (x & Hx & Hxin).
    unfold dec in Hxin. apply list_elem_of_filter in Hxin as [Hpos Hxin].
    apply list_elem_of_fmap in Hxin as (y & -> & Hy).
    destruct (String.eqb_spec (id y) i) as [He|Hne]; [|done].
    assert (y = l) as ->.
    { apply list_elem_of_lookup in Hy as [a Ha]. apply list_elem_of_lookup in Hin as [b Hb].
      assert (a = b) as ->; [|congruence].
      eapply NoDup_lookup; [exact Hd| |].
      - change (map id) with (fmap (M:=list) id). by rewrite list_lookup_fmap, Ha.
      - change (map id) with (fmap (M:=list) id). rewrite list_lookup_fmap, Hb.
        cbn. congruence. }
    cbn in Hpos. rewrite Hone in Hpos. by vm_compute in Hpos.
  - intros k Hk. clear Hd Hin. unfold dec.
    induction c as [|b c IH]; [done|]. cbn [map].
    apply Forall_cons in Hq as [Hb Hq]. rewrite filter_cons.
    destruct (String.eqb_spec (id b) i) as [He|Hne].
    + cbn [withQty qty]. rewrite (filter_cons _ b).
      destruct (decide (id b = k)) as [?|_]; [congruence|].
      destruct (decide _).
      * rewrite filter_cons. cbn [withQty id].
        destruct (decide (id b = k)) as [?|_]; [congruence|]. by apply IH.
      * by apply IH.
    + destruct (decide _) as [_|Hn]; [|lia]. rewrite !filter_cons.
      destruct (decide (id b = k)); [f_equal|]; by apply IH.
Qed.

End Cart.
(** ** The CSV export, read back *)

Section CsvReading.

Import Dashboard.

Lemma includes_false_cons (c a : ascii) (s : string) :
  includes c (String a s) = false -> Ascii.eqb a c = false /\ includes c s = false.
Proof. cbn [includes]. intros H. by apply orb_false_elim in H. Qed.

(** What ends a field: the end of the text, a comma, a line feed. *)
Lemma read_end (st : csvState) (cur : string) (row : list string) :
  readFrom st cur row EmptyString = [(row ++ [cur])%list].
Proof. reflexivity. Qed.

Lemma read_comma (st : csvState) (cur : string) (row : list string) (r : string) :
  outsideQuotes st = true ->
  readFrom st cur row (String "," r) = readFrom FieldStart EmptyString (row ++ [cur])%list r.
Proof. by destruct st. Qed.

Lemma read_newline (st : csvState) (cur : string) (row : list string) (r : string) :
  outsideQuotes st = true ->
  readFrom st cur row (String newlineChar r)
  = (row ++ [cur])%list :: readFrom FieldStart EmptyString [] r.
Proof. by destruct st. Qed.

Lemma read_plainChar (st : csvState) (c : ascii) (cur : string) (row : list string)
    (r : string) :
  isQuoted st = false -> plainChar c = true ->
  readFrom st cur row (String c r) = readFrom Unquoted (cur +:+ String c EmptyString) row r.
Proof.
  unfold plainChar. intros Hst Hc. apply negb_true_iff in Hc.
  apply orb_false_elim in Hc as [Hc Hcr]. apply orb_false_elim in Hc as [Hc Hn].
  apply orb_false_elim in Hc as [Hq Hc].
  cbn [readFrom]. by rewrite Hst, Hq, Hc, Hn, Hcr.
Qed.

(** An unquoted run of plain characters is read to its end. *)
Lemma read_plain (f cur : string) (row : list string) (rest : string) :
  forallb plainChar (list_ascii_of_string f) = true ->
  readFrom Unquoted cur row (f +:+ rest) = readFrom Unquoted (cur +:+ f) row rest.
Proof.
  revert cur. induction f as [|c f IH]; intros cur Hf.
  - by rewrite append_nil_l, append_nil_r.
  - cbn in Hf. apply andb_true_iff in Hf as [Hc Hf]. rewrite append_cons.
    rewrite read_plainChar, IH by done.
    by rewrite append_assoc, append_cons, append_nil_l.
Qed.

(** A quoted field with its quotes doubled is read up to the closing
    quote. *)
Lemma read_quoted (f cur : string) (row : list string) (rest : string) :
  readFrom Quoted cur row (doubleQuotes f +:+ String quoteChar rest)
  = readFrom QuoteSeen (cur +:+ f) row rest.
Proof.
  revert cur. induction f as [|c f IH]; intros cur.
  - cbn [doubleQuotes]. rewrite append_nil_l, append_nil_r. reflexivity.
  - cbn [doubleQuotes]. destruct (Ascii.eqb c quoteChar) eqn:Hq.
    + apply Ascii.eqb_eq in Hq as ->. rewrite !append_cons. cbn [readFrom isQuoted].
      rewrite !Ascii.eqb_refl. cbn [readFrom isQuoted atFieldStart isQuoteSeen andb].
      rewrite ?Ascii.eqb_refl. cbn [andb]. rewrite IH.
      by rewrite append_assoc, append_cons, append_nil_l.
    + rewrite append_cons. cbn [readFrom isQuoted]. rewrite Hq, IH.
      by rewrite append_assoc, append_cons, append_nil_l.
Qed.

Lemma escapeCsv_plain (f : string) :
  includes quoteChar f = false -> includes "," f = false ->
  includes newlineChar f = false -> escapeCsv f = f.
Proof. unfold escapeCsv. by intros -> -> ->. Qed.

Lemma escapeCsv_quoted (f : string) :
  includes quoteChar f || includes "," f || includes newlineChar f = true ->
  escapeCsv f = String quoteChar (doubleQuotes f +:+ String quoteChar EmptyString).
Proof. unfold escapeCsv. by intros ->. Qed.

Lemma plain_of_includes (f : string) :
  includes quoteChar f = false -> includes "," f = false ->
  includes newlineChar f = false -> includes crChar f = false ->
  forallb plainChar (list_ascii_of_string f) = true.
Proof.
  induction f as [|c f IH]; [done|]. intros Hq Hc Hn Hr.
  apply includes_false_cons in Hq as [Hq1 Hq2]. apply includes_false_cons in Hc as [Hc1 Hc2].
  apply includes_false_cons in Hn as [Hn1 Hn2]. apply includes_false_cons in Hr as [Hr1 Hr2].
  cbn. unfold plainChar at 1. by rewrite Hq1, Hc1, Hn1, Hr1, IH.
Qed.

(** One escaped field without a bare carriage return is read as the field,
    and the reader is then outside quotes. *)
Lemma read_escaped (f : string) (row : list string) (rest : string) :
  bareCR f = false ->
  exists st, outsideQuotes st = true
             /\ readFrom FieldStart EmptyString row (escapeCsv f +:+ rest)
                = readFrom st f row rest.
Proof.
  unfold bareCR. intros Hb.
  destruct (includes quoteChar f || includes "," f || includes newlineChar f) eqn:Hs.
  - exists QuoteSeen. split; [done|]. rewrite escapeCsv_quoted by done.
    rewrite !append_cons. cbn [readFrom isQuoted atFieldStart andb].
    rewrite Ascii.eqb_refl. cbn [andb].
    by rewrite append_assoc, append_cons, append_nil_l, read_quoted, append_nil_l.
  - rewrite andb_true_r in Hb.
    apply orb_false_elim in Hs as [Hs Hn]. apply orb_false_elim in Hs as [Hq Hc].
    rewrite escapeCsv_plain by done.
    pose proof (plain_of_includes f Hq Hc Hn Hb) as Hp.
    destruct f as [|c f].
    + exists FieldStart. split; [done|]. by rewrite append_nil_l.
    + exists Unquoted. split; [done|]. cbn in Hp. apply andb_true_iff in Hp as [Hc1 Hp].
      rewrite append_cons, read_plainChar, read_plain by done.
      by rewrite !append_nil_l.
Qed.

Lemma rowText_cons2 (f g : string) (fs : list string) :
  rowText (f :: g :: fs) = escapeCsv f +:+ String "," (rowText (g :: fs)).
Proof. reflexivity. Qed.

(** A row of escaped fields is read as its fields, at the end of the text
    and before a line feed. *)
Lemma read_row (fs : list string) :
  fs <> [] -> Forall (fun f => bareCR f = false) fs ->
  forall row,
    readFrom FieldStart EmptyString row (rowText fs) = [(row ++ fs)%list]
    /\ forall r,
         readFrom FieldStart EmptyString row (rowText fs +:+ String newlineChar r)
         = (row ++ fs)%list :: readFrom FieldStart EmptyString [] r.
Proof.
  induction fs as [|f fs IH]; [done|]. intros _ Hok row.
  apply Forall_cons in Hok as [Hf Hok]. destruct fs as [|g fs].
  - change (rowText [f]) with (escapeCsv f). split.
    + destruct (read_escaped f row EmptyString Hf) as (st & Hst & Hread).
      rewrite append_nil_r in Hread. by rewrite Hread.
    + intros r. destruct (read_escaped f row (String newlineChar r) Hf) as (st & Hst & ->).
      by apply read_newline.
  - rewrite rowText_cons2.
    destruct (IH ltac:(done) Hok (row ++ [f])%list) as [IH1 IH2].
    rewrite <- !app_assoc in IH1, IH2. cbn [app] in IH1, IH2. split.
    + destruct (read_escaped f row (String "," (rowText (g :: fs))) Hf) as (st & Hst & ->).
      by rewrite read_comma.
    + intros r. rewrite append_assoc, append_cons.
      destruct (read_escaped f row (String "," (rowText (g :: fs) +:+ String newlineChar r)) Hf)
        as (st & Hst & ->).
      by rewrite read_comma.
Qed.

(** The rows of a text made by [csvText] are read as they were. *)
Lemma read_rows (rows : list (list string)) :
  rows <> [] -> Forall (fun row => row <> []) rows ->
  Forall (Forall (fun f => bareCR f = false)) rows ->
  readCsv (csvText rows) = rows.
Proof.
  unfold readCsv, csvText. induction rows as [|fs rows IH]; [done|]. intros _ Hne Hok.
  apply Forall_cons in Hne as [Hfs Hne]. apply Forall_cons in Hok as [Hf Hok].
  destruct (read_row fs Hfs Hf []) as [Hlast Hnext]. destruct rows as [|gs rows].
  - exact Hlast.
  - cbn [map]. fold (rowText fs).
    change (String.concat (String newlineChar EmptyString)
              (rowText fs :: String.concat "," (map escapeCsv gs)
                 :: map (fun row => String.concat "," (map escapeCsv row)) rows))
      with (rowText fs +:+ String newlineChar
              (String.concat (String newlineChar EmptyString)
                 (map (fun row => String.concat "," (map escapeCsv row)) (gs :: rows)))).
    rewrite Hnext, IH by done. reflexivity.
Qed.

Lemma readFrom_nonempty (s : string) (st : csvState) (cur : string) (row : list string) :
  (1 <= length (readFrom st cur row s))%nat.
Proof.
  revert st cur row. induction s as [|c s IH]; intros st cur row; [cbn; lia|].
  cbn [readFrom].
  repeat match goal with
         | |- context [if ?b then _ else _] => destruct b
         end; cbn [length]; try apply IH; lia.
Qed.

(** A field with a bare carriage return is read as more than one
    record. *)
Lemma read_bareCR (f : string) (st : csvState) (cur : string) (row : list string) :
  isQuoted st = false -> bareCR f = true ->
  (2 <= length (readFrom st cur row f))%nat.
Proof.
  unfold bareCR. intros Hst Hb. apply andb_true_iff in Hb as [Hr Hb].
  apply negb_true_iff in Hb.
  apply orb_false_elim in Hb as [Hb Hn]. apply orb_false_elim in Hb as [Hq Hc].
  revert st cur row Hst. induction f as [|c f IH]; intros st cur row Hst; [done|].
  apply includes_false_cons in Hq as [Hq1 Hq2]. apply includes_false_cons in Hc as [Hc1 Hc2].
  apply includes_false_cons in Hn as [Hn1 Hn2].
  cbn [readFrom]. rewrite Hst, Hq1, Hc1, Hn1. cbn [andb].
  destruct (Ascii.eqb c crChar) eqn:Hcr.
  - cbn [length]. pose proof (readFrom_nonempty f AfterCR EmptyString []). lia.
  - cbn [includes] in Hr. rewrite Hcr in Hr. by apply IH.
Qed.

(** X12.  [escapeCsv] loses nothing but a bare carriage return.  Rows of
    fields, each field passed through [escapeCsv], the fields of a row
    joined by commas and the rows by line feeds as [exportCsv] does, are
    read back by a CSV reader (fields between commas, records ended by a
    line feed, a carriage return or the two together, quoted fields with
    their quotes doubled) as the very rows, whatever commas, quotes and line
    feeds the fields hold, provided no field holds a carriage return without
    also holding a comma, a quote or a line feed.  Such a field [escapeCsv]
    leaves unquoted, and alone in a file it is read as two records or
    more. *)
Theorem escapeCsv_round_trip (rows : list (list string)) :
  rows <> [] -> Forall (fun row => row <> []) rows ->
  (Forall (Forall (fun f => bareCR f = false)) rows -> readCsv (csvText rows) = rows)
  /\ forall f, bareCR f = true ->
       escapeCsv f = f /\ (2 <= length (readCsv (csvText [[f]])))%nat.
Proof.
  intros Hne Hrows. split; [by apply read_rows|].
  intros f Hb.
  assert (escapeCsv f = f) as He.
  { unfold bareCR in Hb. apply andb_true_iff in Hb as [_ Hb]. apply negb_true_iff in Hb.
    unfold escapeCsv. by rewrite Hb. }
  split; [done|]. unfold readCsv, csvText. cbn [map String.concat]. rewrite He.
  by apply read_bareCR.
Qed.

(** *** Grouping the lines by order *)

Lemma linesByOrder_lookup (lines : list Line) (k : string) :
  default [] (linesByOrder lines !! k) = filter (fun l => order_id l = k) lines.
Proof.
  unfold linesByOrder. induction lines as [|x lines IH] using rev_ind; [done|].
  rewrite foldl_snoc, filter_app, filter_cons, filter_nil.
  destruct (decide (order_id x = k)) as [<-|Hne].
  - rewrite lookup_insert_eq. cbn [default]. by rewrite IH.
  - rewrite lookup_insert_ne by done. by rewrite IH, app_nil_r.
Qed.

Section ExportRows.

Variable sort : (Order -> Order -> Z) -> list Order -> list Order.
Variable toStringLarge : float -> string.

(** The rows of one order: a placeholder when no line has its id,
    otherwise one row per line with its id, in the order of [lines]. *)
Lemma orderRows_grouped (names : gmap string string) (lines : list Line) (o : Order) :
  orderRows toStringLarge names (linesByOrder lines) o
  = match filter (fun l => order_id l = id o) lines with
    | [] => [map escapeCsv (rowValues toStringLarge names o None)]
    | ls => map (fun l => map escapeCsv (rowValues toStringLarge names o (Some l))) ls
    end.
Proof.
  unfold orderRows. rewrite linesByOrder_lookup.
  destruct (filter _ lines) as [|l ls]; reflexivity.
Qed.

Lemma dataRows_grouped (bs : list Owner.Branch) (orders : list Order)
    (lines : list Line) :
  dataRows sort toStringLarge bs orders lines
  = concat (map (fun o =>
       match filter (fun l => order_id l = id o) lines with
       | [] => [map escapeCsv (rowValues toStringLarge (Owner.branchNameById bs) o None)]
       | ls => map (fun l => map escapeCsv
                               (rowValues toStringLarge (Owner.branchNameById bs) o (Some l))) ls
       end) (sort newestFirst orders)).
Proof.
  unfold dataRows. f_equal. apply map_ext. intros o. apply orderRows_grouped.
Qed.

(** X13.  The data rows of [exportCsv] go order by order, in the sorted
    order of the orders: an order without lines gives one row with its five
    order fields and three empty fields, an order with lines gives one row
    per line, in the order the lines were loaded, each repeating the order
    fields; so the number of data rows is the sum over the orders of the
    number of lines, counted as one for an order without lines. *)
Theorem export_groups_lines_by_order (bs : list Owner.Branch) (orders : list Order)
    (lines : list Line) :
  dataRows sort toStringLarge bs orders lines
  = concat (map (fun o =>
       match filter (fun l => order_id l = id o) lines with
       | [] => [map escapeCsv (rowValues toStringLarge (Owner.branchNameById bs) o None)]
       | ls => map (fun l => map escapeCsv
                               (rowValues toStringLarge (Owner.branchNameById bs) o (Some l))) ls
       end) (sort newestFirst orders))
  /\ length (dataRows sort toStringLarge bs orders lines)
     = sum_list (map (fun o => Nat.max 1 (length (filter (fun l => order_id l = id o) lines)))
                     (sort newestFirst orders)).
Proof.
  split; [apply dataRows_grouped|]. unfold dataRows.
  induction (sort newestFirst orders) as [|o os IH]; [done|].
  cbn [map concat sum_list sum_list_with]. rewrite length_app, IH, orderRows_grouped.
  f_equal. destruct (filter _ lines) as [|l ls]; [done|]. by rewrite length_map.
Qed.





End ExportRows.

End CsvReading.

(** ** The password route *)

Section Bearer.

Import Route.

Variable toNumberOfText : Json -> float.

Lemma prefix_app (p s : string) : String.prefix p s = true -> exists t, s = p +:+ t.
Proof.
  revert s. induction p as [|c p IH]; intros s H; [by exists s|].
  destruct s as [|d s]; [done|]. cbn in H.
  destruct (ascii_dec c d) as [->|]; [|done].
  destruct (IH s H) as [t ->]. by exists t.
Qed.

Lemma toLowerCase_app_inv (s p t : string) :
  toLowerCase s = p +:+ t ->
  exists a b, s = a +:+ b /\ toLowerCase a = p /\ toLowerCase b = t.
Proof.
  revert s. induction p as [|c p IH]; intros s H.
  - by exists EmptyString, s.
  - destruct s as [|d s]; [done|]. rewrite append_cons in H. cbn [toLowerCase] in H.
    injection H as Hc H. destruct (IH s H) as (a & b & -> & Ha & Hb).
    exists (String d a), b. rewrite append_cons. cbn [toLowerCase]. by rewrite Hc, Ha.
Qed.

Lemma trimStart_blank (s : string) : blank s -> trimStart s = EmptyString.
Proof. induction s as [|c s IH]; [done|]. intros [Hc Hs]. cbn. rewrite Hc. by apply IH. Qed.

Lemma trim_blank (s : string) : blank s -> trim s = EmptyString.
Proof. intros H. unfold trim. by rewrite (trimStart_blank s H). Qed.

(** A header that carries a token is made of the scheme and a rest. *)
Lemma getBearer_shape (h : option string) (tok : string) :
  getBearer h = Some tok ->
  exists scheme t,
    h = Some (scheme +:+ t) /\ toLowerCase scheme = "bearer " /\ tok = trim t.
Proof.
  intros Hg.
  assert (String.prefix "bearer " (toLowerCase (default EmptyString (truthy h))) = true)
    as Hp.
  { unfold getBearer in Hg. by destruct (String.prefix _ _). }
  apply prefix_app in Hp as [t' Ht'].
  apply toLowerCase_app_inv in Ht' as (a & b & Hh & Ha & _).
  assert (h = Some (a +:+ b)) as ->.
  { destruct h as [[|c s]|]; cbn [truthy default] in Hh.
    - by destruct a.
    - cbn in Hh. by rewrite Hh.
    - by destruct a. }
  rewrite (getBearer_accepts a b Ha) in Hg. injection Hg as <-.
  by exists a, b.
Qed.

(** X15.  [getBearer] gives a token exactly for the headers made of the
    word [bearer] in any letter case, one space, and a rest; the token is
    that rest with the white space around it trimmed.  An absent header and
    a header of any other shape give none. *)
Theorem getBearer_token (h : option string) (tok : string) :
  getBearer h = Some tok
  <-> exists scheme t,
        h = Some (scheme +:+ t) /\ toLowerCase scheme = "bearer " /\ tok = trim t.
Proof.
  split.
  - apply getBearer_shape.
  - intros (scheme & t & -> & Hs & ->). by apply getBearer_accepts.
Qed.

(** X16.  A request without a token is answered 401 with
    [Missing auth token], whatever the environment and the services would
    answer: when the header is absent, when it does not start with the word
    [bearer] and a space, and when only white space follows them. *)
Theorem POST_without_token (req : Request) (env : Env) (sv : Services) :
  (authorization req = None
   \/ (exists h, authorization req = Some h
                 /\ String.prefix "bearer " (toLowerCase h) = false)
   \/ (exists scheme ws, authorization req = Some (scheme +:+ ws)
                         /\ toLowerCase scheme = "bearer " /\ blank ws)) ->
  POST toNumberOfText req env sv = fail 401 "Missing auth token".
Proof.
  intros H. unfold POST.
  assert (truthy (getBearer (authorization req)) = None) as ->; [|done].
  destruct H as [->|[(h & -> & Hp)|(scheme & ws & -> & Hs & Hws)]]; [done| |].
  - by rewrite (getBearer_rejects h Hp).
  - rewrite (getBearer_accepts scheme ws Hs). by rewrite trim_blank.
Qed.

Lemma truthy_some (v : option string) (s : string) :
  truthy v = Some s -> v = Some s /\ s <> EmptyString.
Proof. destruct v as [[|c t]|]; [done| |done]. by intros [= <-]. Qed.

(** X17.  [POST] answers 200 only when everything was in order: the header
    is the word [bearer] in any letter case, a space and a token that is not
    blank; both public variables are set; the token belongs to a user whose
    profile has the role [owner]; the body was read and has a [mode] and a
    [newPassword] that are not falsy; [newPassword.length < 8] does not
    hold, which for a string means at least 8 characters (the handler does
    not test that the password is a string: a number or [true] has no
    length and passes this test too); and the password update that succeeded
    got the password as it was parsed, on the configured cashier account
    when the mode is the string [cashier] and on the caller's own account for
    every other mode.  The body of the answer is then the [ok] body. *)
Theorem POST_ok_only_for_owner (req : Request) (env : Env) (sv : Services) :
  status (POST toNumberOfText req env sv) = 200 ->
  body (POST toNumberOfText req env sv) = OkBody
  /\ exists scheme rest url anon callerId b md pw target,
       authorization req = Some (scheme +:+ rest)
       /\ toLowerCase scheme = "bearer "
       /\ trim rest <> EmptyString
       /\ truthy (NEXT_PUBLIC_SUPABASE_URL env) = Some url
       /\ truthy (NEXT_PUBLIC_SUPABASE_ANON_KEY env) = Some anon
       /\ getUser sv url anon (trim rest) = Ok (Some callerId)
       /\ profileRole sv callerId = Ok (Some "owner")
       /\ json req = Returned b
       /\ property "mode" b = Some md
       /\ truthyJson (Some md) = true
       /\ property "newPassword" b = Some pw
       /\ truthyJson (Some pw) = true
       /\ lengthBelow8 toNumberOfText pw = false
       /\ (forall s, pw = JString s -> (8 <= length s)%nat)
       /\ (if isString "cashier" md
           then exists v, cashierUserId sv = Ok v /\ truthy v = Some target
           else target = callerId)
       /\ updateUserById sv target pw = None.
Proof.
  unfold POST.
  destruct (truthy (getBearer _)) as [token|] eqn:Htok; [|done].
  apply truthy_some in Htok as [Hg Hne].
  apply getBearer_shape in Hg as (scheme & rest & Hh & Hs & ->).
  destruct (truthy (NEXT_PUBLIC_SUPABASE_URL env)) as [url|]; [|done].
  destruct (truthy (NEXT_PUBLIC_SUPABASE_ANON_KEY env)) as [anon|]; [|done].
  destruct (getUser sv url anon (trim rest)) as [[callerId|]|] eqn:Hu; try done.
  destruct (profileRole sv callerId) as [prof|] eqn:Hp; [|done].
  destruct (bool_decide_reflect (prof = Some "owner")) as [->|]; [|done].
  cbn [negb]. destruct (json req) as [b|] eqn:Hj; [|done]. cbv zeta.
  destruct (property "mode" b) as [md|] eqn:Hm; [|done].
  destruct (property "newPassword" b) as [pw|] eqn:Hpw; [|done].
  destruct (truthyJson (Some md)) eqn:Htm; [|done].
  destruct (truthyJson (Some pw)) eqn:Htp; [|done]. cbn [negb orb].
  destruct (lengthBelow8 toNumberOfText pw) eqn:Hlen; [done|].
  assert (forall s, pw = JString s -> (8 <= length s)%nat) as Hstr.
  { intros s ->. cbn [lengthBelow8] in Hlen. by apply Nat.ltb_ge in Hlen. }
  destruct (isString "cashier" md) eqn:Hmd.
  - destruct (cashierUserId sv) as [v|] eqn:Hc; [|done].
    destruct (truthy v) as [target|] eqn:Hv; [|done].
    unfold update. destruct (updateUserById sv target pw) eqn:Hupd; [done|].
    intros _. split; [done|].
    exists scheme, rest, url, anon, callerId, b, md, pw, target.
    rewrite Hmd. repeat split; try done. by exists v.
  - unfold update. destruct (updateUserById sv callerId pw) eqn:Hupd; [done|].
    intros _. split; [done|].
    exists scheme, rest, url, anon, callerId, b, md, pw, callerId. rewrite Hmd. done.
Qed.

(** A password that is a number is not refused for its length: the
    request is answered 200 and the number is what the update gets. *)
Lemma POST_number_password :
  let sv := {| getUser := getUser sampleServices;
               profileRole := profileRole sampleServices;
               cashierUserId := cashierUserId sampleServices;
               updateUserById := fun _ pw =>
                 match pw with JNumber _ => None | _ => Some "not reached" end |} in
  POST noNumber (requestWith (Returned (sampleBody "owner" (JNumber 1234%float))))
       sampleEnv sv
  = {| status := 200; body := OkBody |}.
Proof. reflexivity. Qed.

End Bearer.

(** ** The reports of the dashboard *)

Section ReportsProperties.

Import Reports.

(** X18.  The payment split is made of the sales total of the orders paid
    in cash and the sales total of the orders paid by GCash, each added up in
    the order of the orders as [totalSales] adds up; an order of any other
    payment type counts in neither. *)
Theorem paymentSplit_totals (orders : list Dashboard.Order) :
  paymentSplit orders
  = (totalSales (filter (fun o => Dashboard.payment_type o = "CASH") orders),
     totalSales (filter (fun o => Dashboard.payment_type o = "GCASH") orders)).
Proof.
  unfold paymentSplit, totalSales. generalize 0%float at 1 3. generalize 0%float.
  induction orders as [|o os IH]; intros b a; [done|].
  cbn [fold_left]. rewrite !filter_cons.
  destruct (String.eqb_spec (Dashboard.payment_type o) "CASH") as [He|Hne].
  - rewrite IH. cbn [fst snd]. rewrite He.
    destruct (decide ("CASH" = "CASH")) as [_|?]; [|done].
    destruct (decide ("CASH" = "GCASH")) as [?|_]; done.
  - destruct (decide (Dashboard.payment_type o = "CASH")) as [?|_]; [done|].
    destruct (String.eqb_spec (Dashboard.payment_type o) "GCASH") as [He|Hne'].
    + rewrite IH. cbn [fst snd].
      destruct (decide (Dashboard.payment_type o = "GCASH")) as [_|?]; done.
    + rewrite IH.
      destruct (decide (Dashboard.payment_type o = "GCASH")) as [?|_]; done.
Qed.

Lemma mapGet_mapSet {V} (k k' : string) (v : V) (m : list (string * V)) :
  mapGet k' (mapSet k v m) = if decide (k' = k) then Some v else mapGet k' m.
Proof.
  induction m as [|[j x] m IH]; cbn [mapSet mapGet].
  - destruct (String.eqb_spec k k'), (decide (k' = k)); congruence.
  - destruct (String.eqb_spec j k) as [->|Hjk]; cbn [mapGet].
    + destruct (String.eqb_spec k k'), (decide (k' = k)); congruence.
    + destruct (String.eqb_spec j k') as [->|Hjk'].
      * destruct (decide (k' = k)); congruence.
      * exact IH.
Qed.

Lemma mapSet_keys {V} (k : string) (v : V) (m : list (string * V)) :
  map fst (mapSet k v m)
  = match mapGet k m with
    | Some _ => map fst m
    | None => (map fst m ++ [k])%list
    end.
Proof.
  induction m as [|[j x] m IH]; [done|]. cbn [mapSet mapGet].
  destruct (String.eqb_spec j k) as [->|Hjk]; [done|].
  cbn [map fst]. rewrite IH. by destruct (mapGet k m).
Qed.

Lemma mapGet_None {V} (k : string) (m : list (string * V)) :
  mapGet k m = None <-> k ∉ map fst m.
Proof.
  induction m as [|[j x] m IH]; cbn [mapGet map fst].
  - split; [intros _; apply not_elem_of_nil|done].
  - rewrite not_elem_of_cons. destruct (String.eqb_spec j k) as [->|Hjk].
    + split; [done|]. by intros [? _].
    + rewrite IH. split; [|by intros [_ ?]]. intros ?. split; [congruence|done].
Qed.

Lemma totalSales_snoc (os : list Dashboard.Order) (o : Dashboard.Order) :
  totalSales (os ++ [o])
  = (totalSales os + amount (Dashboard.total_amount o))%float.
Proof. unfold totalSales. by rewrite fold_left_app. Qed.

(** The map of [salesByBranch] after its loop: one key per branch that
    has an order, with the total and the count of its orders. *)
Lemma branchStats_per_branch (orders : list Dashboard.Order) :
  NoDup (map fst (branchStats orders))
  /\ forall b,
       mapGet b (branchStats orders)
       = match filter (fun o => Dashboard.branch_id o = b) orders with
         | [] => None
         | os => Some (totalSales os, Z.of_nat (length os))
         end.
Proof.
  unfold branchStats. induction orders as [|o os [IHd IH]] using rev_ind.
  - split; [constructor|done].
  - rewrite fold_left_app. cbn [fold_left].
    set (m := fold_left _ os []) in *. split.
    + rewrite mapSet_keys. destruct (mapGet (Dashboard.branch_id o) m) eqn:Hg; [done|].
      apply NoDup_app. split; [done|]. split; [|apply NoDup_singleton].
      intros x Hx Hx'. apply list_elem_of_singleton in Hx' as ->.
      by apply mapGet_None in Hg.
    + intros b. rewrite mapGet_mapSet, filter_app, filter_cons, filter_nil.
      destruct (decide (b = Dashboard.branch_id o)) as [->|Hne].
      * destruct (decide (Dashboard.branch_id o = Dashboard.branch_id o)) as [_|?]; [|done].
        rewrite IH.
        set (f := filter _ os).
        transitivity (Some (totalSales (f ++ [o]), Z.of_nat (length (f ++ [o]))));
          [|by destruct f].
        rewrite totalSales_snoc, length_app, Nat2Z.inj_add.
        by destruct f.
      * destruct (decide (Dashboard.branch_id o = b)) as [?|_]; [congruence|].
        by rewrite app_nil_r.
Qed.

Lemma mapGet_elem_of {V} (k : string) (v : V) (m : list (string * V)) :
  NoDup (map fst m) -> (k, v) ∈ m <-> mapGet k m = Some v.
Proof.
  induction m as [|[j x] m IH]; cbn [map fst mapGet]; intros Hd.
  - split; [|done]. intros H. by apply elem_of_nil in H.
  - apply NoDup_cons in Hd as [Hj Hd]. rewrite elem_of_cons, (IH Hd).
    destruct (String.eqb_spec j k) as [->|Hjk].
    + split.
      * intros [[= ->]|Hg]; [done|]. exfalso. apply Hj.
        apply (proj2 (IH Hd)) in Hg. apply list_elem_of_fmap. by exists (k, v).
      * intros [= ->]. by left.
    + split; [|by right]. intros [[= ? ?]|?]; [congruence|done].
Qed.

Section SortedRows.

Variable sort : (BranchRow -> BranchRow -> float) -> list BranchRow -> list BranchRow.
Hypothesis sort_permutes : forall cmp l, sort cmp l ≡ₚ l.

(** X19.  The sales-by-branch report has one row per branch that has an
    order and no other row: whenever the sort returns a permutation of its
    input, no two rows share a branch id, and a row is in the report exactly
    when some order is of its branch, its total is the sales total of the
    orders of its branch, its count is their number, and its name is the
    branch name, or the branch id when the branch is unknown. *)
Theorem salesByBranch_rows (bs : list Owner.Branch) (orders : list Dashboard.Order) :
  NoDup (map br_branch_id (salesByBranch sort bs orders))
  /\ forall row,
       row ∈ salesByBranch sort bs orders
       <-> (let os := filter (fun o => Dashboard.branch_id o = br_branch_id row) orders in
            os <> []
            /\ br_total row = totalSales os
            /\ br_count row = Z.of_nat (length os)
            /\ br_name row = default (br_branch_id row)
                               (Owner.branchNameById bs !! br_branch_id row)).
Proof.
  destruct (branchStats_per_branch orders) as [Hd Hget]. unfold salesByBranch. split.
  - change (map br_branch_id) with (fmap (M:=list) br_branch_id).
    rewrite (sort_permutes _ _). change (@map) with (@fmap list _).
    rewrite <- list_fmap_compose. exact Hd.
  - intros row. rewrite (sort_permutes _ _). change (@map) with (@fmap list _).
    rewrite list_elem_of_fmap. split.
    + intros ([k [t n]] & -> & Hin). cbn [fst snd br_branch_id br_total br_count br_name].
      apply (mapGet_elem_of _ _ _ Hd) in Hin. rewrite Hget in Hin.
      destruct (filter _ orders) as [|o os]; [done|]. injection Hin as <- <-. done.
    + cbn zeta. intros (Hne & Ht & Hn & Hname).
      exists (br_branch_id row, (br_total row, br_count row)). split.
      * destruct row. cbn in *. by rewrite Hname.
      * apply (mapGet_elem_of _ _ _ Hd). rewrite Hget.
        destruct (filter _ orders) as [|o os]; [done|]. by rewrite Ht, Hn.
Qed.

End SortedRows.

(** The map of [topItems] after its loop: one key per menu item that has
    a line, with the name of the first of its lines, and the quantity and the
    amount of its lines. *)
Lemma itemStats_per_item (lines : list Dashboard.Line) :
  NoDup (map fst (itemStats lines))
  /\ forall k,
       mapGet k (itemStats lines)
       = match filter (fun l => Dashboard.menu_item_id l = k) lines with
         | [] => None
         | l0 :: ls =>
             Some {| it_name := default "Unknown" (Dashboard.menu_items l0);
                     it_qty := linesQty (l0 :: ls);
                     it_amount := linesAmount (l0 :: ls) |}
         end.
Proof.
  unfold itemStats. induction lines as [|l ls [IHd IH]] using rev_ind.
  - split; [constructor|done].
  - rewrite fold_left_app. cbn [fold_left]. cbv zeta.
    set (m := fold_left _ ls []) in *. split.
    + rewrite mapSet_keys. destruct (mapGet (Dashboard.menu_item_id l) m) eqn:Hg; [done|].
      apply NoDup_app. split; [done|]. split; [|apply NoDup_singleton].
      intros x Hx Hx'. apply list_elem_of_singleton in Hx' as ->.
      by apply mapGet_None in Hg.
    + intros k. rewrite mapGet_mapSet, filter_app, filter_cons, filter_nil.
      destruct (decide (k = Dashboard.menu_item_id l)) as [->|Hne].
      * destruct (decide (Dashboard.menu_item_id l = Dashboard.menu_item_id l)) as [_|?];
          [|done].
        rewrite IH. destruct (filter _ ls) as [|l0 f]; [done|].
        cbn [app default it_name it_qty it_amount]. unfold linesQty, linesAmount.
        change (l0 :: (f ++ [l])%list) with ((l0 :: f) ++ [l])%list.
        by rewrite !fold_left_app.
      * destruct (decide (Dashboard.menu_item_id l = k)) as [?|_]; [congruence|].
        by rewrite app_nil_r.
Qed.

Section SortedItemRows.

Variable sort : (ItemRow -> ItemRow -> float) -> list ItemRow -> list ItemRow.
Hypothesis sort_permutes : forall cmp l, sort cmp l ≡ₚ l.

(** X23.  The top-items report has at most ten rows, and each is the row
    of a menu item that has a line: whenever the sort returns a permutation
    of its input, every row carries the name of the first line of its item
    ([Unknown] without one), the quantity of the lines of its item added up,
    and their amount added up in the order of the lines. *)
Theorem topItems_rows (lines : list Dashboard.Line) :
  (length (topItems sort lines) <= 10)%nat
  /\ forall row,
       row ∈ topItems sort lines ->
       exists k l0 ls,
         filter (fun l => Dashboard.menu_item_id l = k) lines = l0 :: ls
         /\ it_name row = default "Unknown" (Dashboard.menu_items l0)
         /\ it_qty row = linesQty (l0 :: ls)
         /\ it_amount row = linesAmount (l0 :: ls).
Proof.
  destruct (itemStats_per_item lines) as [Hd Hget]. unfold topItems. split.
  - rewrite length_take. lia.
  - intros row Hrow. apply elem_of_take in Hrow as (i & Hrow & _).
    apply list_elem_of_lookup_2 in Hrow. rewrite (sort_permutes _ _) in Hrow.
    apply list_elem_of_fmap in Hrow as ([k r] & -> & Hin).
    apply (mapGet_elem_of _ _ _ Hd) in Hin. rewrite Hget in Hin.
    destruct (filter _ lines) as [|l0 ls] eqn:Hf; [done|]. injection Hin as <-.
    exists k, l0, ls. done.
Qed.

End SortedItemRows.

End ReportsProperties.


(** ** The date presets *)

Section PresetsProperties.

Import Presets.

Lemma YearFromDay_spec (d : Z) :
  Date.DayFromYear (Date.YearFromDay d) <= d < Date.DayFromYear (Date.YearFromDay d + 1).
Proof.
  unfold Date.YearFromDay.
  set (y := 1970 + d * 400 / 146097).
  destruct (Z.leb_spec (Date.DayFromYear (y + 1)) d) as [H1|H1].
  - split; [done|]. subst y. revert H1. unfold Date.DayFromYear.
    Z.div_mod_to_equations. lia.
  - destruct (Z.leb_spec (Date.DayFromYear y) d) as [H2|H2].
    + split; done.
    + replace (y - 1 + 1) with y by lia. split; [|done].
      subst y. revert H1 H2. unfold Date.DayFromYear.
      Z.div_mod_to_equations. lia.
Qed.

(** ** Numbers printed in decimal *)

Lemma digits_pad (fuel : nat) (n : Z) (acc : string) :
  0 <= n < 2 ^ Z.of_nat fuel ->
  exists w, Num.digits fuel n acc = Js.pad w n +:+ acc /\ n < 10 ^ Z.of_nat w.
Proof.
  revert n acc. induction fuel as [|f IH]; intros n acc Hn.
  - exists 0%nat. cbn [Num.digits Js.pad]. rewrite append_nil_l.
    change (2 ^ Z.of_nat 0) with 1 in Hn. change (10 ^ Z.of_nat 0) with 1. split; [done|lia].
  - cbn [Num.digits]. rewrite Nat2Z.inj_succ, Z.pow_succ_r in Hn by lia.
    destruct (Z.eqb_spec (n / 10) 0) as [H0|H0].
    + exists 1%nat. cbn [Js.pad]. rewrite append_nil_l, append_cons, append_nil_l.
      split; [done|]. change (10 ^ Z.of_nat 1) with 10.
      revert H0. Z.div_mod_to_equations. lia.
    + destruct (IH (n / 10) (String (Js.digitChar (n mod 10)) acc)) as (w & -> & Hw).
      { assert (0 < 2 ^ Z.of_nat f) by (apply Z.pow_pos_nonneg; lia).
        Z.div_mod_to_equations. lia. }
      exists (S w). cbn [Js.pad]. rewrite append_assoc, append_cons, append_nil_l.
      split; [done|]. rewrite Nat2Z.inj_succ, Z.pow_succ_r by lia.
      revert Hw. Z.div_mod_to_equations. lia.
Qed.

Lemma decimal_pad (n : Z) :
  0 <= n -> exists w, Num.decimal n = Js.pad w n /\ n < 10 ^ Z.of_nat w.
Proof.
  intros Hn. unfold Num.decimal.
  destruct (digits_pad (S (Z.to_nat (Z.log2 n))) n EmptyString) as (w & -> & Hw).
  - rewrite Nat2Z.inj_succ, Z2Nat.id by apply Z.log2_nonneg.
    destruct (Z.eq_dec n 0) as [->|Hne]; [by vm_compute|].
    pose proof (Z.log2_spec n). lia.
  - exists w. by rewrite append_nil_r.
Qed.

Lemma padStart_two_digits (n : Z) :
  0 <= n <= 31 -> padStart 2 (Num.stringOfZ n) = Js.pad 2 n.
Proof.
  intros H. rewrite <- (Z2Nat.id n) by lia.
  assert (Z.to_nat n < 32)%nat as Hk by lia.
  generalize dependent (Z.to_nat n). clear H. intros k Hk.
  do 32 (destruct k as [|k]; [by vm_compute|]). lia.
Qed.

Lemma ymdParts_padded (w : nat) (y m d : Z) :
  0 <= y < 10 ^ Z.of_nat w -> 0 <= m <= 99 -> 0 <= d <= 99 ->
  ymdParts (Js.pad w y +:+ "-" +:+ Js.pad 2 m +:+ "-" +:+ Js.pad 2 d)
  = (Some y, Some m, Some d).
Proof.
  intros Hy Hm Hd. unfold ymdParts.
  change (Js.pad w y +:+ "-" +:+ Js.pad 2 m +:+ "-" +:+ Js.pad 2 d)
    with (Js.pad w y +:+ String "-" (Js.pad 2 m +:+ String "-" (Js.pad 2 d))).
  rewrite split_app_dash by apply noDash_pad.
  rewrite split_app_dash by apply noDash_pad.
  rewrite split_noDash by apply noDash_pad.
  cbn [map lookup list_lookup mjoin option_join].
  rewrite (Number_pad w y) by done. rewrite !Number_pad by (cbn; lia). reflexivity.
Qed.

(** ** The fields of a time value *)

Lemma DayFromYear_mono (a b : Z) : a <= b -> Date.DayFromYear a <= Date.DayFromYear b.
Proof. intros H. unfold Date.DayFromYear. Z.div_mod_to_equations. lia. Qed.

Lemma YearFromDay_unique (y d : Z) :
  Date.DayFromYear y <= d < Date.DayFromYear (y + 1) -> Date.YearFromDay d = y.
Proof.
  intros H. pose proof (YearFromDay_spec d) as H'.
  destruct (Z.lt_trichotomy (Date.YearFromDay d) y) as [Hlt|[He|Hgt]]; [|done|].
  - pose proof (DayFromYear_mono (Date.YearFromDay d + 1) y). lia.
  - pose proof (DayFromYear_mono (y + 1) (Date.YearFromDay d)). lia.
Qed.

Lemma Day_bounds (t : Z) :
  Date.Day t * Date.msPerDay <= t < Date.Day t * Date.msPerDay + Date.msPerDay.
Proof. unfold Date.Day, Date.msPerDay. Z.div_mod_to_equations. lia. Qed.

Lemma DayWithinYear_bounds (t : Z) :
  0 <= Date.DayWithinYear t < Date.DaysInYear (Date.YearFromTime t).
Proof.
  unfold Date.DayWithinYear, Date.YearFromTime.
  pose proof (YearFromDay_spec (Date.Day t)) as H.
  rewrite DayFromYear_succ in H. lia.
Qed.

Ltac month_table :=
  cbv beta zeta;
  repeat match goal with
  | |- context [?a <? ?b] => destruct (Z.ltb_spec a b); cbv beta iota
  end.

Lemma MonthFromTime_bounds (t : Z) : 0 <= Date.MonthFromTime t <= 11.
Proof. unfold Date.MonthFromTime. month_table; lia. Qed.

Lemma DateFromTime_bounds (t : Z) : 1 <= Date.DateFromTime t <= 31.
Proof.
  pose proof (DayWithinYear_bounds t) as H.
  unfold Date.DateFromTime, Date.MonthFromTime, Date.InLeapYear, Date.DaysInYear in *.
  destruct (Date.isLeap (Date.YearFromTime t)); month_table;
    match goal with
    | |- context [Date.monthStart ?m ?l] =>
        let v := eval vm_compute in (Date.monthStart m l) in
        change (Date.monthStart m l) with v
    end; lia.
Qed.

Lemma MakeDay_fields (t k : Z) :
  Date.MakeDay (Date.YearFromTime t) (Date.MonthFromTime t) (Date.DateFromTime t + k)
  = Date.Day t + k.
Proof.
  pose proof (MonthFromTime_bounds t) as Hm. unfold Date.MakeDay.
  replace (Date.MonthFromTime t / 12) with 0 by (Z.div_mod_to_equations; lia).
  replace (Date.MonthFromTime t mod 12) with (Date.MonthFromTime t)
    by (Z.div_mod_to_equations; lia).
  rewrite Z.add_0_r. unfold Date.DateFromTime, Date.InLeapYear, Date.DayWithinYear. lia.
Qed.

Lemma YearFromTime_after_epoch (t : Z) : 0 <= t -> 1970 <= Date.YearFromTime t.
Proof.
  intros Ht. unfold Date.YearFromTime.
  pose proof (YearFromDay_spec (Date.Day t)) as H.
  pose proof (Day_bounds t) as Hd. unfold Date.msPerDay in Hd.
  destruct (Z.le_gt_cases 1970 (Date.YearFromDay (Date.Day t))) as [|Hlt]; [done|].
  pose proof (DayFromYear_mono (Date.YearFromDay (Date.Day t) + 1) 1970) as Hmono.
  change (Date.DayFromYear 1970) with 0 in Hmono. lia.
Qed.

(** The date a valid time value after the epoch is printed as. *)
Lemma utcYMD_fields (t : Z) :
  Z.abs t <= 8640000000000000 -> 0 <= Date.YearFromTime t ->
  utcYMD (Some t)
  = Num.decimal (Date.YearFromTime t) +:+ "-"
    +:+ Js.pad 2 (Date.MonthFromTime t + 1) +:+ "-" +:+ Js.pad 2 (Date.DateFromTime t).
Proof.
  intros Ht Hy.
  pose proof (MonthFromTime_bounds t) as Hm. pose proof (DateFromTime_bounds t) as Hd.
  unfold utcYMD. cbn [mbind option_bind].
  rewrite TimeClip_in_range by lia.
  rewrite !padStart_two_digits by lia. unfold Num.stringOfZ at 1.
  by destruct (Z.ltb_spec (Date.YearFromTime t) 0); [lia|].
Qed.

(** X20.  The Today preset gives a range of one day around the present:
    for a clock reading from 1970 on, [phDateRangeToUtcIso] applied to
    [phTodayYMD] as both ends returns the ISO strings of an instant [s] and
    of the instant one day later, where [s] is midnight on the UTC+8 clock
    of the day of the shifted clock, and the instant [now] plus the time-zone
    offset of the machine lies from [s] up to, and not including, the end.
    (With an offset of zero that instant is [now] itself.) *)
Theorem today_preset_range (now tzOffset : Z) :
  0 <= phClock now tzOffset < 8640000000000000 ->
  phDateRangeToUtcIso (phTodayYMD now tzOffset) (phTodayYMD now tzOffset)
  = Returned
      {| startUtc := Date.iso (Date.Day (phClock now tzOffset) * Date.msPerDay
                               - 8 * Date.msPerHour);
         endUtc := Date.iso (Date.Day (phClock now tzOffset) * Date.msPerDay
                             - 8 * Date.msPerHour + Date.msPerDay) |}
  /\ Date.Day (phClock now tzOffset) * Date.msPerDay - 8 * Date.msPerHour
     <= now + tzOffset * 60000
     < Date.Day (phClock now tzOffset) * Date.msPerDay - 8 * Date.msPerHour
       + Date.msPerDay.
Proof.
  intros Hph. set (ph := phClock now tzOffset) in *.
  pose proof (Day_bounds ph) as Hday. split.
  2:{ unfold ph, phClock, Date.msPerDay, Date.msPerHour in *. lia. }
  pose proof (YearFromTime_after_epoch ph (proj1 Hph)) as Hy.
  pose proof (MonthFromTime_bounds ph) as Hm. pose proof (DateFromTime_bounds ph) as Hd.
  destruct (decimal_pad (Date.YearFromTime ph)) as (w & Hw & Hlt); [lia|].
  unfold phDateRangeToUtcIso, phTodayYMD. fold ph.
  rewrite utcYMD_fields, Hw by lia.
  rewrite ymdParts_padded by lia.
  cbn [nsub mbind option_bind]. unfold Date.UTC.
  rewrite MakeFullYear_id by lia.
  replace (Date.MonthFromTime ph + 1 - 1) with (Date.MonthFromTime ph) by lia.
  rewrite <- (Z.add_0_r (Date.DateFromTime ph)), MakeDay_fields, Z.add_0_r.
  unfold Date.MakeDate, Date.MakeTime.
  unfold Date.msPerDay, Date.msPerHour, Date.msPerMinute, Date.msPerSecond in *.
  rewrite TimeClip_in_range by lia.
  cbn [nadd nsub mbind option_bind]. unfold Date.toISOString. cbn [mbind option_bind].
  rewrite !TimeClip_in_range by lia.
  do 2 f_equal; f_equal; lia.
Qed.

(** Two valid time values of the same day print the same date. *)
Lemma utcYMD_same_day (t t' : Z) :
  Z.abs t <= 8640000000000000 -> Z.abs t' <= 8640000000000000 ->
  Date.Day t = Date.Day t' -> utcYMD (Some t) = utcYMD (Some t').
Proof.
  intros Ht Ht' Hd. unfold utcYMD. cbn [mbind option_bind].
  rewrite !TimeClip_in_range by done.
  unfold Date.DateFromTime, Date.MonthFromTime, Date.InLeapYear, Date.DayWithinYear,
    Date.YearFromTime. by rewrite Hd.
Qed.

Lemma Day_shift (t k : Z) : Date.Day (t - k * Date.msPerDay) = Date.Day t - k.
Proof.
  unfold Date.Day, Date.msPerDay.
  replace (t - k * 86400000) with (t + (- k) * 86400000) by lia.
  rewrite Z.div_add by lia. lia.
Qed.

(** X21.  The This-week preset starts on a Monday: for a clock reading
    from 1970 on, [phStartOfWeekYMD] is the date [phTodayYMD] gave between
    zero and six days earlier, and that day is a Monday on the shifted
    clock. *)
Theorem week_preset_is_monday (now tzOffset : Z) :
  0 <= phClock now tzOffset <= 8640000000000000 ->
  exists k,
    0 <= k <= 6
    /\ phStartOfWeekYMD now tzOffset = phTodayYMD (now - k * Date.msPerDay) tzOffset
    /\ WeekDay (phClock (now - k * Date.msPerDay) tzOffset) = 1.
Proof.
  intros Hph. set (ph := phClock now tzOffset) in *.
  exists ((WeekDay ph + 6) mod 7).
  assert (phClock (now - (WeekDay ph + 6) mod 7 * Date.msPerDay) tzOffset
          = ph - (WeekDay ph + 6) mod 7 * Date.msPerDay) as Hclock
    by (unfold ph, phClock; lia).
  assert (0 <= (WeekDay ph + 6) mod 7 <= 6) as Hk
    by (pose proof (Z.mod_pos_bound (WeekDay ph + 6) 7); lia).
  split; [done|]. split.
  - pose proof (YearFromTime_after_epoch ph (proj1 Hph)) as Hy.
    pose proof (Day_bounds ph) as Hday.
    unfold phStartOfWeekYMD, phTodayYMD. fold ph. rewrite Hclock.
    rewrite TimeClip_in_range by lia. cbv zeta. unfold Date.UTC.
    rewrite MakeFullYear_id, MakeDay_fields by lia.
    assert ((if WeekDay ph =? 0 then -6 else 1 - WeekDay ph) = - ((WeekDay ph + 6) mod 7))
      as ->.
    { unfold WeekDay. destruct (Z.eqb_spec ((Date.Day ph + 4) mod 7) 0) as [->|Hne].
      - by vm_compute.
      - Z.div_mod_to_equations. lia. }
    unfold Date.MakeDate, Date.MakeTime.
    unfold Date.msPerDay, Date.msPerHour, Date.msPerMinute, Date.msPerSecond in *.
    rewrite TimeClip_in_range by lia.
    apply utcYMD_same_day; [lia|lia|].
    pose proof (Day_shift ph ((WeekDay ph + 6) mod 7)) as Hs.
    unfold Date.msPerDay in Hs. rewrite Hs.
    unfold Date.Day, Date.msPerDay. 
    replace ((ph / 86400000 + - ((WeekDay ph + 6) mod 7)) * 86400000
             + (0 * 3600000 + 0 * 60000 + 0 * 1000 + 0))
      with ((ph / 86400000 - (WeekDay ph + 6) mod 7) * 86400000) by lia.
    by rewrite Z.div_mul.
  - rewrite Hclock. unfold WeekDay at 1. rewrite Day_shift. unfold WeekDay.
    Z.div_mod_to_equations. lia.
Qed.

Ltac eval_monthStart :=
  repeat match goal with
  | |- context [Date.monthStart ?m ?l] =>
      lazymatch m with 0 => idtac | Z.pos _ => idtac end;
      let v := eval vm_compute in (Date.monthStart m l) in
      change (Date.monthStart m l) with v
  end.

Ltac decide_table :=
  cbv beta zeta;
  repeat match goal with
  | |- context [?a <? ?b] =>
      first [ replace (a <? b) with true by (symmetry; apply Z.ltb_lt; lia)
            | replace (a <? b) with false by (symmetry; apply Z.ltb_ge; lia) ];
      cbv beta iota
  end.

Ltac eval_bound H :=
  match type of H with
  | _ <= _ <= ?e => let v := eval vm_compute in e in change e with v in H
  end.

(** The fields of a time value on day [d] of the month [m] of year [y]. *)
Lemma fields_of_MakeDay (y m d r : Z) :
  0 <= m <= 11 -> 1 <= d <= daysInMonth y (m + 1) -> 0 <= r < Date.msPerDay ->
  Date.YearFromTime (Date.MakeDay y m d * Date.msPerDay + r) = y
  /\ Date.MonthFromTime (Date.MakeDay y m d * Date.msPerDay + r) = m
  /\ Date.DateFromTime (Date.MakeDay y m d * Date.msPerDay + r) = d.
Proof.
  intros Hm Hd Hr.
  assert (Date.Day (Date.MakeDay y m d * Date.msPerDay + r) = Date.MakeDay y m d) as Hday.
  { unfold Date.Day, Date.msPerDay in *. rewrite Z.add_comm, Z.div_add by lia.
    rewrite Z.div_small by lia. lia. }
  assert (Date.MakeDay y m d = Date.DayFromYear y + Date.monthStart m (Date.isLeap y) + d - 1)
    as Hmk.
  { unfold Date.MakeDay.
    replace (m / 12) with 0 by (Z.div_mod_to_equations; lia).
    replace (m mod 12) with m by (Z.div_mod_to_equations; lia).
    by rewrite Z.add_0_r. }
  assert (m = 0 \/ m = 1 \/ m = 2 \/ m = 3 \/ m = 4 \/ m = 5 \/ m = 6 \/ m = 7 \/ m = 8
          \/ m = 9 \/ m = 10 \/ m = 11) as Hcases by lia.
  unfold Date.DateFromTime, Date.MonthFromTime, Date.InLeapYear, Date.DayWithinYear,
    Date.YearFromTime.
  rewrite Hday, Hmk. clear Hday Hmk Hr r.
  assert (Date.YearFromDay (Date.DayFromYear y + Date.monthStart m (Date.isLeap y) + d - 1)
          = y) as Hyear.
  { apply YearFromDay_unique. rewrite DayFromYear_succ.
    unfold Date.DaysInYear, daysInMonth in *. generalize dependent (Date.DayFromYear y).
    intros D. destruct (Date.isLeap y);
      repeat (destruct Hcases as [->|Hcases]; [eval_monthStart; eval_bound Hd; lia|]);
      subst m; eval_monthStart; eval_bound Hd; lia. }
  rewrite Hyear. split; [done|]. unfold daysInMonth in Hd.
  replace (Date.DayFromYear y + Date.monthStart m (Date.isLeap y) + d - 1
           - Date.DayFromYear y)
    with (Date.monthStart m (Date.isLeap y) + d - 1) by lia.
  clear Hyear.
  destruct (Date.isLeap y);
    repeat (destruct Hcases as [->|Hcases];
            [eval_monthStart; eval_bound Hd; decide_table; eval_monthStart; lia|]);
    subst m; eval_monthStart; eval_bound Hd; decide_table; eval_monthStart; lia.
Qed.

(** X22.  The This-month preset starts on the first of the month: for a
    clock reading from 1970 on, [phStartOfMonthYMD] is the date [phTodayYMD]
    gave between zero and thirty days earlier, and that day is day 1 of the
    same month of the same year on the shifted clock. *)
Theorem month_preset_is_first_day (now tzOffset : Z) :
  0 <= phClock now tzOffset <= 8640000000000000 ->
  exists k,
    0 <= k <= 30
    /\ phStartOfMonthYMD now tzOffset = phTodayYMD (now - k * Date.msPerDay) tzOffset
    /\ Date.DateFromTime (phClock (now - k * Date.msPerDay) tzOffset) = 1
    /\ Date.MonthFromTime (phClock (now - k * Date.msPerDay) tzOffset)
       = Date.MonthFromTime (phClock now tzOffset)
    /\ Date.YearFromTime (phClock (now - k * Date.msPerDay) tzOffset)
       = Date.YearFromTime (phClock now tzOffset).
Proof.
  intros Hph. set (ph := phClock now tzOffset) in *.
  pose proof (DateFromTime_bounds ph) as Hd. pose proof (MonthFromTime_bounds ph) as Hm.
  pose proof (YearFromTime_after_epoch ph (proj1 Hph)) as Hy.
  exists (Date.DateFromTime ph - 1). split; [lia|].
  set (k := Date.DateFromTime ph - 1) in *.
  assert (phClock (now - k * Date.msPerDay) tzOffset = ph - k * Date.msPerDay) as Hclock
    by (unfold ph, phClock; lia).
  rewrite Hclock. set (t := ph - k * Date.msPerDay).
  assert (Date.Day t
          = Date.MakeDay (Date.YearFromTime ph) (Date.MonthFromTime ph) 1) as Hday.
  { unfold t. rewrite Day_shift.
    pose proof (MakeDay_fields ph (1 - Date.DateFromTime ph)) as Hmk.
    replace (Date.DateFromTime ph + (1 - Date.DateFromTime ph)) with 1 in Hmk by lia.
    rewrite Hmk. unfold k. lia. }
  pose proof (Day_bounds t) as Hb. rewrite Hday in Hb.
  destruct (fields_of_MakeDay (Date.YearFromTime ph) (Date.MonthFromTime ph) 1
              (t - Date.MakeDay (Date.YearFromTime ph) (Date.MonthFromTime ph) 1
                   * Date.msPerDay)) as (Hfy & Hfm & Hfd).
  { done. }
  { pose proof (daysInMonth_bounds (Date.YearFromTime ph) (Date.MonthFromTime ph + 1)).
    lia. }
  { lia. }
  replace (Date.MakeDay (Date.YearFromTime ph) (Date.MonthFromTime ph) 1 * Date.msPerDay
           + (t - Date.MakeDay (Date.YearFromTime ph) (Date.MonthFromTime ph) 1
                  * Date.msPerDay)) with t in * by lia.
  split; [|done].
  unfold phStartOfMonthYMD, phTodayYMD. fold ph. rewrite Hclock. fold t.
  assert (Z.abs t <= 8640000000000000) as Ht
    by (unfold t, k, Date.msPerDay; lia).
  rewrite (utcYMD_fields ph), (utcYMD_fields t) by lia.
  rewrite Hfy, Hfm, Hfd.
  destruct (decimal_pad (Date.YearFromTime ph)) as (w & Hw & _); [lia|].
  change (Num.decimal (Date.YearFromTime ph) +:+ "-"
          +:+ Js.pad 2 (Date.MonthFromTime ph + 1) +:+ "-"
          +:+ Js.pad 2 (Date.DateFromTime ph))
    with (Num.decimal (Date.YearFromTime ph)
          +:+ String "-" (Js.pad 2 (Date.MonthFromTime ph + 1)
                          +:+ String "-" (Js.pad 2 (Date.DateFromTime ph)))).
  rewrite split_app_dash by (rewrite Hw; apply noDash_pad).
  rewrite split_app_dash by apply noDash_pad.
  rewrite split_noDash by apply noDash_pad.
  reflexivity.
Qed.

End PresetsProperties.


(** ** The properties on sample data *)

(** X1, witness: a save of the edited draft [N1] on the reference
    backend. *)
Lemma saveReplacementDraft_runs_witness :
  let s := editingState "wrong item" in
  let R := run (Backend.answer sampleGenId) (Owner.saveReplacementDraft s s)
             (sampleWorld draftDb []) in
  fst (fst (fst R)) = Returned tt
  /\ stopsAtFailure (snd R)
  /\ snd (fst (fst R)) = Owner.setReplaceSaving false s.
Proof.
  intros s R.
  destruct (saveReplacementDraft_runs _ (Backend.answer sampleGenId)
              (sampleWorld draftDb []) s s
              (fst (fst (fst R))) (snd (fst (fst R))) (snd (fst R)) (snd R))
    as (H1 & H2 & H3); [reflexivity|].
  split; [exact H1|]. split; [exact H2|]. exact (proj1 H3).
Defined.

(** X2, witness: the start of a replacement of [O1] when the first read
    fails. *)
Lemma startVoidAndReplace_failure_witness :
  let R := run (Backend.answer sampleGenId)
             (Owner.startVoidAndReplace idleState "O1" idleState)
             (sampleWorld paidDb [Some "offline"]) in
  stopsAtFailure (snd R)
  /\ snd (fst (fst R)) = Owner.setReplaceSaving false idleState
  /\ alerts (snd R) = ["offline"].
Proof.
  intros R.
  destruct (startVoidAndReplace_failure _ (Backend.answer sampleGenId)
              (sampleWorld paidDb [Some "offline"]) idleState idleState "O1"
              (fst (fst (fst R))) (snd (fst (fst R))) (snd (fst R)) (snd R))
    as (_ & H2 & _ & H4 & _); [reflexivity|].
  split; [exact H2|]. split; [|reflexivity].
  apply H4. vm_compute. discriminate.
Defined.

(** X3, witness: the finalization of the edited draft [N1] on the reference
    backend. *)
Lemma finalizeReplacement_order_of_updates_witness :
  let s := editingState "wrong item" in
  let R := run (Backend.answer sampleGenId) (Owner.finalizeReplacement s s)
             (sampleWorld draftDb []) in
  fst (fst (fst R)) = Returned tt
  /\ existsb entryIsPaidOk (snd R) = true /\ existsb entryIsVoidOk (snd R) = true.
Proof.
  intros s R.
  destruct (finalizeReplacement_order_of_updates _ (Backend.answer sampleGenId)
              (sampleWorld draftDb []) s s
              (fst (fst (fst R))) (snd (fst (fst R))) (snd (fst R)) (snd R))
    as (H1 & _ & _ & _ & H5); [reflexivity|].
  split; [exact H1|].
  destruct (H5 eq_refl eq_refl) as (Hp & Hv & _). split; [exact Hp|exact Hv].
Defined.

(** X4, witness: after the finalization of the edited draft [N1] of [O1],
    the only line of [N1] is one [Y] at 45 and the line of [O1] is as
    before. *)
Lemma finalizeReplacement_replaces_order_witness :
  let s := editingState "wrong item" in
  let R := run (Backend.answer sampleGenId) (Owner.finalizeReplacement s s)
             (sampleWorld draftDb []) in
  Backend.linesOf "N1" (Backend.db (snd (fst R)))
  = map Backend.lineRow (Owner.draftPayload "N1" (Owner.replaceLines s))
  /\ Backend.linesOf "O1" (Backend.db (snd (fst R))) = [sampleLine "O1"].
Proof.
  intros s R.
  destruct (finalizeReplacement_replaces_order sampleGenId (sampleWorld draftDb []) s s
              "O1" "N1" "owner-1"
              (fst (fst (fst R))) (snd (fst (fst R))) (snd (fst R)) (snd R))
    as (H1 & H2 & _);
    [reflexivity | reflexivity | discriminate | vm_compute; lia | discriminate
    | reflexivity | reflexivity | reflexivity | reflexivity |].
  split; [exact H1|]. rewrite (H2 "O1") by discriminate. reflexivity.
Defined.

(** X5, witness: the reason [wrong item] typed with two spaces before and
    one after. *)
Lemma finalizeReplacement_trims_reason_witness :
  let s := editingState "  wrong item " in
  let R := run (Backend.answer sampleGenId) (Owner.finalizeReplacement s s)
             (sampleWorld draftDb []) in
  Forall (fun en => match en with
                    | Entry (ordersUpdate p _) _ =>
                        op_status p = Some "VOIDED" ->
                        op_void_reason p = Some (Text.ofString "wrong item")
                    | _ => True
                    end) (snd R).
Proof.
  intros s R.
  apply (finalizeReplacement_trims_reason _ (Backend.answer sampleGenId)
           (sampleWorld draftDb []) s s
           (Text.ofString "  ") (Text.ofString "wrong item") (Text.ofString " ")
           (fst (fst (fst R))) (snd (fst (fst R))) (snd (fst R)) (snd R)).
  - reflexivity.
  - repeat constructor.
  - repeat constructor.
  - split; intros c H; vm_compute in H; injection H as <-; reflexivity.
  - reflexivity.
Defined.


(** X7, witness: the editor with a line of [Y] and a line of [Z], and the
    menu that lists both: one more [Y] and one more [Z] leave two lines,
    the removal of [Y] leaves the line of [Z]. *)
Lemma editor_keeps_items_distinct_witness :
  let ls := Owner.repAdd sampleMenu "Z" (Owner.replaceLines (editingState "ab")) in
  map Owner.menu_item_id ls = ["Y"; "Z"]
  /\ itemsDistinct (Owner.repAdd sampleMenu "Y" ls)
  /\ map Owner.menu_item_id (Owner.repAdd sampleMenu "Y" ls) = ["Y"; "Z"]
  /\ itemsDistinct (Owner.repRemove "Y" ls)
  /\ map Owner.menu_item_id (Owner.repRemove "Y" ls) = ["Z"]
  /\ ("Y" ∈ map Owner.menu_item_id (Owner.repAdd sampleMenu "Y" ls)).
Proof.
  intros ls.
  destruct (editor_keeps_items_distinct sampleMenu "Y" ls) as (_ & _ & H3 & H4 & _ & _ & H7).
  - apply NoDup_cons. split; [|apply NoDup_singleton].
    intros H. apply list_elem_of_singleton in H. discriminate.
  - split; [reflexivity|]. split; [exact H4|]. split; [reflexivity|].
    split; [exact H3|]. split; [reflexivity|].
    exact (H7 _ eq_refl).
Defined.

(** X8, witness: the scenario cart when the insert of the lines fails. *)
Lemma placeOrder_failure_witness :
  let R := run (Backend.answer sampleGenId) (Cashier.placeOrder scenarioCart scenarioCart)
             (sampleWorld paidDb [None; Some "offline"]) in
  stopsAtFailure (snd R)
  /\ snd (fst (fst R)) = Cashier.setSaving false scenarioCart
  /\ length (Backend.orders (Backend.db (snd (fst R)))) = 2%nat
  /\ Backend.linesOf "N1" (Backend.db (snd (fst R))) = [].
Proof.
  intros R.
  destruct (placeOrder_failure _ (Backend.answer sampleGenId)
              (sampleWorld paidDb [None; Some "offline"]) scenarioCart scenarioCart
              (fst (fst (fst R))) (snd (fst (fst R))) (snd (fst R)) (snd R))
    as (_ & H2 & _ & H4); [reflexivity|].
  split; [exact H2|]. split; [|split; reflexivity].
  apply H4. vm_compute. discriminate.
Defined.

(** X9, witness: the scenario cart. *)
Lemma cart_operations_keep_cart_ok_witness :
  cartOk (Cashier.addToCart sampleMenuItem (Cashier.cart scenarioCart))
  /\ cartOk (Cashier.inc "B" (Cashier.cart scenarioCart))
  /\ cartOk (Cashier.dec "B" (Cashier.cart scenarioCart)).
Proof.
  apply (cart_operations_keep_cart_ok sampleMenuItem "B" (Cashier.cart scenarioCart)).
  split; [repeat constructor; cbn; lia|].
  apply NoDup_cons. split; [|apply NoDup_singleton].
  intros H. apply list_elem_of_singleton in H. discriminate.
Defined.

(** X10, witness: the scenario cart, whose quantities are 2 and 1. *)
Lemma dec_undoes_add_witness :
  Cashier.dec "A" (Cashier.addToCart sampleMenuItem (Cashier.cart scenarioCart))
  = Cashier.cart scenarioCart
  /\ Cashier.dec "B" (Cashier.inc "B" (Cashier.cart scenarioCart))
     = Cashier.cart scenarioCart.
Proof.
  apply (dec_undoes_add sampleMenuItem "B" (Cashier.cart scenarioCart)).
  - split; [repeat constructor; cbn; lia|].
    apply NoDup_cons. split; [|apply NoDup_singleton].
    intros H. apply list_elem_of_singleton in H. discriminate.
  - repeat constructor; reflexivity.
Defined.

(** X11, witness: minus on [B], of quantity 1 in the scenario cart. *)
Lemma dec_removes_last_unit_witness :
  map Cashier.id (Cashier.dec "B" (Cashier.cart scenarioCart)) = ["A"]
  /\ ("B" ∉ map Cashier.id (Cashier.dec "B" (Cashier.cart scenarioCart))).
Proof.
  split; [reflexivity|].
  apply (dec_removes_last_unit "B" (Cashier.cart scenarioCart)
           {| Cashier.id := "B"; Cashier.name := "Item B";
              Cashier.price := 20%float; Cashier.qty := 1 |}).
  - split; [repeat constructor; cbn; lia|].
    apply NoDup_cons. split; [|apply NoDup_singleton].
    intros H. apply list_elem_of_singleton in H. discriminate.
  - apply list_elem_of_In. right. left. reflexivity.
  - reflexivity.
  - reflexivity.
Defined.

(** X12, witness: a row with a comma in one field, a quote in another and
    an empty field, then a row with a line feed in one field and a carriage
    return before a line feed in the other; and the field [a], carriage
    return, [b] alone in a file. *)
Lemma escapeCsv_round_trip_witness :
  let rows := [["Fries, large"; String Dashboard.quoteChar "x"; EmptyString];
               [String "a" (String Dashboard.newlineChar "b");
                String "c" (String crChar (String Dashboard.newlineChar "d"))]] in
  readCsv (csvText rows) = rows
  /\ (2 <= length (readCsv (csvText [[String "a" (String crChar "b")]])))%nat.
Proof.
  intros rows.
  destruct (escapeCsv_round_trip rows) as [Hread Hbare].
  - discriminate.
  - repeat constructor; discriminate.
  - split.
    + apply Hread. repeat constructor.
    + apply (Hbare (String "a" (String crChar "b"))). reflexivity.
Defined.


(** X16, witness: a header with the scheme and only spaces after it. *)
Lemma POST_without_token_witness :
  Route.POST noNumber (sampleRequest (Some "Bearer   ")) sampleEnv sampleServices
  = Route.fail 401 "Missing auth token".
Proof.
  apply (POST_without_token noNumber (sampleRequest (Some "Bearer   ")) sampleEnv
           sampleServices).
  right. right. exists "Bearer ", "  ".
  split; [reflexivity|]. split; [reflexivity|]. cbn. auto.
Defined.

(** X17, witness: the owner's request for a new cashier password. *)
Lemma POST_ok_only_for_owner_witness :
  Route.body (Route.POST noNumber (sampleRequest (Some "Bearer token-1")) sampleEnv
                sampleServices)
  = Route.OkBody.
Proof.
  apply (POST_ok_only_for_owner noNumber (sampleRequest (Some "Bearer token-1")) sampleEnv
           sampleServices).
  reflexivity.
Defined.

(** X19, witness: the report of the one order [O1] of branch [B1]. *)
Lemma salesByBranch_rows_witness :
  NoDup (map Reports.br_branch_id
           (Reports.salesByBranch keepRows sampleBranches [sampleCsvOrder])).
Proof.
  apply (salesByBranch_rows keepRows (fun _ _ => reflexivity _) sampleBranches
           [sampleCsvOrder]).
Defined.

(** X23, witness: the report of the one line of two [X]. *)
Lemma topItems_rows_witness :
  (length (Reports.topItems keepItems [sampleCsvLine]) <= 10)%nat
  /\ map Reports.it_qty (Reports.topItems keepItems [sampleCsvLine]) = [2].
Proof.
  split; [|reflexivity].
  apply (topItems_rows keepItems (fun _ _ => reflexivity _) [sampleCsvLine]).
Defined.

(** X20, witness: at 2024-03-01T04:00:00Z the range of Today is the
    Philippine day 2024-03-01. *)
Lemma today_preset_range_witness :
  phDateRangeToUtcIso (Presets.phTodayYMD sampleNow 0) (Presets.phTodayYMD sampleNow 0)
  = Returned {| startUtc := "2024-02-29T16:00:00.000Z";
                endUtc := "2024-03-01T16:00:00.000Z" |}.
Proof.
  rewrite (proj1 (today_preset_range sampleNow 0
                    ltac:(unfold Presets.phClock, sampleNow; lia))).
  vm_compute. reflexivity.
Defined.

(** X21, witness: Friday 2024-03-01; the week started four days
    earlier. *)
Lemma week_preset_is_monday_witness :
  exists k,
    0 <= k <= 6
    /\ Presets.phStartOfWeekYMD sampleNow 0
       = Presets.phTodayYMD (sampleNow - k * Date.msPerDay) 0
    /\ Presets.WeekDay (Presets.phClock (sampleNow - k * Date.msPerDay) 0) = 1.
Proof.
  apply (week_preset_is_monday sampleNow 0).
  unfold Presets.phClock, sampleNow. lia.
Defined.

(** X22, witness: 2024-03-01 is itself the first of its month. *)
Lemma month_preset_is_first_day_witness :
  exists k,
    0 <= k <= 30
    /\ Presets.phStartOfMonthYMD sampleNow 0
       = Presets.phTodayYMD (sampleNow - k * Date.msPerDay) 0
    /\ Date.DateFromTime (Presets.phClock (sampleNow - k * Date.msPerDay) 0) = 1
    /\ Date.MonthFromTime (Presets.phClock (sampleNow - k * Date.msPerDay) 0)
       = Date.MonthFromTime (Presets.phClock sampleNow 0)
    /\ Date.YearFromTime (Presets.phClock (sampleNow - k * Date.msPerDay) 0)
       = Date.YearFromTime (Presets.phClock sampleNow 0).
Proof.
  apply (month_preset_is_first_day sampleNow 0).
  unfold Presets.phClock, sampleNow. lia.
Defined.
